(** * Crypto & fiat converter: a shallow embedding of [main.py]

    The development follows the source file top to bottom:

    - [Decimal]: the arithmetic of Python's [decimal] module that the
      converter relies on (multiplication, true division, [quantize] and
      fixed-point formatting), for finite values under the default context
      ([prec = 28], [ROUND_HALF_EVEN], [Emax = 999999], [Emin = -999999],
      traps on [InvalidOperation], [DivisionByZero] and [Overflow]);
    - [CACHE] and the three providers [get_ecb_rates], [get_yahoo_rate] and
      [get_binance_prices], as computations over the shared cache that also
      log every upstream request they make;
    - the endpoint [convert].

    The properties come after the model: the quadrants of the router, the
    providers and their caches, and the arithmetic of a result (rounding
    errors of the decimal operations, measured on real numbers).  A last
    part covers what else the endpoint and its providers do: the exceptions
    they raise, the shape and the accuracy of a result, the upstream
    requests of a conversion and what the cache keeps.

    Conventions.  A request's [amount] is the value of [Decimal(str(amount))];
    the binary float it is parsed from enters where a printed field is sent
    back as an amount, through [float_of].  NaN and the infinities are not
    modelled: every [Decimal] below is finite.
    [time.time()] readings are rationals.  [str.upper] is modelled on ASCII
    letters. *)

From stdpp Require Import gmap strings.
From Stdlib Require Import ZArith NArith QArith Lia String Ascii.
From Stdlib Require Import Reals Lra Psatz Zpow_facts.

Local Open Scope Z_scope.

(** ** Python exceptions that can leave [convert] *)

Inductive exn : Type :=
| InvalidOperation
| DivisionByZero
| Overflow
| KeyError (key : string)
| HTTPException (status_code : Z) (detail : string).

Inductive res (A : Type) : Type :=
| Ok (a : A)
| Raise (e : exn).
Arguments Ok {A} a.
Arguments Raise {A} e.

Definition rbind {A B} (r : res A) (k : A -> res B) : res B :=
  match r with
  | Ok a => k a
  | Raise e => Raise e
  end.

(** ** Decimal numbers *)

(** A finite decimal is [(-1)^sign * int * 10^exp]. *)
Record Decimal : Type := mkDecimal { dsign : bool; dint : N; dexp : Z }.

Definition prec : Z := 28.
Definition Emax : Z := 999999.
Definition Emin : Z := -999999.
Definition Etiny : Z := Emin - prec + 1.
Definition Etop : Z := Emax - prec + 1.

(** [len(str(n))]: the number of decimal digits of a coefficient. *)
Fixpoint ndigits_fuel (fuel : nat) (n : N) : Z :=
  match fuel with
  | O => 1
  | S f => if (n <? 10)%N then 1 else 1 + ndigits_fuel f (n / 10)%N
  end.

Definition ndigits (n : N) : Z := ndigits_fuel (N.size_nat n) n.

Definition pow10 (k : Z) : N := (10 ^ Z.to_N k)%N.

(** [bool(d)]: a decimal is truthy unless its coefficient is zero. *)
Definition truthy (d : Decimal) : bool := negb (dint d =? 0)%N.

(** [adjusted()]: the exponent of the most significant digit. *)
Definition adjusted (d : Decimal) : Z := dexp d + ndigits (dint d) - 1.

(** ROUND_HALF_EVEN on a coefficient split as [q * 10^k + r], [k > 0]:
    whether the kept part [q] is incremented.  ([_fix] and [_rescale] first
    replace a coefficient that lies wholly below the kept digits by a
    single [1] just below them.) *)
Definition round_half_even (q r : N) (k : Z) : bool :=
  let half := (5 * pow10 (k - 1))%N in
  if (r =? half)%N then N.odd q else (half <? r)%N.

(** [_fix]: round to the context precision and check the exponent range. *)
Definition fix_ (d : Decimal) : res Decimal :=
  let '(mkDecimal s c e) := d in
  if (c =? 0)%N then
    Ok (mkDecimal s 0 (Z.min (Z.max e Etiny) Emax))
  else
    let exp_min := ndigits c + e - prec in
    if Etop <? exp_min then Raise Overflow
    else
      let exp_min := Z.max exp_min Etiny in
      if e <? exp_min then
        let digits := ndigits c + e - exp_min in
        let '(c, e) := if digits <? 0 then (1%N, exp_min - 1) else (c, e) in
        let k := exp_min - e in
        let q := (c / pow10 k)%N in
        let r := (c mod pow10 k)%N in
        let coeff := if round_half_even q r k then (q + 1)%N else q in
        let '(coeff, exp_min) :=
          if prec <? ndigits coeff then ((coeff / 10)%N, exp_min + 1)
          else (coeff, exp_min) in
        if Etop <? exp_min then Raise Overflow
        else Ok (mkDecimal s coeff exp_min)
      else Ok d.

(** [__mul__] *)
Definition mul (a b : Decimal) : res Decimal :=
  fix_ (mkDecimal (xorb (dsign a) (dsign b)) (dint a * dint b)%N (dexp a + dexp b)).

(** The loop of [__truediv__] that brings an exact quotient as close to
    the ideal exponent as possible; [fuel] is [ideal_exp - exp]. *)
Fixpoint strip_zeros (fuel : nat) (coeff : N) (exp : Z) : N * Z :=
  match fuel with
  | O => (coeff, exp)
  | S f =>
      if (coeff mod 10 =? 0)%N then strip_zeros f (coeff / 10)%N (exp + 1)
      else (coeff, exp)
  end.

(** [__truediv__] *)
Definition div (a b : Decimal) : res Decimal :=
  let sign := xorb (dsign a) (dsign b) in
  if (dint b =? 0)%N then
    if (dint a =? 0)%N then Raise InvalidOperation (* DivisionUndefined *)
    else Raise DivisionByZero
  else if (dint a =? 0)%N then
    fix_ (mkDecimal sign 0 (dexp a - dexp b))
  else
    let shift := ndigits (dint b) - ndigits (dint a) + prec + 1 in
    let exp := dexp a - dexp b - shift in
    let '(coeff, remainder) :=
      if 0 <=? shift
      then N.div_eucl (dint a * pow10 shift) (dint b)
      else N.div_eucl (dint a) (dint b * pow10 (- shift)) in
    let '(coeff, exp) :=
      if negb (remainder =? 0)%N then
        ((if (coeff mod 5 =? 0)%N then coeff + 1 else coeff)%N, exp)
      else
        strip_zeros (Z.to_nat (dexp a - dexp b - exp)) coeff exp in
    fix_ (mkDecimal sign coeff exp).

(** [_rescale] with ROUND_HALF_EVEN *)
Definition rescale (d : Decimal) (exp : Z) : Decimal :=
  let '(mkDecimal s c e) := d in
  if (c =? 0)%N then mkDecimal s 0 exp
  else if exp <=? e then mkDecimal s (c * pow10 (e - exp))%N exp
  else
    let digits := ndigits c + e - exp in
    let '(c, e) := if digits <? 0 then (1%N, exp - 1) else (c, e) in
    let k := exp - e in
    let q := (c / pow10 k)%N in
    let r := (c mod pow10 k)%N in
    mkDecimal s (if round_half_even q r k then (q + 1)%N else q) exp.

(** [quantize] to the exponent [exp] of the second operand *)
Definition quantize (d : Decimal) (exp : Z) : res Decimal :=
  if negb ((Etiny <=? exp) && (exp <=? Emax)) then Raise InvalidOperation
  else if (dint d =? 0)%N then fix_ (mkDecimal (dsign d) 0 exp)
  else if Emax <? adjusted d then Raise InvalidOperation
  else if prec <? adjusted d - exp + 1 then Raise InvalidOperation
  else
    let ans := rescale d exp in
    if Emax <? adjusted ans then Raise InvalidOperation
    else if prec <? ndigits (dint ans) then Raise InvalidOperation
    else fix_ ans.

(** [str(n)] for a coefficient *)
Definition digit_char (n : N) : ascii := ascii_of_N (48 + n).

Fixpoint str_fuel (fuel : nat) (n : N) (acc : string) : string :=
  match fuel with
  | O => acc
  | S f =>
      let acc := String (digit_char (n mod 10)) acc in
      if (n <? 10)%N then acc else str_fuel f (n / 10)%N acc
  end.

Definition str_N (n : N) : string := str_fuel (S (N.size_nat n)) n "".

Fixpoint zeros (n : nat) : string :=
  match n with
  | O => ""
  | S n => String "0" (zeros n)
  end.

Definition str_take (n : nat) (s : string) : string := substring 0 n s.
Definition str_drop (n : nat) (s : string) : string := substring n (String.length s - n) s.

(** [format(d, 'f')] *)
Definition format_f (d : Decimal) : string :=
  let d := if (dint d =? 0)%N && (0 <? dexp d) then rescale d 0 else d in
  let digits := str_N (dint d) in
  let len := Z.of_nat (String.length digits) in
  let dotplace := dexp d + len in
  let '(intpart, fracpart) :=
    if dotplace <? 0 then ("0", zeros (Z.to_nat (- dotplace)) +:+ digits)
    else if len <? dotplace then (digits +:+ zeros (Z.to_nat (dotplace - len)), "")
    else
      let i := str_take (Z.to_nat dotplace) digits in
      ((if String.eqb i "" then "0" else i), str_drop (Z.to_nat dotplace) digits) in
  (if dsign d then "-" else "") +:+ intpart
    +:+ (if String.eqb fracpart "" then "" else "." +:+ fracpart).

(** ** [main.py] *)

(** [fmt(n, decimals=8)]; [Decimal(10) ** -8] is [Decimal('1E-8')]. *)
Definition fmt (n : Decimal) : res string :=
  rbind (quantize n (-8)) (fun q => Ok (format_f q)).

#[global] Instance Decimal_eq_dec : EqDecision Decimal.
Proof. solve_decision. Defined.

(** *** Cache *)

(** One entry of [CACHE] for a bulk source: [{"data": ..., "timestamp": ...}],
    where [data] is [None] or a dict. *)
Record Snapshot : Type := mkSnapshot {
  data : option (gmap string Decimal);
  timestamp : Q
}.

(** The entry of the pair source: one dict of pair rates, one timestamp. *)
Record PairSnapshot : Type := mkPairSnapshot {
  pair_data : gmap string Decimal;
  pair_timestamp : Q
}.

Record Cache : Type := mkCache {
  ecb : Snapshot;
  binance : Snapshot;
  yahoo : PairSnapshot
}.

Definition CACHE : Cache :=
  {| ecb := mkSnapshot None 0;
     binance := mkSnapshot None 0;
     yahoo := mkPairSnapshot ∅ 0 |}.

Definition ECB_TTL : Q := 60 * 60.
Definition BINANCE_TTL : Q := 10.
Definition YAHOO_TTL : Q := 10.

Definition Qltb (a b : Q) : bool := negb (Qle_bool b a).

(** [now - timestamp < TTL] *)
Definition fresh (now ts ttl : Q) : bool := Qltb (now - ts) ttl.

(** The value of [CACHE[source]["data"]] when it is truthy: a dict that is
    not empty. *)
Definition truthy_data (s : Snapshot) : option (gmap string Decimal) :=
  match data s with
  | Some m => if bool_decide (m = ∅) then None else Some m
  | None => None
  end.

(** *** Upstream *)

(** The upstream requests a provider can make. *)
Inductive request : Type :=
| GetEcb
| GetYahoo (pair : string)
| GetBinance.

(** What the Binance ticker request does: [requests.get] raises, or answers
    with a status code and a body; the body is [None] when [r.json()] or a
    [Decimal(item["price"])] raises. *)
Inductive binance_reply : Type :=
| BinanceException
| BinanceResponse (status_code : Z) (json : option (list (string * Decimal))).

(** The surroundings of one call: the clock reading of each provider and
    what each upstream would answer.  [ecb_reply] is the list of
    [(currency, rate)] cubes of the document, [None] when fetching or parsing
    raises; [yahoo_reply pair] is [regularMarketPrice] as a decimal, [None]
    when fetching or parsing raises. *)
Record Env : Type := mkEnv {
  time_ecb : Q;
  time_yahoo : Q;
  time_binance : Q;
  ecb_reply : option (list (string * Decimal));
  yahoo_reply : string -> option Decimal;
  binance_reply_of : binance_reply
}.

(** *** Computations over the cache *)

Record World : Type := mkWorld {
  cache : Cache;
  log : list request     (* upstream requests made so far, latest first *)
}.

Definition M (A : Type) : Type := World -> res A * World.

Definition ret {A} (a : A) : M A := fun w => (Ok a, w).
Definition raise {A} (e : exn) : M A := fun w => (Raise e, w).
Definition bind {A B} (m : M A) (k : A -> M B) : M B :=
  fun w => match m w with
           | (Ok a, w') => k a w'
           | (Raise e, w') => (Raise e, w')
           end.
Definition lift {A} (r : res A) : M A := fun w => (r, w).

Notation "'let*' x ':=' m 'in' k" := (bind m (fun x => k))
  (at level 10, x name, m at level 100, k at level 200).

Definition requests_get (r : request) : M unit :=
  fun w => (Ok tt, mkWorld (cache w) (r :: log w)).

Definition set_ecb (s : Snapshot) : M unit :=
  fun w => (Ok tt, mkWorld (mkCache s (binance (cache w)) (yahoo (cache w))) (log w)).
Definition set_binance (s : Snapshot) : M unit :=
  fun w => (Ok tt, mkWorld (mkCache (ecb (cache w)) s (yahoo (cache w))) (log w)).
Definition set_yahoo (s : PairSnapshot) : M unit :=
  fun w => (Ok tt, mkWorld (mkCache (ecb (cache w)) (binance (cache w)) s) (log w)).
Definition get_cache : M Cache := fun w => (Ok (cache w), w).

(** A dict built by assigning the items in order: later keys win. *)
Definition assign_all (items : list (string * Decimal)) (m : gmap string Decimal)
  : gmap string Decimal :=
  fold_left (fun m kv => <[kv.1 := kv.2]> m) items m.

(** *** ECB rates *)

Definition get_ecb_rates (env : Env) : M (gmap string Decimal) :=
  let now := time_ecb env in
  let* C := get_cache in
  match (if fresh now (timestamp (ecb C)) ECB_TTL then truthy_data (ecb C) else None) with
  | Some rates => ret rates
  | None =>
      let* _ := requests_get GetEcb in
      match ecb_reply env with
      | Some cubes =>
          let rates := assign_all cubes {[ "EUR"%string := mkDecimal false 10 (-1) ]} in
          let* _ := set_ecb (mkSnapshot (Some rates) now) in
          ret rates
      | None =>
          match truthy_data (ecb C) with
          | Some rates => ret rates
          | None => raise (HTTPException 503 "ECB service unavailable")
          end
      end
  end.

(** *** Yahoo Forex *)

Definition upper_ascii (c : ascii) : ascii :=
  let n := N_of_ascii c in
  if ((97 <=? n) && (n <=? 122))%N then ascii_of_N (n - 32) else c.

Fixpoint upper (s : string) : string :=
  match s with
  | EmptyString => EmptyString
  | String c s => String (upper_ascii c) (upper s)
  end.

Definition get_yahoo_rate (env : Env) (base quote : string) : M (option Decimal) :=
  let base := upper base in
  let quote := upper quote in
  let pair := base +:+ quote +:+ "=X" in
  let now := time_yahoo env in
  let* C := get_cache in
  match (if fresh now (pair_timestamp (yahoo C)) YAHOO_TTL
         then pair_data (yahoo C) !! pair else None) with
  | Some value => ret (Some value)
  | None =>
      let* _ := requests_get (GetYahoo pair) in
      match yahoo_reply env pair with
      | Some value =>
          let* _ := set_yahoo (mkPairSnapshot (<[pair := value]> (pair_data (yahoo C))) now) in
          ret (Some value)
      | None => ret None
      end
  end.

(** *** Binance Crypto *)

Definition get_binance_prices (env : Env) : M (gmap string Decimal) :=
  let now := time_binance env in
  let* C := get_cache in
  match (if fresh now (timestamp (binance C)) BINANCE_TTL
         then truthy_data (binance C) else None) with
  | Some prices => ret prices
  | None =>
      let* _ := requests_get GetBinance in
      match binance_reply_of env with
      | BinanceResponse status_code json =>
          if negb (status_code =? 200) then ret ∅
          else match json with
               | Some items =>
                   let prices := assign_all items ∅ in
                   let* _ := set_binance (mkSnapshot (Some prices) now) in
                   ret prices
               | None => ret ∅
               end
      | BinanceException => ret ∅
      end
  end.

(** *** Conversion endpoint *)

Record ConversionResult : Type := mkResult {
  r_from : string;
  r_to : string;
  r_amount : string;
  r_rate : string;
  r_converted : string;
  r_via : string
}.

(** [d.get(key)] followed by a truth test: the value when it is present and
    not zero. *)
Definition truth (o : option Decimal) : option Decimal :=
  match o with
  | Some d => if truthy d then Some d else None
  | None => None
  end.

(** [key in d] *)
Definition contains (d : gmap string Decimal) (key : string) : bool :=
  bool_decide (is_Some (d !! key)).

(** [d[key]] *)
Definition getitem (d : gmap string Decimal) (key : string) : res Decimal :=
  match d !! key with
  | Some v => Ok v
  | None => Raise (KeyError key)
  end.

Definition one : Decimal := mkDecimal false 1 0.

(** The returned dict, its three numeric fields formatted in order. *)
Definition response (from_currency to_currency : string)
    (amount rate converted : Decimal) (via : string) : res ConversionResult :=
  rbind (fmt amount) (fun a =>
  rbind (fmt rate) (fun r =>
  rbind (fmt converted) (fun c =>
  Ok (mkResult from_currency to_currency a r c via)))).

(** Lines 136-216 of [convert]: the four quadrants, as a function of the two
    mappings read at lines 133-134. *)
Definition route (env : Env) (ecb_rates binance_prices : gmap string Decimal)
    (from_currency to_currency : string) (amount : Decimal) : M ConversionResult :=
  (* Crypto -> Crypto *)
  if negb (contains ecb_rates from_currency) && negb (contains ecb_rates to_currency) then
    match truth (binance_prices !! (from_currency +:+ to_currency)) with
    | Some direct_price =>
        let* converted := lift (mul amount direct_price) in
        lift (response from_currency to_currency amount direct_price converted "direct")
    | None =>
        match truth (binance_prices !! (from_currency +:+ "USDT")),
              truth (binance_prices !! (to_currency +:+ "USDT")) with
        | Some from_usd, Some to_usd =>
            let* usd_value := lift (mul amount from_usd) in
            let* converted := lift (div usd_value to_usd) in
            let* rate := lift (div from_usd to_usd) in
            lift (response from_currency to_currency amount rate converted "USDT")
        | _, _ =>
            raise (HTTPException 400
                     ("Unsupported crypto pair: " +:+ from_currency +:+ "/" +:+ to_currency))
        end
    end
  (* Crypto -> Fiat *)
  else if negb (contains ecb_rates from_currency) && contains ecb_rates to_currency then
    match truth (binance_prices !! (from_currency +:+ "USDT")) with
    | None =>
        raise (HTTPException 400 ("Unsupported crypto: " +:+ from_currency))
    | Some crypto_price_usd =>
        let* usd_amount := lift (mul amount crypto_price_usd) in
        if String.eqb to_currency "USD" then
          lift (response from_currency to_currency amount crypto_price_usd usd_amount "binance")
        else
          let* yahoo_rate := get_yahoo_rate env "USD" to_currency in
          match truth yahoo_rate with
          | Some yahoo_rate =>
              let* converted := lift (mul usd_amount yahoo_rate) in
              let* a := lift (fmt amount) in
              let* rate := lift (mul crypto_price_usd yahoo_rate) in
              let* r := lift (fmt rate) in
              let* c := lift (fmt converted) in
              ret (mkResult from_currency to_currency a r c "binance+yahoo")
          | None =>
              let* usd := lift (getitem ecb_rates "USD") in
              let* usd_to_eur := lift (div one usd) in
              let* eur_amount := lift (mul usd_amount usd_to_eur) in
              let* to_rate := lift (getitem ecb_rates to_currency) in
              let* converted := lift (mul eur_amount to_rate) in
              let* rate0 := lift (mul crypto_price_usd usd_to_eur) in
              let* to_rate := lift (getitem ecb_rates to_currency) in
              let* rate := lift (mul rate0 to_rate) in
              lift (response from_currency to_currency amount rate converted "binance+ecb")
          end
    end
  (* Fiat -> Crypto *)
  else if contains ecb_rates from_currency && negb (contains ecb_rates to_currency) then
    match truth (binance_prices !! (to_currency +:+ "USDT")) with
    | None =>
        raise (HTTPException 400 ("Unsupported target crypto: " +:+ to_currency))
    | Some crypto_price_usd =>
        let* yahoo_rate := get_yahoo_rate env from_currency "USD" in
        let* usd_amount :=
          match truth yahoo_rate with
          | Some yahoo_rate => lift (mul amount yahoo_rate)
          | None =>
              let* from_rate := lift (getitem ecb_rates from_currency) in
              let* eur := lift (div amount from_rate) in
              let* usd := lift (getitem ecb_rates "USD") in
              lift (mul eur usd)
          end in
        let* converted := lift (div usd_amount crypto_price_usd) in
        let* denominator := lift (mul amount crypto_price_usd) in
        let* rate := lift (div usd_amount denominator) in
        lift (response from_currency to_currency amount rate converted
                (match truth yahoo_rate with
                 | Some _ => "yahoo+binance"
                 | None => "ecb+binance"
                 end))
    end
  (* Fiat -> Fiat *)
  else if contains ecb_rates from_currency && contains ecb_rates to_currency then
    let* yahoo_rate := get_yahoo_rate env from_currency to_currency in
    match truth yahoo_rate with
    | Some yahoo_rate =>
        let* converted := lift (mul amount yahoo_rate) in
        lift (response from_currency to_currency amount yahoo_rate converted "yahoo")
    | None =>
        let* from_rate := lift (getitem ecb_rates from_currency) in
        let* eur_amount := lift (div amount from_rate) in
        let* to_rate := lift (getitem ecb_rates to_currency) in
        let* converted := lift (mul eur_amount to_rate) in
        let* to_rate := lift (getitem ecb_rates to_currency) in
        let* from_rate := lift (getitem ecb_rates from_currency) in
        let* rate := lift (div to_rate from_rate) in
        lift (response from_currency to_currency amount rate converted "ecb")
    end
  else
    raise (HTTPException 400
             ("Unsupported conversion: " +:+ from_currency +:+ " -> " +:+ to_currency)).

Definition convert (env : Env) (from_currency to_currency : string)
    (amount : Decimal) : M ConversionResult :=
  let from_currency := upper from_currency in
  let to_currency := upper to_currency in
  let* ecb_rates := get_ecb_rates env in
  let* binance_prices := get_binance_prices env in
  route env ecb_rates binance_prices from_currency to_currency amount.

(** * Vocabulary of the properties *)

(** ** The outcomes the specification names, written as it words them *)

Module Spec.

(** "rate = price, via = direct": the converted amount is [amount * price]. *)
Definition single_rate (via : string) (from_currency to_currency : string)
    (amount price : Decimal) : res ConversionResult :=
  rbind (mul amount price) (fun converted =>
  response from_currency to_currency amount price converted via).

(** "usd_value = amount * from_usdt_price; converted = usd_value /
    to_usdt_price; rate = (from/USDT price) / (to/USDT price), via = USDT". *)
Definition usdt_bridge (from_currency to_currency : string)
    (amount from_usd to_usd : Decimal) : res ConversionResult :=
  rbind (mul amount from_usd) (fun usd_value =>
  rbind (div usd_value to_usd) (fun converted =>
  rbind (div from_usd to_usd) (fun rate =>
  response from_currency to_currency amount rate converted "USDT"))).

(** "eur_amount = amount / basket[from]; converted = eur_amount * basket[to];
    rate = basket[to] / basket[from], via = ecb". *)
Definition basket_cross (from_currency to_currency : string)
    (amount basket_from basket_to : Decimal) : res ConversionResult :=
  rbind (div amount basket_from) (fun eur_amount =>
  rbind (mul eur_amount basket_to) (fun converted =>
  rbind (div basket_to basket_from) (fun rate =>
  response from_currency to_currency amount rate converted "ecb"))).

Definition unsupported_pair (from_currency to_currency : string) : exn :=
  HTTPException 400 ("Unsupported crypto pair: " +:+ from_currency +:+ "/" +:+ to_currency).

Definition unsupported_crypto (from_currency : string) : exn :=
  HTTPException 400 ("Unsupported crypto: " +:+ from_currency).

Definition unsupported_target_crypto (to_currency : string) : exn :=
  HTTPException 400 ("Unsupported target crypto: " +:+ to_currency).

Definition upstream_unavailable : exn :=
  HTTPException 503 "ECB service unavailable".

End Spec.

(** ** Providers *)

(** The key under which a pair is cached. *)
Definition pair_key (base quote : string) : string :=
  upper base +:+ upper quote +:+ "=X".

(** What the pair provider answers in world [w]. *)
Definition pair_at (env : Env) (w : World) (base quote : string) : option Decimal :=
  match (get_yahoo_rate env base quote w).1 with
  | Ok y => y
  | Raise _ => None
  end.

(** The rate and the converted amount of each strategy, as section 4.5
    of the specification words them. *)
Section Quoted.
Variables (basket prices : gmap string Decimal).
Variable pair_rate : string -> string -> option Decimal.
Variables (F T : string) (amount : Decimal).

Inductive quoted : string -> Decimal -> Decimal -> Prop :=
| quoted_direct price converted :
    basket !! F = None -> basket !! T = None ->
    truth (prices !! (F +:+ T)) = Some price ->
    mul amount price = Ok converted ->
    quoted "direct" price converted
| quoted_usdt from_usd to_usd usd_value converted rate :
    basket !! F = None -> basket !! T = None ->
    truth (prices !! (F +:+ T)) = None ->
    truth (prices !! (F +:+ "USDT")) = Some from_usd ->
    truth (prices !! (T +:+ "USDT")) = Some to_usd ->
    mul amount from_usd = Ok usd_value ->
    div usd_value to_usd = Ok converted ->
    div from_usd to_usd = Ok rate ->
    quoted "USDT" rate converted
| quoted_binance price converted :
    basket !! F = None -> is_Some (basket !! T) -> T = "USD"%string ->
    truth (prices !! (F +:+ "USDT")) = Some price ->
    mul amount price = Ok converted ->
    quoted "binance" price converted
| quoted_binance_yahoo price yahoo_rate usd_amount converted rate :
    basket !! F = None -> is_Some (basket !! T) -> T <> "USD"%string ->
    truth (prices !! (F +:+ "USDT")) = Some price ->
    truth (pair_rate "USD" T) = Some yahoo_rate ->
    mul amount price = Ok usd_amount ->
    mul usd_amount yahoo_rate = Ok converted ->
    mul price yahoo_rate = Ok rate ->
    quoted "binance+yahoo" rate converted
| quoted_binance_ecb price usd to_rate usd_to_eur usd_amount eur_amount converted rate0 rate :
    basket !! F = None -> T <> "USD"%string ->
    truth (prices !! (F +:+ "USDT")) = Some price ->
    truth (pair_rate "USD" T) = None ->
    basket !! "USD"%string = Some usd -> basket !! T = Some to_rate ->
    mul amount price = Ok usd_amount ->
    div one usd = Ok usd_to_eur ->
    mul usd_amount usd_to_eur = Ok eur_amount ->
    mul eur_amount to_rate = Ok converted ->
    mul price usd_to_eur = Ok rate0 ->
    mul rate0 to_rate = Ok rate ->
    quoted "binance+ecb" rate converted
| quoted_yahoo_binance price yahoo_rate usd_amount converted denominator rate :
    is_Some (basket !! F) -> basket !! T = None ->
    truth (prices !! (T +:+ "USDT")) = Some price ->
    truth (pair_rate F "USD") = Some yahoo_rate ->
    mul amount yahoo_rate = Ok usd_amount ->
    div usd_amount price = Ok converted ->
    mul amount price = Ok denominator ->
    div usd_amount denominator = Ok rate ->
    quoted "yahoo+binance" rate converted
| quoted_ecb_binance price from_rate usd eur usd_amount converted denominator rate :
    basket !! F = Some from_rate -> basket !! T = None ->
    truth (prices !! (T +:+ "USDT")) = Some price ->
    truth (pair_rate F "USD") = None ->
    basket !! "USD"%string = Some usd ->
    div amount from_rate = Ok eur ->
    mul eur usd = Ok usd_amount ->
    div usd_amount price = Ok converted ->
    mul amount price = Ok denominator ->
    div usd_amount denominator = Ok rate ->
    quoted "ecb+binance" rate converted
| quoted_yahoo yahoo_rate converted :
    is_Some (basket !! F) -> is_Some (basket !! T) ->
    truth (pair_rate F T) = Some yahoo_rate ->
    mul amount yahoo_rate = Ok converted ->
    quoted "yahoo" yahoo_rate converted
| quoted_ecb from_rate to_rate eur_amount converted rate :
    basket !! F = Some from_rate -> basket !! T = Some to_rate ->
    truth (pair_rate F T) = None ->
    div amount from_rate = Ok eur_amount ->
    mul eur_amount to_rate = Ok converted ->
    div to_rate from_rate = Ok rate ->
    quoted "ecb" rate converted.

End Quoted.

(** The worlds a server can be in: the start, and whatever a request leaves
    behind. *)
Inductive reachable : World -> Prop :=
| reachable_start : reachable (mkWorld CACHE [])
| reachable_convert w env f t amount :
    reachable w -> reachable (convert env f t amount w).2.

(** A computation that leaves the basket entry of the cache alone. *)
Definition keeps_ecb {A} (m : M A) : Prop :=
  forall w, ecb (cache (m w).2) = ecb (cache w).

(** A cached basket always lists EUR; in particular it is never empty. *)
Definition basket_lists_eur (w : World) : Prop :=
  forall m, data (ecb (cache w)) = Some m -> is_Some (m !! "EUR"%string).

(** ** Numbers *)

(** The real value of a decimal: [(-1)^sign * int * 10^exp]. *)
Definition p10 (k : Z) : R := powerRZ 10 k.

Definition sgn (s : bool) : R := if s then (-1)%R else 1%R.

Definition val (d : Decimal) : R :=
  (sgn (dsign d) * IZR (Z.of_N (dint d)) * p10 (dexp d))%R.

(** The signed coefficient: a quantized decimal counted in units of its
    last place. *)
Definition units (d : Decimal) : Z :=
  if dsign d then - Z.of_N (dint d) else Z.of_N (dint d).

(** ** Binary floats

    The query parameter [amount: float] of [convert]: the text of the
    parameter reaches the endpoint as the binary64 number nearest to it. *)







Local Open Scope R_scope.

(** Relative error: [x] approximates [y] within [eps]. *)
Definition rel (eps x y : R) : Prop := Rabs (x - y) <= eps * Rabs y.

(** The relative error of one rounding by [_fix], of the truncated quotient
    of [__truediv__], and of a whole division. *)
Definition u_fix : R := 5 / 10 ^ 28.
Definition u_quot : R := 1 / 10 ^ 28.
Definition u_div : R := 7 / 10 ^ 28.

(** One rounding moves a value by a factor between [1/rho] and [rho]. *)
Definition rho : R := 1 / (1 - u_div).

(** [x] is [y] up to [k] roundings. *)
Definition band (k : nat) (x y : R) : Prop :=
  exists t, x = y * t /\ / rho ^ k <= t <= rho ^ k.

(** [x] is zero or lies between [10^-n] and [10^n]. *)
Definition mag (n : Z) (x : R) : Prop :=
  x = 0 \/ p10 (- n) <= Rabs x <= p10 n.

(** A decimal whose leading digit is not astronomically far from the
    units. *)
Definition moderate (d : Decimal) : Prop :=
  dint d = 0%N \/ (-100000 <= adjusted d < 100000)%Z.

Local Close Scope R_scope.

(** The magnitude bound of [moderate], as a level of [mag]. *)
Definition level : Z := 100000.

(** [moderate] as a test. *)
Definition moderateb (d : Decimal) : bool :=
  (dint d =? 0)%N || ((-100000 <=? adjusted d) && (adjusted d <? 100000)).

(** A provider mapping all of whose values are moderate. *)
Definition moderate_map (m : gmap string Decimal) : Prop :=
  forall k v, m !! k = Some v -> moderate v.

(** ** Reading a formatted field back *)

Definition digit_of (c : ascii) : option N :=
  let n := N_of_ascii c in
  if ((48 <=? n) && (n <=? 57))%N then Some (n - 48)%N else None.

(** The number spelled by the digits of a string, other characters
    skipped. *)
Fixpoint read_digits (acc : N) (s : string) : N :=
  match s with
  | EmptyString => acc
  | String c s =>
      match digit_of c with
      | Some d => read_digits (10 * acc + d) s
      | None => read_digits acc s
      end
  end.

Definition is_negative (s : string) : bool :=
  match s with
  | String "-" _ => true
  | _ => false
  end.

(** The decimal a client reads off a field printed with 8 decimals. *)
Definition read8 (s : string) : Decimal :=
  mkDecimal (is_negative s) (read_digits 0 s) (-8).

(** *** Sample data for the closed instances below *)

Module Sample.

Definition dec (c : N) (e : Z) : Decimal := mkDecimal false c e.

(** A world with nothing cached and no request made. *)
Definition w0 : World := mkWorld CACHE [].

(** ECB lists USD and JPY; Yahoo is down; Binance lists some coins against
    USDT, two of them at price zero, and the pair AAABBB at price zero. *)
Definition cubes : list (string * Decimal) :=
  [("USD"%string, dec 108 (-2)); ("JPY"%string, dec 16300 (-2))].

Definition ticker : list (string * Decimal) :=
  [("BTCUSDT"%string, dec 6000000000000 (-8));
   ("ETHUSDT"%string, dec 300000000000 (-8));
   ("AAABBB"%string, dec 0 (-8));
   ("AAAUSDT"%string, dec 200000000 (-8));
   ("BBBUSDT"%string, dec 400000000 (-8));
   ("ZZZUSDT"%string, dec 0 (-8));
   ("FOOUSDT"%string, dec 80000005 (-8));
   ("BARUSDT"%string, dec 60000000000 (-8));
   ("XAAUSDT"%string, dec 259588208 (-8));
   ("XBBUSDT"%string, dec 250474253 (-8))].

Definition env : Env :=
  mkEnv 1000 1000 1000 (Some cubes) (fun _ => None) (BinanceResponse 200 (Some ticker)).

(** The same, with Yahoo answering zero for every pair. *)
Definition env_yahoo_zero : Env :=
  mkEnv 1000 1000 1000 (Some cubes) (fun _ => Some (dec 0 0))
        (BinanceResponse 200 (Some ticker)).

Definition basket : gmap string Decimal :=
  assign_all cubes {[ "EUR"%string := mkDecimal false 10 (-1) ]}.
Definition prices : gmap string Decimal := assign_all ticker ∅.

Definition w1 : World := (get_ecb_rates env w0).2.
Definition w2 : World := (get_binance_prices env w1).2.

End Sample.

Module SampleDown.

(** Much later, with the ECB document unavailable. *)
Definition env : Env :=
  mkEnv 999999 999999 999999 None (fun _ => None)
        (BinanceResponse 200 (Some Sample.ticker)).

(** The world after one successful conversion. *)
Definition w : World :=
  (convert Sample.env "btc" "eth" (Sample.dec 10 (-1)) Sample.w0).2.

End SampleDown.

Module SamplePairs.

Definition at_time (t : Q) : Env :=
  mkEnv t t t (Some Sample.cubes) (fun _ => Some (Sample.dec 9 (-1)))
        (BinanceResponse 200 (Some Sample.ticker)).

(** USD/EUR is fetched at time 1000, USD/JPY at time 5000. *)
Definition w1 : World := (get_yahoo_rate (at_time 1000) "usd" "eur" Sample.w0).2.
Definition w2 : World := (get_yahoo_rate (at_time 5000) "usd" "jpy" w1).2.

End SamplePairs.

Module SampleEmpty.

(** Binance answers 200 with an empty ticker list. *)
Definition at_time (t : Q) : Env :=
  mkEnv t t t (Some Sample.cubes) (fun _ => None) (BinanceResponse 200 (Some [])).

Definition w1 : World := (get_binance_prices (at_time 1000) Sample.w0).2.

End SampleEmpty.

(** ** Outcomes of a computation *)

(** The signals of the decimal module that the context traps. *)
Definition arithmetic (e : exn) : Prop :=
  e = InvalidOperation \/ e = DivisionByZero \/ e = Overflow.

(** The exceptions the router raises. *)
Definition anticipated (F T : string) (e : exn) : Prop :=
  e = Spec.unsupported_pair F T \/ e = Spec.unsupported_crypto F
  \/ e = Spec.unsupported_target_crypto T
  \/ e = KeyError "USD" \/ arithmetic e.

(** What a computation started in any world returns and raises. *)
Definition outcome {A} (m : M A) (Q : A -> Prop) (E : exn -> Prop) : Prop :=
  forall w, match (m w).1 with
            | Ok a => Q a
            | Raise e => E e
            end.

(** The tags a result can carry in its [via] field. *)
Definition strategies : list string :=
  ["direct"; "USDT"; "binance"; "binance+yahoo"; "binance+ecb";
   "yahoo+binance"; "ecb+binance"; "yahoo"; "ecb"]%string.

(** ** Worlds *)

(** A computation that leaves the world as it found it. *)
Definition silent {A} (m : M A) : Prop := forall w, (m w).2 = w.

(** A computation that changes the world at most by one call of the pair
    provider. *)
Definition asks (env : Env) {A} (m : M A) : Prop :=
  forall w, (m w).2 = w \/ exists base quote, (m w).2 = (get_yahoo_rate env base quote w).2.

(** The Binance request fails: [requests.get] raises, the status is not 200,
    or the body cannot be read. *)
Definition binance_down (env : Env) : Prop :=
  match binance_reply_of env with
  | BinanceException => True
  | BinanceResponse status_code json => status_code <> 200 \/ json = None
  end.

(** What is cached in [w] is still cached in [w']: every pair key, and the
    data of each bulk source; and the requests made up to [w] are the oldest
    requests of [w']. *)
Definition grows (w w' : World) : Prop :=
  (forall pair, is_Some (pair_data (yahoo (cache w)) !! pair) ->
                is_Some (pair_data (yahoo (cache w')) !! pair))
  /\ (is_Some (data (ecb (cache w))) -> is_Some (data (ecb (cache w'))))
  /\ (is_Some (data (binance (cache w))) -> is_Some (data (binance (cache w'))))
  /\ log w `suffix_of` log w'.

(** One request served. *)
Definition served (w w' : World) : Prop :=
  exists env f t amount, w' = (convert env f t amount w).2.

(** ** Signs *)

(** The decimal of the other sign: for an amount [x], [Decimal(str(-x))]. *)
Definition opp (d : Decimal) : Decimal :=
  mkDecimal (negb (dsign d)) (dint d) (dexp d).

Definition rmap {A B} (f : A -> B) (r : res A) : res B :=
  match r with
  | Ok a => Ok (f a)
  | Raise e => Raise e
  end.

(** Two results that differ in the sign of the amount and of the converted
    amount, and in nothing else. *)
Definition mirrored (r r' : ConversionResult) : Prop :=
  r_from r' = r_from r /\ r_to r' = r_to r /\ r_rate r' = r_rate r /\ r_via r' = r_via r
  /\ read8 (r_amount r') = opp (read8 (r_amount r))
  /\ read8 (r_converted r') = opp (read8 (r_converted r)).

(** Two computations that leave the same world, and raise the same exception
    or return related values. *)
Definition related {A} (R : A -> A -> Prop) (m m' : M A) : Prop :=
  forall w, (m' w).2 = (m w).2
            /\ match (m w).1, (m' w).1 with
               | Ok a, Ok a' => R a a'
               | Raise e, Raise e' => e' = e
               | _, _ => False
               end.

(** ** Exact arithmetic *)

(** The rate and the converted amount of each strategy when the operations
    of the router are carried out on real numbers, without rounding. *)
Section Ideal.
Variables (basket prices : gmap string Decimal).
Variable pair_rate : string -> string -> option Decimal.
Variables (F T : string) (amount : R).

Local Open Scope R_scope.

Inductive ideal : string -> R -> R -> Prop :=
| ideal_direct price :
    truth (prices !! (F +:+ T)) = Some price ->
    ideal "direct" (val price) (amount * val price)
| ideal_usdt from_usd to_usd :
    truth (prices !! (F +:+ "USDT")) = Some from_usd ->
    truth (prices !! (T +:+ "USDT")) = Some to_usd ->
    ideal "USDT" (val from_usd / val to_usd) (amount * val from_usd / val to_usd)
| ideal_binance price :
    truth (prices !! (F +:+ "USDT")) = Some price ->
    ideal "binance" (val price) (amount * val price)
| ideal_binance_yahoo price yahoo_rate :
    truth (prices !! (F +:+ "USDT")) = Some price ->
    truth (pair_rate "USD" T) = Some yahoo_rate ->
    ideal "binance+yahoo" (val price * val yahoo_rate) (amount * val price * val yahoo_rate)
| ideal_binance_ecb price usd to_rate :
    truth (prices !! (F +:+ "USDT")) = Some price ->
    basket !! "USD"%string = Some usd -> basket !! T = Some to_rate ->
    ideal "binance+ecb" (val price * (1 / val usd) * val to_rate)
                        (amount * val price * (1 / val usd) * val to_rate)
| ideal_yahoo_binance price yahoo_rate :
    truth (prices !! (T +:+ "USDT")) = Some price ->
    truth (pair_rate F "USD") = Some yahoo_rate ->
    ideal "yahoo+binance" (amount * val yahoo_rate / (amount * val price))
                          (amount * val yahoo_rate / val price)
| ideal_ecb_binance price from_rate usd :
    truth (prices !! (T +:+ "USDT")) = Some price ->
    basket !! F = Some from_rate -> basket !! "USD"%string = Some usd ->
    ideal "ecb+binance" (amount / val from_rate * val usd / (amount * val price))
                        (amount / val from_rate * val usd / val price)
| ideal_yahoo yahoo_rate :
    truth (pair_rate F T) = Some yahoo_rate ->
    ideal "yahoo" (val yahoo_rate) (amount * val yahoo_rate)
| ideal_ecb from_rate to_rate :
    basket !! F = Some from_rate -> basket !! T = Some to_rate ->
    ideal "ecb" (val to_rate / val from_rate) (amount / val from_rate * val to_rate).

End Ideal.

(** *** More sample data *)

Module SampleNoUsd.

(** The ECB document lists JPY only. *)
Definition env : Env :=
  mkEnv 1000 1000 1000 (Some [("JPY"%string, Sample.dec 16300 (-2))]) (fun _ => None)
        (BinanceResponse 200 (Some Sample.ticker)).

End SampleNoUsd.

Module SampleZeroRate.

(** The ECB document lists JPY at rate 0. *)
Definition env : Env :=
  mkEnv 1000 1000 1000 (Some [("JPY"%string, Sample.dec 0 0)]) (fun _ => None)
        (BinanceResponse 200 (Some Sample.ticker)).

End SampleZeroRate.

Module SampleOutage.

(** Fifteen seconds after [Sample.env]: Binance answers 502. *)
Definition env : Env :=
  mkEnv 1015 1015 1015 (Some Sample.cubes) (fun _ => None) (BinanceResponse 502 None).

(** The world after one successful conversion. *)
Definition w : World :=
  (convert Sample.env "btc" "usd" (Sample.dec 10 (-1)) Sample.w0).2.

End SampleOutage.

(** * Properties *)

(** ** Basic facts *)

Lemma contains_None (m : gmap string Decimal) k : m !! k = None -> contains m k = false.
Proof.
  intros H. unfold contains. apply bool_decide_eq_false. rewrite H.
  intros [x Hx]. discriminate.
Qed.

Lemma contains_Some (m : gmap string Decimal) k v : m !! k = Some v -> contains m k = true.
Proof.
  intros H. unfold contains. apply bool_decide_eq_true. rewrite H. eauto.
Qed.

Lemma contains_true (m : gmap string Decimal) k :
  contains m k = true -> exists v, m !! k = Some v.
Proof.
  unfold contains. intros H. apply bool_decide_eq_true in H. destruct H as [v Hv]. eauto.
Qed.

Lemma truth_Some_iff o d : truth o = Some d <-> o = Some d /\ dint d <> 0%N.
Proof.
  unfold truth, truthy. destruct o as [x|]; [|split; [discriminate | intros [? _]; discriminate]].
  destruct (N.eqb_spec (dint x) 0); simpl; split.
  - discriminate.
  - intros [[= ->] Hd]. contradiction.
  - intros [= ->]. auto.
  - intros [[= ->] _]. reflexivity.
Qed.

Lemma truth_nonzero d : dint d <> 0%N -> truth (Some d) = Some d.
Proof. intros H. apply truth_Some_iff. auto. Qed.


(** [convert] is [route] on the two mappings its providers return. *)
Lemma convert_route env f t a w basket w1 prices w2 :
  get_ecb_rates env w = (Ok basket, w1) ->
  get_binance_prices env w1 = (Ok prices, w2) ->
  convert env f t a w = route env basket prices (upper f) (upper t) a w2.
Proof.
  intros He Hb. unfold convert, bind. rewrite He, Hb. reflexivity.
Qed.

(** *** The quadrants of [route] *)

Section Quadrants.
Variables (env : Env) (basket prices : gmap string Decimal).
Variables (F T : string) (amount : Decimal) (w : World).

Lemma crypto_crypto_direct p :
  basket !! F = None -> basket !! T = None ->
  truth (prices !! (F +:+ T)) = Some p ->
  route env basket prices F T amount w = (Spec.single_rate "direct" F T amount p, w).
Proof.
  intros HF HT Hp. unfold route.
  rewrite (contains_None _ _ HF), (contains_None _ _ HT). simpl. rewrite Hp.
  unfold bind, lift, Spec.single_rate. destruct (mul amount p); reflexivity.
Qed.

Lemma crypto_crypto_bridge from_usd to_usd :
  basket !! F = None -> basket !! T = None ->
  truth (prices !! (F +:+ T)) = None ->
  truth (prices !! (F +:+ "USDT")) = Some from_usd ->
  truth (prices !! (T +:+ "USDT")) = Some to_usd ->
  route env basket prices F T amount w = (Spec.usdt_bridge F T amount from_usd to_usd, w).
Proof.
  intros HF HT Hd Hf Ht. unfold route.
  rewrite (contains_None _ _ HF), (contains_None _ _ HT). simpl. rewrite Hd, Hf, Ht.
  unfold bind, lift, Spec.usdt_bridge.
  destruct (mul amount from_usd) as [u|]; simpl; [|reflexivity].
  destruct (div u to_usd); simpl; [|reflexivity].
  destruct (div from_usd to_usd); reflexivity.
Qed.

Lemma crypto_crypto_unsupported :
  basket !! F = None -> basket !! T = None ->
  truth (prices !! (F +:+ T)) = None ->
  truth (prices !! (F +:+ "USDT")) = None \/ truth (prices !! (T +:+ "USDT")) = None ->
  route env basket prices F T amount w = (Raise (Spec.unsupported_pair F T), w).
Proof.
  intros HF HT Hd Hu. unfold route.
  rewrite (contains_None _ _ HF), (contains_None _ _ HT). simpl. rewrite Hd.
  destruct Hu as [-> | ->]; [reflexivity|].
  destruct (truth (prices !! (F +:+ "USDT"))); reflexivity.
Qed.

Lemma crypto_fiat_unsupported bt :
  basket !! F = None -> basket !! T = Some bt ->
  truth (prices !! (F +:+ "USDT")) = None ->
  route env basket prices F T amount w = (Raise (Spec.unsupported_crypto F), w).
Proof.
  intros HF HT Hp. unfold route.
  rewrite (contains_None _ _ HF), (contains_Some _ _ _ HT). simpl. rewrite Hp. reflexivity.
Qed.

Lemma crypto_fiat_usd bt p :
  basket !! F = None -> basket !! T = Some bt -> T = "USD"%string ->
  truth (prices !! (F +:+ "USDT")) = Some p ->
  route env basket prices F T amount w = (Spec.single_rate "binance" F T amount p, w).
Proof.
  intros HF HT -> Hp. unfold route.
  rewrite (contains_None _ _ HF), (contains_Some _ _ _ HT). simpl. rewrite Hp.
  unfold bind, lift, Spec.single_rate. destruct (mul amount p); reflexivity.
Qed.

Lemma fiat_crypto_unsupported bf :
  basket !! F = Some bf -> basket !! T = None ->
  truth (prices !! (T +:+ "USDT")) = None ->
  route env basket prices F T amount w = (Raise (Spec.unsupported_target_crypto T), w).
Proof.
  intros HF HT Hp. unfold route.
  rewrite (contains_Some _ _ _ HF), (contains_None _ _ HT). simpl. rewrite Hp. reflexivity.
Qed.

Lemma fiat_fiat_pair bf bt y w' :
  basket !! F = Some bf -> basket !! T = Some bt ->
  get_yahoo_rate env F T w = (Ok y, w') ->
  route env basket prices F T amount w =
    (match truth y with
     | Some yahoo_rate => Spec.single_rate "yahoo" F T amount yahoo_rate
     | None => Spec.basket_cross F T amount bf bt
     end, w').
Proof.
  intros HF HT Hy. unfold route.
  rewrite (contains_Some _ _ _ HF), (contains_Some _ _ _ HT). simpl.
  unfold bind at 1. rewrite Hy. destruct (truth y) as [yr|].
  - unfold bind, lift, Spec.single_rate. destruct (mul amount yr); reflexivity.
  - unfold bind, lift, getitem, Spec.basket_cross. rewrite HF, HT.
    destruct (div amount bf) as [e|]; simpl; [|reflexivity].
    destruct (mul e bt); simpl; [|reflexivity].
    destruct (div bt bf); reflexivity.
Qed.

End Quadrants.

(** ** Zero values are treated as absent *)

Lemma fix_zero s e : exists e', fix_ (mkDecimal s 0 e) = Ok (mkDecimal s 0 e').
Proof. unfold fix_. simpl. eauto. Qed.

Lemma mul_zero_l a b : dint a = 0%N -> exists z, mul a b = Ok z /\ dint z = 0%N.
Proof.
  intros Ha. unfold mul. rewrite Ha, N.mul_0_l.
  destruct (fix_zero (xorb (dsign a) (dsign b)) (dexp a + dexp b)) as [e' He'].
  rewrite He'. eauto.
Qed.

Lemma div_zero_l a b :
  dint a = 0%N -> dint b <> 0%N -> exists z, div a b = Ok z /\ dint z = 0%N.
Proof.
  intros Ha Hb. unfold div. rewrite Ha. apply N.eqb_neq in Hb. rewrite Hb.
  change (0 =? 0)%N with true. cbv iota.
  destruct (fix_zero (xorb (dsign a) (dsign b)) (dexp a - dexp b)) as [e' He'].
  rewrite He'. eauto.
Qed.

Lemma div_zero_zero a b : dint a = 0%N -> dint b = 0%N -> div a b = Raise InvalidOperation.
Proof. intros Ha Hb. unfold div. rewrite Ha, Hb. reflexivity. Qed.



Lemma sample_ecb e : ecb_reply e = Some Sample.cubes -> time_ecb e = 1000%Q ->
  get_ecb_rates e Sample.w0 = (Ok Sample.basket, Sample.w1).
Proof.
  intros H1 H2. unfold get_ecb_rates, bind, get_cache, requests_get, set_ecb, ret.
  rewrite H1, H2. reflexivity.
Qed.

Lemma sample_binance e :
  binance_reply_of e = BinanceResponse 200 (Some Sample.ticker) -> time_binance e = 1000%Q ->
  get_binance_prices e Sample.w1 = (Ok Sample.prices, Sample.w2).
Proof.
  intros H1 H2. unfold get_binance_prices, bind, get_cache, requests_get, set_binance, ret.
  rewrite H1, H2. reflexivity.
Qed.

(** ** The router answers with a quoted strategy *)

Lemma response_fields F T a r c via res :
  response F T a r c via = Ok res ->
  r_from res = F /\ r_to res = T /\ fmt a = Ok (r_amount res) /\ fmt r = Ok (r_rate res)
  /\ fmt c = Ok (r_converted res) /\ r_via res = via.
Proof.
  unfold response. destruct (fmt a); simpl; [|discriminate].
  destruct (fmt r); simpl; [|discriminate].
  destruct (fmt c); simpl; [|discriminate].
  intros [= <-]. simpl. repeat split.
Qed.

Lemma contains_false (m : gmap string Decimal) k : contains m k = false -> m !! k = None.
Proof.
  unfold contains. intros H. apply bool_decide_eq_false in H.
  destruct (m !! k); [exfalso; apply H; eauto | reflexivity].
Qed.

Ltac bind_ok H :=
  unfold bind at 1 in H; unfold lift at 1 in H; cbv beta iota in H.

Tactic Notation "bind_step" hyp(H) "as" ident(x) ident(E) :=
  match type of H with
  | bind (lift ?r) _ _ = (Ok _, _) =>
      unfold bind at 1 in H; unfold lift at 1 in H;
      revert H; destruct r as [x|] eqn:E; intro H; cbv beta iota in H;
      [|discriminate H]
  end.

Tactic Notation "respond" hyp(H) "as" ident(Ha) ident(Hr) ident(Hc) :=
  match type of H with
  | lift (response ?F ?T ?a ?r ?c ?v) _ = (Ok _, _) =>
      let res := fresh "res" in
      let Er := fresh "Er" in
      unfold lift in H;
      destruct (response F T a r c v) as [res|] eqn:Er; [|discriminate H];
      injection H as -> _;
      destruct (response_fields _ _ _ _ _ _ _ Er) as (_ & _ & Ha & Hr & Hc & ->)
  end.

(** Every successful answer of the router is one of the quoted
    strategies, formatted. *)
Lemma route_quoted env basket prices F T amount w r w' :
  route env basket prices F T amount w = (Ok r, w') ->
  exists rate converted,
    quoted basket prices (pair_at env w) F T amount (r_via r) rate converted
    /\ fmt amount = Ok (r_amount r) /\ fmt rate = Ok (r_rate r)
    /\ fmt converted = Ok (r_converted r).
Proof.
  unfold route. intros H.
  destruct (contains basket F) eqn:CF; destruct (contains basket T) eqn:CT; simpl in H.
  - (* Fiat -> Fiat *)
    apply contains_true in CF as HF. apply contains_true in CT as HT.
    destruct HF as [bf HF], HT as [bt HT].
    unfold bind at 1 in H.
    destruct (get_yahoo_rate env F T w) as [[y|e] wy] eqn:Ey; [|discriminate].
    assert (Hp : pair_at env w F T = y) by (unfold pair_at; rewrite Ey; reflexivity).
    destruct (truth y) as [yr|] eqn:Hy.
    + bind_step H as converted E1. respond H as Ha Hr Hc.
      exists yr, converted. repeat split; try assumption.
      apply quoted_yahoo; rewrite ?Hp; eauto.
    + unfold getitem in H. rewrite HF, HT in H. cbv beta iota in H.
      bind_ok H. bind_step H as eur_amount E1. bind_ok H.
      bind_step H as converted E2. bind_ok H. bind_ok H.
      bind_step H as rate E3. respond H as Ha Hr Hc.
      exists rate, converted. repeat split; try assumption.
      eapply quoted_ecb; rewrite ?Hp; eauto.
  - (* Fiat -> Crypto *)
    apply contains_true in CF as HF. apply contains_false in CT as HT.
    destruct HF as [bf HF].
    destruct (truth (prices !! (T +:+ "USDT"))) as [p|] eqn:Hpr; [|discriminate].
    unfold bind at 1 in H.
    destruct (get_yahoo_rate env F "USD" w) as [[y|e] wy] eqn:Ey; [|discriminate].
    assert (Hp : pair_at env w F "USD" = y) by (unfold pair_at; rewrite Ey; reflexivity).
    destruct (truth y) as [yr|] eqn:Hy.
    + bind_step H as usd_amount E1. bind_step H as converted E2.
      bind_step H as denominator E3. bind_step H as rate E4. respond H as Ha Hr Hc.
      exists rate, converted. repeat split; try assumption.
      eapply quoted_yahoo_binance; rewrite ?Hp; eauto.
    + unfold getitem in H. rewrite HF in H. cbv beta iota in H.
      unfold bind at 1 in H. bind_ok H.
      unfold bind at 1 in H. unfold lift at 1 in H.
      revert H. destruct (div amount bf) as [eur|] eqn:E1; intro H; cbv beta iota in H;
        [|discriminate].
      unfold bind at 1 in H. unfold lift at 1 in H.
      revert H. destruct (basket !! "USD"%string) as [usd|] eqn:HU; intro H;
        cbv beta iota in H; [|discriminate].
      unfold lift at 1 in H.
      revert H. destruct (mul eur usd) as [usd_amount|] eqn:E2; intro H;
        cbv beta iota in H; [|discriminate].
      bind_step H as converted E3. bind_step H as denominator E4.
      bind_step H as rate E5. respond H as Ha Hr Hc.
      exists rate, converted. repeat split; try assumption.
      eapply quoted_ecb_binance; rewrite ?Hp; eauto.
  - (* Crypto -> Fiat *)
    apply contains_false in CF as HF. apply contains_true in CT as HT.
    destruct HT as [bt HT].
    destruct (truth (prices !! (F +:+ "USDT"))) as [p|] eqn:Hpr; [|discriminate].
    bind_step H as usd_amount E1.
    destruct (String.eqb_spec T "USD") as [EU|NU].
    + respond H as Ha Hr Hc.
      exists p, usd_amount. repeat split; try assumption.
      apply quoted_binance; eauto.
    + unfold bind at 1 in H.
      destruct (get_yahoo_rate env "USD" T w) as [[y|e] wy] eqn:Ey; [|discriminate].
      assert (Hp : pair_at env w "USD" T = y) by (unfold pair_at; rewrite Ey; reflexivity).
      destruct (truth y) as [yr|] eqn:Hy.
      * bind_step H as converted E2. bind_step H as a E3. bind_step H as rate E4.
        bind_step H as rs E5. bind_step H as cs E6.
        unfold ret in H. injection H as <- _. simpl.
        exists rate, converted. repeat split; try assumption.
        eapply quoted_binance_yahoo; rewrite ?Hp; eauto.
      * unfold getitem in H. rewrite HT in H.
        revert H. destruct (basket !! "USD"%string) as [usd|] eqn:HU; intro H;
          cbv beta iota in H; [|discriminate].
        bind_ok H. bind_step H as usd_to_eur E2. bind_step H as eur_amount E3.
        bind_ok H. bind_step H as converted E4. bind_step H as rate0 E5.
        bind_ok H. bind_step H as rate E6. respond H as Ha Hr Hc.
        exists rate, converted. repeat split; try assumption.
        eapply quoted_binance_ecb; rewrite ?Hp; eauto.
  - (* Crypto -> Crypto *)
    apply contains_false in CF as HF. apply contains_false in CT as HT.
    destruct (truth (prices !! (F +:+ T))) as [p|] eqn:Hd.
    + bind_step H as converted E1. respond H as Ha Hr Hc.
      exists p, converted. repeat split; try assumption.
      apply quoted_direct; eauto.
    + destruct (truth (prices !! (F +:+ "USDT"))) as [fu|] eqn:Hfu; [|discriminate].
      destruct (truth (prices !! (T +:+ "USDT"))) as [tu|] eqn:Htu; [|discriminate].
      bind_step H as usd_value E1. bind_step H as converted E2.
      bind_step H as rate E3. respond H as Ha Hr Hc.
      exists rate, converted. repeat split; try assumption.
      eapply quoted_usdt; eauto.
Qed.



(** ** Crypto -> Crypto *)

(** C2 (amended: "present" is "present with a non-zero price").  When neither
    code is a key of the basket: a non-zero price under from+to gives
    rate = that price, converted = amount * price, via = direct; otherwise,
    unless both from+USDT and to+USDT have non-zero prices, the request fails
    with the 400 unsupported-pair error; otherwise rate = from_usd / to_usd,
    converted = (amount * from_usd) / to_usd, via = USDT. *)
Theorem crypto_to_crypto env f t amount w basket w1 prices w2 :
  get_ecb_rates env w = (Ok basket, w1) ->
  get_binance_prices env w1 = (Ok prices, w2) ->
  basket !! upper f = None -> basket !! upper t = None ->
  convert env f t amount w =
    (match truth (prices !! (upper f +:+ upper t)) with
     | Some direct_price => Spec.single_rate "direct" (upper f) (upper t) amount direct_price
     | None =>
         match truth (prices !! (upper f +:+ "USDT")),
               truth (prices !! (upper t +:+ "USDT")) with
         | Some from_usd, Some to_usd =>
             Spec.usdt_bridge (upper f) (upper t) amount from_usd to_usd
         | _, _ => Raise (Spec.unsupported_pair (upper f) (upper t))
         end
     end, w2).
Proof.
  intros He Hb HF HT. rewrite (convert_route _ _ _ _ _ _ _ _ _ He Hb).
  destruct (truth (prices !! (upper f +:+ upper t))) as [p|] eqn:Hd.
  - apply crypto_crypto_direct; assumption.
  - destruct (truth (prices !! (upper f +:+ "USDT"))) as [fu|] eqn:Hfu.
    + destruct (truth (prices !! (upper t +:+ "USDT"))) as [tu|] eqn:Htu.
      * apply crypto_crypto_bridge; assumption.
      * apply crypto_crypto_unsupported; auto.
    + apply crypto_crypto_unsupported; auto.
Qed.

(** Scenario A of the specification. *)
Lemma crypto_to_crypto_witness :
  convert Sample.env "btc" "eth" (Sample.dec 10 (-1)) Sample.w0
  = (Ok (mkResult "BTC" "ETH" "1.00000000" "20.00000000" "20.00000000" "USDT"), Sample.w2).
Proof.
  rewrite (crypto_to_crypto Sample.env "btc" "eth" (Sample.dec 10 (-1))
             Sample.w0 Sample.basket Sample.w1 Sample.prices Sample.w2
             (sample_ecb Sample.env eq_refl eq_refl)
             (sample_binance Sample.env eq_refl eq_refl) eq_refl eq_refl).
  reflexivity.
Defined.

(** The symbol AAABBB is a key of the price mapping, with price 0: the
    request is not answered with via = direct and rate 0, it goes over the
    USDT bridge. *)
Lemma crypto_to_crypto_counterexample :
  get_ecb_rates Sample.env Sample.w0 = (Ok Sample.basket, Sample.w1)
  /\ get_binance_prices Sample.env Sample.w1 = (Ok Sample.prices, Sample.w2)
  /\ Sample.basket !! "AAA"%string = None /\ Sample.basket !! "BBB"%string = None
  /\ Sample.prices !! "AAABBB"%string = Some (Sample.dec 0 (-8))
  /\ convert Sample.env "AAA" "BBB" (Sample.dec 10 (-1)) Sample.w0
     = (Ok (mkResult "AAA" "BBB" "1.00000000" "0.50000000" "0.50000000" "USDT"), Sample.w2).
Proof.
  split; [apply sample_ecb; reflexivity|].
  split; [apply sample_binance; reflexivity|].
  repeat split; vm_compute; reflexivity.
Qed.

(** ** Crypto -> Fiat *)

(** C3 (amended: "present" is "present with a non-zero price").  When the
    from code is not in the basket and the to code is: without a non-zero
    from+USDT price the request fails with the 400 unsupported-crypto error;
    with one and to = USD, rate = that price, converted = amount * price,
    via = binance.  For BTC -> USD, amount 0.5 and BTCUSDT = 60000 (written
    with up to 8 decimals) the result is converted = 30000.00000000,
    via = binance. *)
Theorem crypto_to_fiat env f t amount w basket w1 prices w2 :
  get_ecb_rates env w = (Ok basket, w1) ->
  get_binance_prices env w1 = (Ok prices, w2) ->
  basket !! upper f = None -> is_Some (basket !! upper t) ->
  (truth (prices !! (upper f +:+ "USDT")) = None ->
   convert env f t amount w = (Raise (Spec.unsupported_crypto (upper f)), w2))
  /\ (forall p, truth (prices !! (upper f +:+ "USDT")) = Some p -> upper t = "USD"%string ->
      convert env f t amount w = (Spec.single_rate "binance" (upper f) "USD" amount p, w2))
  /\ (forall k : nat, (k <= 8)%nat ->
      upper f = "BTC"%string -> upper t = "USD"%string ->
      amount = mkDecimal false 5 (-1) ->
      prices !! "BTCUSDT"%string = Some (mkDecimal false (60000 * 10 ^ N.of_nat k) (- Z.of_nat k)) ->
      convert env f t amount w
      = (Ok (mkResult "BTC" "USD" "0.50000000" "60000.00000000" "30000.00000000" "binance"),
         w2)).
Proof.
  intros He Hb HF [bt HT]. rewrite (convert_route _ _ _ _ _ _ _ _ _ He Hb).
  split; [|split].
  - intros Hp. eapply crypto_fiat_unsupported; eauto.
  - intros p Hp HU.
    rewrite (crypto_fiat_usd env basket prices _ _ amount w2 bt p HF HT HU Hp).
    rewrite HU. reflexivity.
  - intros k Hk EF ET -> Hp.
    assert (Ht : truth (prices !! (upper f +:+ "USDT"))
                 = Some (mkDecimal false (60000 * 10 ^ N.of_nat k) (- Z.of_nat k))).
    { rewrite EF. change ("BTC" +:+ "USDT")%string with "BTCUSDT"%string. rewrite Hp.
      apply truth_nonzero. simpl. lia. }
    rewrite (crypto_fiat_usd env basket prices _ _ _ w2 bt _ HF HT ET Ht).
    rewrite EF, ET.
    do 9 (destruct k as [|k]; [vm_compute; reflexivity|]). lia.
Qed.

(** Scenario C of the specification. *)
Lemma crypto_to_fiat_witness :
  convert Sample.env "btc" "usd" (mkDecimal false 5 (-1)) Sample.w0
  = (Ok (mkResult "BTC" "USD" "0.50000000" "60000.00000000" "30000.00000000" "binance"),
     Sample.w2).
Proof.
  destruct (crypto_to_fiat Sample.env "btc" "usd" (mkDecimal false 5 (-1))
              Sample.w0 Sample.basket Sample.w1 Sample.prices Sample.w2
              (sample_ecb Sample.env eq_refl eq_refl)
              (sample_binance Sample.env eq_refl eq_refl) eq_refl
              (ex_intro _ (Sample.dec 108 (-2)) eq_refl)) as (_ & H & _).
  rewrite (H (Sample.dec 6000000000000 (-8)) eq_refl eq_refl). reflexivity.
Defined.

(** ZZZUSDT is a key of the price mapping, with price 0, and to = USD: the
    request is not answered with via = binance, it fails with 400. *)
Lemma crypto_to_fiat_counterexample :
  get_ecb_rates Sample.env Sample.w0 = (Ok Sample.basket, Sample.w1)
  /\ get_binance_prices Sample.env Sample.w1 = (Ok Sample.prices, Sample.w2)
  /\ Sample.basket !! "ZZZ"%string = None /\ is_Some (Sample.basket !! "USD"%string)
  /\ Sample.prices !! "ZZZUSDT"%string = Some (Sample.dec 0 (-8))
  /\ convert Sample.env "ZZZ" "USD" (Sample.dec 10 (-1)) Sample.w0
     = (Raise (HTTPException 400 "Unsupported crypto: ZZZ"), Sample.w2).
Proof.
  split; [apply sample_ecb; reflexivity|].
  split; [apply sample_binance; reflexivity|].
  split; [reflexivity|]. split; [eexists; reflexivity|].
  split; vm_compute; reflexivity.
Qed.

(** ** Fiat -> Fiat *)

(** The pair provider never raises: it returns a rate or [None]. *)
Lemma get_yahoo_rate_returns env base quote w :
  exists y w', get_yahoo_rate env base quote w = (Ok y, w').
Proof.
  unfold get_yahoo_rate, bind, get_cache, requests_get, set_yahoo, ret.
  destruct (if fresh _ _ _ then _ else None); [eauto|].
  destruct (yahoo_reply env _); eauto.
Qed.

(** When the upstream request fails, the provider returns [None] and leaves
    the cache as it was, unless it could answer from the cache without any
    request. *)
Lemma get_yahoo_rate_failure env base quote w :
  yahoo_reply env (upper base +:+ upper quote +:+ "=X") = None ->
  get_yahoo_rate env base quote w
    = (Ok None, mkWorld (cache w) (GetYahoo (upper base +:+ upper quote +:+ "=X") :: log w))
  \/ exists v, get_yahoo_rate env base quote w = (Ok (Some v), w).
Proof.
  intros Hr. unfold get_yahoo_rate, bind, get_cache, requests_get, set_yahoo, ret.
  destruct (if fresh _ _ _ then _ else None); [right; eauto|].
  rewrite Hr. left. reflexivity.
Qed.

(** C5 (amended: "yields a rate" is "yields a non-zero rate").  When both
    codes are in the basket: the pair provider never raises, and a failing
    fetch yields absent; when it yields absent or zero the result comes from
    the basket, rate = basket[to] / basket[from],
    converted = (amount / basket[from]) * basket[to], via = ecb; when it
    yields a non-zero rate, rate = that rate, converted = amount * rate,
    via = yahoo. *)
Theorem fiat_to_fiat env f t amount w basket w1 prices w2 bf bt y w3 :
  get_ecb_rates env w = (Ok basket, w1) ->
  get_binance_prices env w1 = (Ok prices, w2) ->
  basket !! upper f = Some bf -> basket !! upper t = Some bt ->
  get_yahoo_rate env (upper f) (upper t) w2 = (Ok y, w3) ->
  convert env f t amount w =
    (match truth y with
     | Some yahoo_rate => Spec.single_rate "yahoo" (upper f) (upper t) amount yahoo_rate
     | None => Spec.basket_cross (upper f) (upper t) amount bf bt
     end, w3)
  /\ (forall e base quote w0, exists y' w', get_yahoo_rate e base quote w0 = (Ok y', w'))
  /\ (forall e base quote w0,
      yahoo_reply e (upper base +:+ upper quote +:+ "=X") = None ->
      get_yahoo_rate e base quote w0
        = (Ok None,
           mkWorld (cache w0) (GetYahoo (upper base +:+ upper quote +:+ "=X") :: log w0))
      \/ exists v, get_yahoo_rate e base quote w0 = (Ok (Some v), w0)).
Proof.
  intros He Hb HF HT Hy. split; [|split].
  - rewrite (convert_route _ _ _ _ _ _ _ _ _ He Hb).
    apply (fiat_fiat_pair env basket prices _ _ amount w2 bf bt y w3 HF HT Hy).
  - apply get_yahoo_rate_returns.
  - apply get_yahoo_rate_failure.
Qed.

(** Scenario B of the specification. *)
Lemma fiat_to_fiat_witness :
  convert Sample.env "usd" "eur" (Sample.dec 1000 (-1)) Sample.w0
  = (Ok (mkResult "USD" "EUR" "100.00000000" "0.92592593" "92.59259259" "ecb"),
     (get_yahoo_rate Sample.env "USD" "EUR" Sample.w2).2).
Proof.
  destruct (fiat_to_fiat Sample.env "usd" "eur" (Sample.dec 1000 (-1))
              Sample.w0 Sample.basket Sample.w1 Sample.prices Sample.w2
              (Sample.dec 108 (-2)) (mkDecimal false 10 (-1)) None
              (get_yahoo_rate Sample.env "USD" "EUR" Sample.w2).2
              (sample_ecb Sample.env eq_refl eq_refl)
              (sample_binance Sample.env eq_refl eq_refl) eq_refl eq_refl eq_refl)
    as (H & _).
  rewrite H. reflexivity.
Defined.

(** The pair provider yields a rate, namely 0: the result is not
    via = yahoo with rate 0, it is the basket's. *)
Lemma fiat_to_fiat_counterexample :
  get_ecb_rates Sample.env_yahoo_zero Sample.w0 = (Ok Sample.basket, Sample.w1)
  /\ get_binance_prices Sample.env_yahoo_zero Sample.w1 = (Ok Sample.prices, Sample.w2)
  /\ is_Some (Sample.basket !! "USD"%string) /\ is_Some (Sample.basket !! "EUR"%string)
  /\ (get_yahoo_rate Sample.env_yahoo_zero "USD" "EUR" Sample.w2).1
     = Ok (Some (Sample.dec 0 0))
  /\ (convert Sample.env_yahoo_zero "USD" "EUR" (Sample.dec 1000 (-1)) Sample.w0).1
     = Ok (mkResult "USD" "EUR" "100.00000000" "0.92592593" "92.59259259" "ecb").
Proof.
  split; [apply sample_ecb; reflexivity|].
  split; [apply sample_binance; reflexivity|].
  split; [eexists; reflexivity|]. split; [eexists; reflexivity|].
  split; vm_compute; reflexivity.
Qed.

(** ** Fiat -> Crypto with a zero amount *)

(** C9 (amended: the target's USDT price is present and non-zero, and USD is
    in the basket when the pair provider gives no usable rate).  A
    Fiat -> Crypto request whose amount is zero raises the decimal module's
    InvalidOperation (0 / 0), which the endpoint does not handle: it returns
    neither a result nor a 4xx error. *)
Theorem fiat_to_crypto_zero_amount env f t amount w basket w1 prices w2 bf p y w3 :
  get_ecb_rates env w = (Ok basket, w1) ->
  get_binance_prices env w1 = (Ok prices, w2) ->
  basket !! upper f = Some bf -> basket !! upper t = None ->
  truth (prices !! (upper t +:+ "USDT")) = Some p ->
  dint amount = 0%N ->
  get_yahoo_rate env (upper f) "USD" w2 = (Ok y, w3) ->
  is_Some (truth y) \/ is_Some (basket !! "USD"%string) ->
  convert env f t amount w = (Raise InvalidOperation, w3).
Proof.
  intros He Hb HF HT Hp Ha Hy Hu. rewrite (convert_route _ _ _ _ _ _ _ _ _ He Hb).
  apply truth_Some_iff in Hp as Hp'. destruct Hp' as [_ Hp0].
  unfold route. rewrite (contains_Some _ _ _ HF), (contains_None _ _ HT). simpl.
  rewrite Hp. unfold bind at 1. rewrite Hy.
  destruct (mul_zero_l amount p Ha) as (den & Hden & Hden0).
  assert (Hfin : forall usd_amount, dint usd_amount = 0%N ->
            (let* converted := lift (div usd_amount p) in
             let* denominator := lift (mul amount p) in
             let* rate := lift (div usd_amount denominator) in
             lift (response (upper f) (upper t) amount rate converted
                     (match truth y with
                      | Some _ => "yahoo+binance"
                      | None => "ecb+binance"
                      end))) w3 = (Raise InvalidOperation, w3)).
  { intros u Hu0. destruct (div_zero_l u p Hu0 Hp0) as (c & Hc & _).
    unfold bind, lift. rewrite Hc, Hden, (div_zero_zero u den Hu0 Hden0). reflexivity. }
  destruct (truth y) as [yr|] eqn:Hty.
  - destruct (mul_zero_l amount yr Ha) as (u & Hu1 & Hu0).
    unfold bind at 1. unfold lift at 1. rewrite Hu1. apply Hfin, Hu0.
  - destruct Hu as [[? Hc] | [usd Husd]]; [discriminate|].
    unfold bind at 1. unfold bind at 1. unfold lift at 1, getitem. rewrite HF.
    destruct (N.eq_dec (dint bf) 0) as [Hbf|Hbf].
    + unfold lift at 1. rewrite (div_zero_zero amount bf Ha Hbf). reflexivity.
    + destruct (div_zero_l amount bf Ha Hbf) as (eur & Heur & Heur0).
      unfold bind at 1. unfold lift at 1. rewrite Heur.
      unfold bind at 1. unfold lift at 1. rewrite Husd.
      destruct (mul_zero_l eur usd Heur0) as (u & Hu1 & Hu0).
      unfold lift at 1. rewrite Hu1. apply Hfin, Hu0.
Qed.

Lemma fiat_to_crypto_zero_amount_witness :
  convert Sample.env "jpy" "btc" (Sample.dec 0 (-1)) Sample.w0
  = (Raise InvalidOperation, (get_yahoo_rate Sample.env "JPY" "USD" Sample.w2).2).
Proof.
  apply (fiat_to_crypto_zero_amount Sample.env "jpy" "btc" (Sample.dec 0 (-1))
           Sample.w0 Sample.basket Sample.w1 Sample.prices Sample.w2
           (Sample.dec 16300 (-2)) (Sample.dec 6000000000000 (-8)) None
           (get_yahoo_rate Sample.env "JPY" "USD" Sample.w2).2
           (sample_ecb Sample.env eq_refl eq_refl)
           (sample_binance Sample.env eq_refl eq_refl)
           eq_refl eq_refl eq_refl eq_refl eq_refl).
  right. eexists. reflexivity.
Defined.

(** ZZZUSDT is a key of the price mapping, with price 0: the zero-amount
    request is answered with the 400 error of an unsupported target. *)
Lemma fiat_to_crypto_zero_amount_counterexample :
  get_ecb_rates Sample.env Sample.w0 = (Ok Sample.basket, Sample.w1)
  /\ get_binance_prices Sample.env Sample.w1 = (Ok Sample.prices, Sample.w2)
  /\ is_Some (Sample.basket !! "USD"%string) /\ Sample.basket !! "ZZZ"%string = None
  /\ Sample.prices !! "ZZZUSDT"%string = Some (Sample.dec 0 (-8))
  /\ convert Sample.env "USD" "ZZZ" (Sample.dec 0 (-1)) Sample.w0
     = (Raise (HTTPException 400 "Unsupported target crypto: ZZZ"), Sample.w2).
Proof.
  split; [apply sample_ecb; reflexivity|].
  split; [apply sample_binance; reflexivity|].
  split; [eexists; reflexivity|]. split; [reflexivity|].
  split; vm_compute; reflexivity.
Qed.

(** ** The fiat basket provider *)

Lemma keeps_ecb_ret {A} (a : A) : keeps_ecb (ret a).
Proof. intros w. reflexivity. Qed.

Lemma keeps_ecb_raise {A} e : keeps_ecb (@raise A e).
Proof. intros w. reflexivity. Qed.

Lemma keeps_ecb_lift {A} (r : res A) : keeps_ecb (lift r).
Proof. intros w. reflexivity. Qed.

Lemma keeps_ecb_bind {A B} (m : M A) (k : A -> M B) :
  keeps_ecb m -> (forall a, keeps_ecb (k a)) -> keeps_ecb (bind m k).
Proof.
  intros Hm Hk w. unfold bind. specialize (Hm w).
  destruct (m w) as [[a|e] w']; simpl in *; [|assumption].
  rewrite Hk. assumption.
Qed.

Lemma keeps_ecb_yahoo env base quote : keeps_ecb (get_yahoo_rate env base quote).
Proof.
  intros w. unfold get_yahoo_rate, bind, get_cache, requests_get, set_yahoo, ret.
  destruct (if fresh _ _ _ then _ else None); [reflexivity|].
  destruct (yahoo_reply env _); reflexivity.
Qed.

Lemma keeps_ecb_binance env : keeps_ecb (get_binance_prices env).
Proof.
  intros w. unfold get_binance_prices, bind, get_cache, requests_get, set_binance, ret.
  destruct (if fresh _ _ _ then _ else None); [reflexivity|].
  destruct (binance_reply_of env) as [|code [items|]]; try reflexivity;
    destruct (negb (code =? 200)); reflexivity.
Qed.

Ltac keeps_ecb_step :=
  first [ apply keeps_ecb_ret | apply keeps_ecb_raise | apply keeps_ecb_lift
        | apply keeps_ecb_yahoo
        | apply keeps_ecb_bind; [|intro]
        | match goal with
          | |- keeps_ecb (match ?x with _ => _ end) => destruct x
          | |- keeps_ecb (if ?x then _ else _) => destruct x
          end ].

Lemma keeps_ecb_route env basket prices F T amount :
  keeps_ecb (route env basket prices F T amount).
Proof. unfold route. repeat keeps_ecb_step. Qed.

Lemma assign_all_keeps_key items (m : gmap string Decimal) k :
  is_Some (m !! k) -> is_Some (assign_all items m !! k).
Proof.
  unfold assign_all. revert m. induction items as [|[k' v] items IH]; intros m Hm; simpl.
  - assumption.
  - apply IH. destruct (decide (k' = k)) as [->|Hne].
    + rewrite lookup_insert_eq. eauto.
    + rewrite lookup_insert_ne by assumption. assumption.
Qed.

Lemma get_ecb_rates_lists_eur env w :
  basket_lists_eur w -> basket_lists_eur (get_ecb_rates env w).2.
Proof.
  intros Hw. unfold get_ecb_rates, bind, get_cache, requests_get, set_ecb, ret, raise.
  destruct (if fresh _ _ _ then _ else None); [exact Hw|].
  destruct (ecb_reply env) as [cubes|].
  - intros m [= <-]. apply assign_all_keeps_key. rewrite lookup_singleton_eq. eauto.
  - destruct (truthy_data _); exact Hw.
Qed.

Lemma reachable_lists_eur w : reachable w -> basket_lists_eur w.
Proof.
  induction 1 as [|w env f t amount Hr IH].
  - intros m [=].
  - unfold convert.
    pose proof (get_ecb_rates_lists_eur env w IH) as H1.
    unfold bind at 1. destruct (get_ecb_rates env w) as [[basket|e] w1]; [|exact H1].
    simpl in H1. intros m Hm. apply H1. rewrite <- Hm. symmetry.
    f_equal.
    apply (keeps_ecb_bind (get_binance_prices env)
             (fun prices => route env basket prices (upper f) (upper t) amount)).
    + apply keeps_ecb_binance.
    + intros prices. apply keeps_ecb_route.
Qed.

Lemma truthy_data_lists_eur w m :
  basket_lists_eur w -> data (ecb (cache w)) = Some m -> truthy_data (ecb (cache w)) = Some m.
Proof.
  intros Hw Hm. unfold truthy_data. rewrite Hm.
  destruct (Hw m Hm) as [v Hv].
  rewrite bool_decide_eq_false_2; [reflexivity|].
  intros ->. rewrite lookup_empty in Hv. discriminate.
Qed.

(** C4.  When the basket fetch fails: a cached basket, however old, is
    returned and the request goes on with it; with nothing cached the request
    fails with 503, whatever the two codes are, and no other provider is
    consulted. *)
Theorem basket_fetch_failure env f t amount w :
  reachable w ->
  ecb_reply env = None ->
  (forall m, data (ecb (cache w)) = Some m ->
     exists w1,
       get_ecb_rates env w = (Ok m, w1) /\ cache w1 = cache w
       /\ convert env f t amount w
          = (let* prices := get_binance_prices env in
             route env m prices (upper f) (upper t) amount) w1)
  /\ (data (ecb (cache w)) = None ->
      convert env f t amount w
      = (Raise Spec.upstream_unavailable, mkWorld (cache w) (GetEcb :: log w))).
Proof.
  intros Hr Hfail. apply reachable_lists_eur in Hr. split.
  - intros m Hm. pose proof (truthy_data_lists_eur w m Hr Hm) as Ht.
    assert (He : exists w1, get_ecb_rates env w = (Ok m, w1) /\ cache w1 = cache w).
    { unfold get_ecb_rates, bind, get_cache, requests_get, set_ecb, ret, raise.
      rewrite Hfail, Ht. destruct (fresh _ _ _); eauto. }
    destruct He as (w1 & He & Hc). exists w1. repeat split; try assumption.
    unfold convert. unfold bind at 1. rewrite He. reflexivity.
  - intros Hn. unfold convert, get_ecb_rates, bind, get_cache, requests_get, set_ecb,
      ret, raise, truthy_data.
    rewrite Hfail, Hn. destruct (fresh _ _ _); reflexivity.
Qed.

(** Scenario E of the specification, for a crypto pair; and a request served
    from a basket cached 998999 seconds before. *)
Lemma basket_fetch_failure_witness :
  convert SampleDown.env "btc" "eth" (Sample.dec 10 (-1)) Sample.w0
    = (Raise (HTTPException 503 "ECB service unavailable"), mkWorld CACHE [GetEcb])
  /\ (convert SampleDown.env "btc" "usd" (Sample.dec 5 (-1)) SampleDown.w).1
    = Ok (mkResult "BTC" "USD" "0.50000000" "60000.00000000" "30000.00000000" "binance").
Proof.
  split.
  - destruct (basket_fetch_failure SampleDown.env "btc" "eth" (Sample.dec 10 (-1))
                Sample.w0 reachable_start eq_refl) as [_ H].
    apply H. reflexivity.
  - destruct (basket_fetch_failure SampleDown.env "btc" "usd" (Sample.dec 5 (-1))
                SampleDown.w (reachable_convert _ _ _ _ _ reachable_start) eq_refl)
      as [H _].
    destruct (H Sample.basket eq_refl) as (w1 & He & _ & Hc).
    rewrite Hc.
    assert (Hw1 : w1 = (get_ecb_rates SampleDown.env SampleDown.w).2)
      by (rewrite He; reflexivity).
    rewrite Hw1. vm_compute. reflexivity.
Defined.

(** ** Cache freshness *)

Lemma fresh_iff now ts ttl : fresh now ts ttl = true <-> (now - ts < ttl)%Q.
Proof.
  unfold fresh, Qltb. rewrite negb_true_iff, <- not_true_iff_false, Qle_bool_iff.
  split; [apply Qnot_le_lt | apply Qlt_not_le].
Qed.

Lemma fresh_false_iff now ts ttl : fresh now ts ttl = false <-> ~ (now - ts < ttl)%Q.
Proof. rewrite <- fresh_iff. symmetry. apply not_true_iff_false. Qed.

Lemma cons_neq {A} (x : A) (l : list A) : l <> x :: l.
Proof.
  intros H. apply (f_equal (@List.length A)) in H. simpl in H. lia.
Qed.

Lemma yahoo_served env base quote w v :
  pair_data (yahoo (cache w)) !! pair_key base quote = Some v ->
  (time_yahoo env - pair_timestamp (yahoo (cache w)) < YAHOO_TTL)%Q ->
  get_yahoo_rate env base quote w = (Ok (Some v), w).
Proof.
  intros Hv Hf. apply fresh_iff in Hf.
  unfold get_yahoo_rate, bind, get_cache, ret. fold (pair_key base quote).
  rewrite Hf, Hv. reflexivity.
Qed.

Lemma yahoo_requests env base quote w :
  pair_data (yahoo (cache w)) !! pair_key base quote = None
  \/ ~ (time_yahoo env - pair_timestamp (yahoo (cache w)) < YAHOO_TTL)%Q ->
  get_yahoo_rate env base quote w =
    match yahoo_reply env (pair_key base quote) with
    | Some value =>
        (Ok (Some value),
         mkWorld (mkCache (ecb (cache w)) (binance (cache w))
                    (mkPairSnapshot (<[pair_key base quote := value]>
                                       (pair_data (yahoo (cache w))))
                                    (time_yahoo env)))
                 (GetYahoo (pair_key base quote) :: log w))
    | None => (Ok None, mkWorld (cache w) (GetYahoo (pair_key base quote) :: log w))
    end.
Proof.
  intros H.
  unfold get_yahoo_rate, bind, get_cache, requests_get, set_yahoo, ret.
  fold (pair_key base quote).
  assert (Hn : (if fresh (time_yahoo env) (pair_timestamp (yahoo (cache w))) YAHOO_TTL
                then pair_data (yahoo (cache w)) !! pair_key base quote else None) = None).
  { destruct H as [H | H].
    - rewrite H. destruct (fresh _ _ _); reflexivity.
    - apply fresh_false_iff in H. rewrite H. reflexivity. }
  rewrite Hn. destruct (yahoo_reply env _); reflexivity.
Qed.

(** What a call that made a request and got a value leaves in the cache. *)
Lemma yahoo_fetched env base quote w v w1 :
  get_yahoo_rate env base quote w = (Ok (Some v), w1) ->
  log w1 = GetYahoo (pair_key base quote) :: log w ->
  yahoo (cache w1)
  = mkPairSnapshot (<[pair_key base quote := v]> (pair_data (yahoo (cache w))))
                   (time_yahoo env).
Proof.
  intros Hc Hl.
  destruct (pair_data (yahoo (cache w)) !! pair_key base quote) as [v0|] eqn:Hk.
  - destruct (fresh (time_yahoo env) (pair_timestamp (yahoo (cache w))) YAHOO_TTL) eqn:Hf.
    + apply fresh_iff in Hf. rewrite (yahoo_served env base quote w v0 Hk Hf) in Hc.
      injection Hc as _ <-. exfalso. exact (cons_neq _ _ Hl).
    + apply fresh_false_iff in Hf.
      rewrite (yahoo_requests env base quote w (or_intror Hf)) in Hc.
      destruct (yahoo_reply env _); [|discriminate].
      injection Hc as -> <-. reflexivity.
  - rewrite (yahoo_requests env base quote w (or_introl Hk)) in Hc.
    destruct (yahoo_reply env _); [|discriminate].
    injection Hc as -> <-. reflexivity.
Qed.

(** C6.  The pair provider answers from the cache exactly when the pair's
    key is cached and the one shared timestamp is fresh; otherwise it makes a
    request.  So a pair fetched at any time in the past is served without a
    request when another pair was fetched less than 10 seconds ago, and a
    pair fetched 10 seconds ago or more is requested again. *)
Theorem pair_cache_shared_timestamp :
  (forall env base quote w,
     (forall v,
        pair_data (yahoo (cache w)) !! pair_key base quote = Some v ->
        (time_yahoo env - pair_timestamp (yahoo (cache w)) < YAHOO_TTL)%Q ->
        get_yahoo_rate env base quote w = (Ok (Some v), w))
     /\ (pair_data (yahoo (cache w)) !! pair_key base quote = None
         \/ ~ (time_yahoo env - pair_timestamp (yahoo (cache w)) < YAHOO_TTL)%Q ->
         log (get_yahoo_rate env base quote w).2
         = GetYahoo (pair_key base quote) :: log w))
  /\ (forall env1 env2 env3 base quote base' quote' w v v' w1 w2,
        pair_key base quote <> pair_key base' quote' ->
        get_yahoo_rate env1 base quote w = (Ok (Some v), w1) ->
        log w1 = GetYahoo (pair_key base quote) :: log w ->
        get_yahoo_rate env2 base' quote' w1 = (Ok (Some v'), w2) ->
        log w2 = GetYahoo (pair_key base' quote') :: log w1 ->
        (time_yahoo env3 - time_yahoo env2 < YAHOO_TTL)%Q ->
        get_yahoo_rate env3 base quote w2 = (Ok (Some v), w2))
  /\ (forall env1 env2 base quote w v w1,
        get_yahoo_rate env1 base quote w = (Ok (Some v), w1) ->
        log w1 = GetYahoo (pair_key base quote) :: log w ->
        ~ (time_yahoo env2 - time_yahoo env1 < YAHOO_TTL)%Q ->
        log (get_yahoo_rate env2 base quote w1).2
        = GetYahoo (pair_key base quote) :: log w1).
Proof.
  split; [|split].
  - intros env base quote w. split.
    + intros v. apply yahoo_served.
    + intros H. rewrite (yahoo_requests env base quote w H).
      destruct (yahoo_reply env _); reflexivity.
  - intros env1 env2 env3 base quote base' quote' w v v' w1 w2 Hne H1 L1 H2 L2 Hf.
    pose proof (yahoo_fetched _ _ _ _ _ _ H1 L1) as C1.
    pose proof (yahoo_fetched _ _ _ _ _ _ H2 L2) as C2.
    apply yahoo_served.
    + rewrite C2, C1. simpl. rewrite lookup_insert_ne by congruence.
      apply lookup_insert_eq.
    + rewrite C2. exact Hf.
  - intros env1 env2 base quote w v w1 H1 L1 Hf.
    pose proof (yahoo_fetched _ _ _ _ _ _ H1 L1) as C1.
    rewrite (yahoo_requests env2 base quote w1).
    + destruct (yahoo_reply env2 _); reflexivity.
    + right. rewrite C1. exact Hf.
Qed.

(** At time 5005 the USD/EUR value fetched at time 1000 is served without a
    request; at time 5010 it is requested again. *)
Lemma pair_cache_shared_timestamp_witness :
  get_yahoo_rate (SamplePairs.at_time 5005) "usd" "eur" SamplePairs.w2
    = (Ok (Some (Sample.dec 9 (-1))), SamplePairs.w2)
  /\ log (get_yahoo_rate (SamplePairs.at_time 5010) "usd" "eur" SamplePairs.w2).2
    = GetYahoo "USDEUR=X" :: log SamplePairs.w2.
Proof.
  destruct pair_cache_shared_timestamp as (H1 & H2 & _). split.
  - apply (H2 (SamplePairs.at_time 1000) (SamplePairs.at_time 5000)
              (SamplePairs.at_time 5005) "usd" "eur" "usd" "jpy"
              Sample.w0 (Sample.dec 9 (-1)) (Sample.dec 9 (-1)) SamplePairs.w1);
      try reflexivity.
    vm_compute. congruence.
  - destruct (H1 (SamplePairs.at_time 5010) "usd" "eur" SamplePairs.w2) as [_ H].
    apply H. right. vm_compute. intros [=].
Defined.

Lemma ecb_fetched env w rates w1 :
  get_ecb_rates env w = (Ok rates, w1) ->
  log w1 = GetEcb :: log w ->
  is_Some (ecb_reply env) ->
  ecb (cache w1) = mkSnapshot (Some rates) (time_ecb env) /\ is_Some (rates !! "EUR"%string).
Proof.
  unfold get_ecb_rates, bind, get_cache, requests_get, set_ecb, ret, raise.
  intros Hc Hl [cubes Hr]. rewrite Hr in Hc.
  destruct (if fresh _ _ _ then _ else None).
  - injection Hc as _ <-. exfalso. exact (cons_neq _ _ Hl).
  - injection Hc as <- <-. split; [reflexivity|].
    apply assign_all_keeps_key. rewrite lookup_singleton_eq. eauto.
Qed.

Lemma ecb_requests env w :
  ~ (time_ecb env - timestamp (ecb (cache w)) < ECB_TTL)%Q ->
  log (get_ecb_rates env w).2 = GetEcb :: log w.
Proof.
  intros Hf. apply fresh_false_iff in Hf.
  unfold get_ecb_rates, bind, get_cache, requests_get, set_ecb, ret, raise.
  rewrite Hf. destruct (ecb_reply env); [reflexivity|].
  destruct (truthy_data _); reflexivity.
Qed.

Lemma binance_fetched env w prices w1 items :
  get_binance_prices env w = (Ok prices, w1) ->
  log w1 = GetBinance :: log w ->
  binance_reply_of env = BinanceResponse 200 (Some items) ->
  binance (cache w1) = mkSnapshot (Some prices) (time_binance env)
  /\ prices = assign_all items ∅.
Proof.
  unfold get_binance_prices, bind, get_cache, requests_get, set_binance, ret.
  intros Hc Hl Hr. rewrite Hr in Hc.
  destruct (if fresh _ _ _ then _ else None).
  - injection Hc as _ <-. exfalso. exact (cons_neq _ _ Hl).
  - simpl in Hc. injection Hc as <- <-. split; reflexivity.
Qed.

Lemma binance_requests env w :
  ~ (time_binance env - timestamp (binance (cache w)) < BINANCE_TTL)%Q ->
  log (get_binance_prices env w).2 = GetBinance :: log w.
Proof.
  intros Hf. apply fresh_false_iff in Hf.
  unfold get_binance_prices, bind, get_cache, requests_get, set_binance, ret.
  rewrite Hf. destruct (binance_reply_of env) as [|code [items|]]; try reflexivity;
    destruct (negb (code =? 200)); reflexivity.
Qed.

(** C7 (amended: for the crypto price source the fetched mapping must not be
    empty; for the pair source the second read is of the same pair).  After a
    read that fetched successfully, a second read within the source's TTL
    makes no upstream request and returns the cached value; a read after the
    TTL has expired makes exactly one upstream request. *)
Theorem cache_freshness :
  (* fiat basket *)
  (forall env1 env2 w rates w1,
     get_ecb_rates env1 w = (Ok rates, w1) ->
     log w1 = GetEcb :: log w -> is_Some (ecb_reply env1) ->
     (time_ecb env2 - time_ecb env1 < ECB_TTL)%Q ->
     get_ecb_rates env2 w1 = (Ok rates, w1))
  /\ (forall env w,
        ~ (time_ecb env - timestamp (ecb (cache w)) < ECB_TTL)%Q ->
        log (get_ecb_rates env w).2 = GetEcb :: log w)
  (* crypto prices *)
  /\ (forall env1 env2 w prices w1 items,
        get_binance_prices env1 w = (Ok prices, w1) ->
        log w1 = GetBinance :: log w ->
        binance_reply_of env1 = BinanceResponse 200 (Some items) ->
        prices <> ∅ ->
        (time_binance env2 - time_binance env1 < BINANCE_TTL)%Q ->
        get_binance_prices env2 w1 = (Ok prices, w1))
  /\ (forall env w,
        ~ (time_binance env - timestamp (binance (cache w)) < BINANCE_TTL)%Q ->
        log (get_binance_prices env w).2 = GetBinance :: log w)
  (* fiat pairs *)
  /\ (forall env1 env2 base quote w v w1,
        get_yahoo_rate env1 base quote w = (Ok (Some v), w1) ->
        log w1 = GetYahoo (pair_key base quote) :: log w ->
        (time_yahoo env2 - time_yahoo env1 < YAHOO_TTL)%Q ->
        get_yahoo_rate env2 base quote w1 = (Ok (Some v), w1))
  /\ (forall env base quote w,
        ~ (time_yahoo env - pair_timestamp (yahoo (cache w)) < YAHOO_TTL)%Q ->
        log (get_yahoo_rate env base quote w).2 = GetYahoo (pair_key base quote) :: log w).
Proof.
  repeat apply conj.
  - intros env1 env2 w rates w1 Hc Hl Hr Hf.
    destruct (ecb_fetched _ _ _ _ Hc Hl Hr) as [C [v Hv]].
    apply fresh_iff in Hf.
    unfold get_ecb_rates, bind, get_cache, ret, truthy_data. rewrite C. simpl.
    rewrite Hf. rewrite bool_decide_eq_false_2; [reflexivity|].
    intros ->. rewrite lookup_empty in Hv. discriminate.
  - apply ecb_requests.
  - intros env1 env2 w prices w1 items Hc Hl Hr Hne Hf.
    destruct (binance_fetched _ _ _ _ _ Hc Hl Hr) as [C _].
    apply fresh_iff in Hf.
    unfold get_binance_prices, bind, get_cache, ret, truthy_data. rewrite C. simpl.
    rewrite Hf. rewrite bool_decide_eq_false_2 by assumption. reflexivity.
  - apply binance_requests.
  - intros env1 env2 base quote w v w1 Hc Hl Hf.
    pose proof (yahoo_fetched _ _ _ _ _ _ Hc Hl) as C.
    apply yahoo_served.
    + rewrite C. apply lookup_insert_eq.
    + rewrite C. exact Hf.
  - intros env base quote w Hf.
    rewrite (yahoo_requests env base quote w (or_intror Hf)).
    destruct (yahoo_reply env _); reflexivity.
Qed.

(** Each source read at time 1000 and again at time 1001: no second request. *)
Lemma cache_freshness_witness :
  log (get_ecb_rates (SamplePairs.at_time 1001)
         (get_ecb_rates (SamplePairs.at_time 1000) Sample.w0).2).2 = [GetEcb]
  /\ log (get_binance_prices (SamplePairs.at_time 1001)
            (get_binance_prices (SamplePairs.at_time 1000) Sample.w0).2).2 = [GetBinance]
  /\ log (get_yahoo_rate (SamplePairs.at_time 1001) "usd" "eur"
            (get_yahoo_rate (SamplePairs.at_time 1000) "usd" "eur" Sample.w0).2).2
     = [GetYahoo "USDEUR=X"].
Proof.
  destruct cache_freshness as (He & _ & Hb & _ & Hy & _).
  split; [|split].
  - rewrite (He (SamplePairs.at_time 1000) (SamplePairs.at_time 1001) Sample.w0
               Sample.basket (get_ecb_rates (SamplePairs.at_time 1000) Sample.w0).2);
      try reflexivity.
    eexists; reflexivity.
  - rewrite (Hb (SamplePairs.at_time 1000) (SamplePairs.at_time 1001) Sample.w0
               Sample.prices (get_binance_prices (SamplePairs.at_time 1000) Sample.w0).2
               Sample.ticker); try reflexivity.
    intros H. apply (f_equal (fun m : gmap string Decimal => m !! "BTCUSDT"%string)) in H.
    vm_compute in H. discriminate.
  - rewrite (Hy (SamplePairs.at_time 1000) (SamplePairs.at_time 1001) "usd" "eur"
               Sample.w0 (Sample.dec 9 (-1))
               (get_yahoo_rate (SamplePairs.at_time 1000) "usd" "eur" Sample.w0).2);
      reflexivity.
Defined.

(** The crypto price source fetched successfully at time 1000 (status 200,
    an empty list); the read at time 1001, within its 10 second TTL, makes a
    second request.  The pair source fetched USD/EUR successfully at time
    1000; its second read at time 1001, of USD/JPY, makes a request too. *)
Lemma cache_freshness_counterexample :
  get_binance_prices (SampleEmpty.at_time 1000) Sample.w0 = (Ok ∅, SampleEmpty.w1)
  /\ log SampleEmpty.w1 = [GetBinance]
  /\ binance (cache SampleEmpty.w1) = mkSnapshot (Some ∅) 1000
  /\ (time_binance (SampleEmpty.at_time 1001) - time_binance (SampleEmpty.at_time 1000)
      < BINANCE_TTL)%Q
  /\ log (get_binance_prices (SampleEmpty.at_time 1001) SampleEmpty.w1).2
     = [GetBinance; GetBinance]
  /\ get_yahoo_rate (SamplePairs.at_time 1000) "usd" "eur" Sample.w0
     = (Ok (Some (Sample.dec 9 (-1))), SamplePairs.w1)
  /\ log SamplePairs.w1 = [GetYahoo "USDEUR=X"]
  /\ log (get_yahoo_rate (SamplePairs.at_time 1001) "usd" "jpy" SamplePairs.w1).2
     = [GetYahoo "USDJPY=X"; GetYahoo "USDEUR=X"].
Proof.
  repeat split.
Qed.

(** ** Digits and rounding *)

Lemma pow10_Z k : 0 <= k -> Z.of_N (pow10 k) = 10 ^ k.
Proof.
  intros Hk. unfold pow10. rewrite N2Z.inj_pow. rewrite Z2N.id by assumption. reflexivity.
Qed.

Lemma pow10_pos k : (0 < pow10 k)%N.
Proof. unfold pow10. apply N.neq_0_lt_0, N.pow_nonzero. discriminate. Qed.

Lemma ndigits_fuel_bounds fuel n :
  Z.of_N n < 2 ^ Z.of_nat fuel -> (0 < n)%N ->
  1 <= ndigits_fuel fuel n
  /\ 10 ^ (ndigits_fuel fuel n - 1) <= Z.of_N n < 10 ^ ndigits_fuel fuel n.
Proof.
  revert n. induction fuel as [|fuel IH]; intros n Hn Hpos.
  - simpl in Hn. lia.
  - simpl ndigits_fuel. destruct (N.ltb_spec n 10) as [Hlt|Hge].
    + simpl. lia.
    + assert (Hn' : Z.of_N (n / 10) < 2 ^ Z.of_nat fuel).
      { rewrite Nat2Z.inj_succ, Z.pow_succ_r in Hn by lia.
        rewrite N2Z.inj_div. change (Z.of_N 10) with 10.
        apply Z.div_lt_upper_bound; lia. }
      assert (Hpos' : (0 < n / 10)%N).
      { apply N.div_str_pos. lia. }
      destruct (IH _ Hn' Hpos') as (H1 & H2 & H3).
      split; [lia|].
      replace (1 + ndigits_fuel fuel (n / 10) - 1) with (Z.succ (ndigits_fuel fuel (n / 10) - 1)) by lia.
      replace (1 + ndigits_fuel fuel (n / 10)) with (Z.succ (ndigits_fuel fuel (n / 10))) by lia.
      rewrite !Z.pow_succ_r by lia.
      rewrite N2Z.inj_div in H2, H3. change (Z.of_N 10) with 10 in *.
      pose proof (Z.div_mod (Z.of_N n) 10 ltac:(lia)) as Hdm.
      pose proof (Z.mod_pos_bound (Z.of_N n) 10 ltac:(lia)) as Hm.
      lia.
Qed.

Lemma ndigits_bounds n :
  (0 < n)%N ->
  1 <= ndigits n /\ 10 ^ (ndigits n - 1) <= Z.of_N n < 10 ^ ndigits n.
Proof.
  intros Hpos. unfold ndigits. apply ndigits_fuel_bounds; [|assumption].
  destruct n as [|p]; [lia|]. simpl. apply Zpower2_Psize. lia.
Qed.

Lemma ndigits_pos n : 1 <= ndigits n.
Proof.
  destruct n as [|p]; [reflexivity|]. apply ndigits_bounds. lia.
Qed.

Lemma pow10_split k : 0 < k -> 10 ^ k = 2 * (5 * 10 ^ (k - 1)).
Proof.
  intros Hk. replace k with (Z.succ (k - 1)) at 1 by lia.
  rewrite Z.pow_succ_r by lia. lia.
Qed.

Lemma round_half_even_error c k :
  0 < k ->
  let q := (c / pow10 k)%N in
  let r := (c mod pow10 k)%N in
  let q' := if round_half_even q r k then (q + 1)%N else q in
  2 * Z.abs (Z.of_N q' * 10 ^ k - Z.of_N c) <= 10 ^ k.
Proof.
  intros Hk q r q'.
  assert (Hp : Z.of_N (pow10 k) = 10 ^ k) by (apply pow10_Z; lia).
  assert (Hh : Z.of_N (5 * pow10 (k - 1)) = 5 * 10 ^ (k - 1)).
  { rewrite N2Z.inj_mul, pow10_Z by lia. reflexivity. }
  pose proof (pow10_split k Hk) as Hs.
  assert (Hpos : 0 < 10 ^ k) by (apply Z.pow_pos_nonneg; lia).
  assert (Hc : Z.of_N c = Z.of_N q * 10 ^ k + Z.of_N r).
  { unfold q, r. rewrite N2Z.inj_div, N2Z.inj_mod, Hp.
    rewrite Z.mul_comm. apply Z.div_mod. lia. }
  assert (Hr : 0 <= Z.of_N r < 10 ^ k).
  { unfold r. rewrite N2Z.inj_mod, Hp. apply Z.mod_pos_bound. lia. }
  unfold q', round_half_even.
  destruct (N.eqb_spec r (5 * pow10 (k - 1))) as [E|E].
  - assert (Er : Z.of_N r = 5 * 10 ^ (k - 1)) by (rewrite E; exact Hh).
    destruct (N.odd q); rewrite ?N2Z.inj_add; change (Z.of_N 1) with 1; lia.
  - assert (Er : Z.of_N r <> 5 * 10 ^ (k - 1)) by (rewrite <- Hh; lia).
    destruct (N.ltb_spec (5 * pow10 (k - 1)) r) as [L|L];
      rewrite ?N2Z.inj_add; change (Z.of_N 1) with 1; lia.
Qed.

(** [_fix] on a non-zero coefficient whose rounded exponent stays above
    [Etiny]: the sign is kept, the exponent does not decrease, and the
    coefficient is rounded with a relative error of at most [5e-28]. *)
Lemma fix_normal s c e d' :
  (0 < c)%N -> Etiny <= ndigits c + e - prec ->
  fix_ (mkDecimal s c e) = Ok d' ->
  dsign d' = s /\ e <= dexp d'
  /\ 2 * 10 ^ 27 * Z.abs (Z.of_N (dint d') * 10 ^ (dexp d' - e) - Z.of_N c) <= Z.of_N c.
Proof.
  intros Hc Hn. unfold fix_.
  destruct (N.eqb_spec c 0) as [E|_]; [lia|].
  destruct (Z.ltb_spec Etop (ndigits c + e - prec)) as [|Htop]; [discriminate|].
  rewrite Z.max_l by lia.
  destruct (Z.ltb_spec e (ndigits c + e - prec)) as [Hlt|Hge].
  2:{ intros [= <-]. cbn [dsign dint dexp].
      rewrite Z.sub_diag, Z.pow_0_r, Z.mul_1_r, Z.sub_diag. split; [reflexivity|]. lia. }
  destruct (Z.ltb_spec (ndigits c + e - (ndigits c + e - prec)) 0) as [Hd|_];
    [unfold prec in Hd; lia|].
  set (k := ndigits c + e - prec - e).
  assert (Hk : 0 < k) by (unfold k; lia).
  assert (Ek : k = ndigits c - prec) by (unfold k; lia).
  pose proof (round_half_even_error c k Hk) as Herr. cbv zeta in Herr.
  set (q := (c / pow10 k)%N) in *. set (r := (c mod pow10 k)%N) in *.
  set (q' := if round_half_even q r k then (q + 1)%N else q) in *.
  destruct (ndigits_bounds c Hc) as (_ & Hlo & Hhi).
  assert (Hp : Z.of_N (pow10 k) = 10 ^ k) by (apply pow10_Z; lia).
  assert (Hpos : 0 < 10 ^ k) by (apply Z.pow_pos_nonneg; lia).
  assert (Hsplit : 10 ^ (ndigits c - 1) = 10 ^ 27 * 10 ^ k).
  { rewrite <- Z.pow_add_r by lia. f_equal. unfold prec in Ek. lia. }
  assert (Hsplit' : 10 ^ ndigits c = 10 ^ 28 * 10 ^ k).
  { rewrite <- Z.pow_add_r by lia. f_equal. unfold prec in Ek. lia. }
  assert (Hq : 10 ^ 27 <= Z.of_N q < 10 ^ 28).
  { unfold q. rewrite N2Z.inj_div, Hp. split.
    - apply Z.div_le_lower_bound; lia.
    - apply Z.div_lt_upper_bound; lia. }
  assert (Hq' : 10 ^ 27 <= Z.of_N q' <= 10 ^ 28).
  { unfold q'. destruct (round_half_even q r k); lia. }
  destruct (Z.ltb_spec prec (ndigits q')) as [Hcarry|Hnc].
  - (* the increment carried into a 29th digit *)
    assert (Eq' : Z.of_N q' = 10 ^ 28).
    { destruct (ndigits_bounds q' ltac:(lia)) as (_ & Hlo' & _).
      assert (10 ^ 28 <= 10 ^ (ndigits q' - 1))
        by (apply Z.pow_le_mono_r; unfold prec in Hcarry; lia).
      lia. }
    destruct (Z.ltb_spec Etop (ndigits c + e - prec + 1)); [discriminate|].
    intros [= <-]. cbn [dsign dint dexp]. split; [reflexivity|]. split; [lia|].
    replace (ndigits c + e - prec + 1 - e) with (Z.succ k) by lia.
    rewrite Z.pow_succ_r by lia.
    rewrite N2Z.inj_div. change (Z.of_N 10) with 10. rewrite Eq'.
    change (10 ^ 28 / 10) with (10 ^ 27).
    replace (10 ^ 27 * (10 * 10 ^ k)) with (10 ^ 28 * 10 ^ k) by lia.
    rewrite <- Eq'. lia.
  - destruct (Z.ltb_spec Etop (ndigits c + e - prec)); [discriminate|].
    intros [= <-]. cbn [dsign dint dexp]. split; [reflexivity|]. split; [lia|].
    fold k. lia.
Qed.

(** ** Values and relative errors *)

Local Open Scope R_scope.

Lemma p10_pos k : 0 < p10 k.
Proof. apply powerRZ_lt. lra. Qed.

Lemma p10_add a b : p10 (a + b) = p10 a * p10 b.
Proof. apply powerRZ_add. lra. Qed.

Lemma p10_IZR k : (0 <= k)%Z -> IZR (10 ^ k) = p10 k.
Proof.
  intros Hk. rewrite <- (Z2Nat.id k Hk). rewrite <- pow_IZR.
  unfold p10. rewrite <- pow_powerRZ. reflexivity.
Qed.

Lemma p10_ge_1 k : (0 <= k)%Z -> 1 <= p10 k.
Proof.
  intros Hk. rewrite <- p10_IZR by assumption. apply IZR_le.
  assert (0 < 10 ^ k)%Z by (apply Z.pow_pos_nonneg; lia). lia.
Qed.

Lemma p10_le a b : (a <= b)%Z -> p10 a <= p10 b.
Proof.
  intros H. replace b with (a + (b - a))%Z by lia. rewrite p10_add.
  pose proof (p10_pos a). pose proof (p10_ge_1 (b - a) ltac:(lia)). nra.
Qed.

Lemma p10_neg k : p10 (- k) = / p10 k.
Proof. apply powerRZ_neg'. Qed.

Lemma sgn_abs s : Rabs (sgn s) = 1.
Proof. destruct s; simpl; unfold Rabs; destruct (Rcase_abs _); lra. Qed.

Lemma sgn_xorb a b : sgn (xorb a b) = sgn a * sgn b.
Proof. destruct a, b; simpl; lra. Qed.

Lemma val_abs d : Rabs (val d) = IZR (Z.of_N (dint d)) * p10 (dexp d).
Proof.
  unfold val. rewrite !Rabs_mult, sgn_abs.
  rewrite (Rabs_pos_eq (IZR _)) by (apply IZR_le; lia).
  rewrite (Rabs_pos_eq (p10 _)) by (left; apply p10_pos). lra.
Qed.

Lemma val_zero d : dint d = 0%N -> val d = 0.
Proof. intros H. unfold val. rewrite H. simpl. lra. Qed.

Lemma val_zero_iff d : val d = 0 <-> dint d = 0%N.
Proof.
  split; [|apply val_zero]. intros H.
  assert (Ha : Rabs (val d) = 0) by (rewrite H; apply Rabs_R0).
  rewrite val_abs in Ha. pose proof (p10_pos (dexp d)).
  destruct (N.eq_dec (dint d) 0) as [|Hne]; [assumption|exfalso].
  assert (1 <= IZR (Z.of_N (dint d))) by (apply IZR_le; lia). nra.
Qed.

(** The decade of a non-zero decimal. *)
Lemma val_decade d :
  (0 < dint d)%N ->
  p10 (adjusted d) <= Rabs (val d) < p10 (adjusted d + 1).
Proof.
  intros Hc. rewrite val_abs. unfold adjusted.
  destruct (ndigits_bounds (dint d) Hc) as (H1 & Hlo & Hhi).
  apply IZR_le in Hlo. apply IZR_lt in Hhi. rewrite p10_IZR in Hlo, Hhi by lia.
  pose proof (p10_pos (dexp d)).
  replace (dexp d + ndigits (dint d) - 1)%Z with ((ndigits (dint d) - 1) + dexp d)%Z by lia.
  replace (ndigits (dint d) - 1 + dexp d + 1)%Z with (ndigits (dint d) + dexp d)%Z by lia.
  rewrite !p10_add. split; nra.
Qed.

(** [_fix] rounds a value of at least [10^Emin] with relative error
    [5e-28]; zero stays zero. *)
Lemma fix_val d d' :
  fix_ d = Ok d' ->
  val d = 0 \/ p10 Emin <= Rabs (val d) ->
  rel u_fix (val d') (val d) /\ dsign d' = dsign d.
Proof.
  intros Hf Hv. destruct d as [s c e].
  destruct (N.eq_dec c 0) as [->|Hc].
  - unfold fix_ in Hf. simpl in Hf. injection Hf as <-. split; [|reflexivity].
    unfold rel. rewrite !val_zero by reflexivity.
    rewrite Rminus_diag, Rabs_R0. lra.
  - assert (Hpos : (0 < c)%N) by lia.
    destruct Hv as [Hv|Hv]; [apply val_zero_iff in Hv; simpl in Hv; lia|].
    assert (Hn : (Etiny <= ndigits c + e - prec)%Z).
    { pose proof (val_decade (mkDecimal s c e) Hpos) as [_ Hhi].
      unfold adjusted in Hhi. simpl in Hhi.
      assert (Hlt : p10 Emin < p10 (e + ndigits c - 1 + 1)) by lra.
      destruct (Z_lt_le_dec Emin (e + ndigits c - 1 + 1)) as [L|L].
      - unfold Etiny. lia.
      - apply p10_le in L. lra. }
    destruct (fix_normal s c e d' Hpos Hn Hf) as (Hs & He & Herr).
    split; [|exact Hs].
    unfold rel, val. simpl. rewrite Hs.
    set (j := (dexp d' - e)%Z) in *.
    replace (dexp d') with (j + e)%Z by (unfold j; lia). rewrite p10_add.
    replace (sgn s * IZR (Z.of_N (dint d')) * (p10 j * p10 e) - sgn s * IZR (Z.of_N c) * p10 e)
      with (sgn s * (IZR (Z.of_N (dint d')) * p10 j - IZR (Z.of_N c)) * p10 e) by ring.
    rewrite !Rabs_mult, sgn_abs.
    rewrite (Rabs_pos_eq (p10 e)) by (left; apply p10_pos).
    rewrite (Rabs_pos_eq (IZR (Z.of_N c))) by (apply IZR_le; lia).
    rewrite <- p10_IZR by (unfold j; lia).
    rewrite <- mult_IZR, <- minus_IZR, <- abs_IZR.
    apply IZR_le in Herr. rewrite !mult_IZR in Herr.
    pose proof (p10_pos e). unfold u_fix.
    set (E := IZR (Z.abs (Z.of_N (dint d') * 10 ^ j - Z.of_N c))) in *.
    set (C := IZR (Z.of_N c)) in *.
    assert (HC : 0 <= C) by (apply IZR_le; lia).
    assert (HE : 2 * 10 ^ 27 * E <= C).
    { replace (2 * 10 ^ 27) with (IZR 2 * IZR (10 ^ 27)) by (simpl; lra). exact Herr. }
    assert (E <= 5 / 10 ^ 28 * C) by lra.
    nra.
Qed.

Lemma rel_zero eps x : 0 <= eps -> rel eps x x.
Proof.
  intros H. unfold rel. rewrite Rminus_diag, Rabs_R0.
  pose proof (Rabs_pos x). nra.
Qed.

Lemma val_mk s c e : val (mkDecimal s c e) = sgn s * IZR (Z.of_N c) * p10 e.
Proof. reflexivity. Qed.

(** *** Multiplication *)

Lemma mul_val a b c :
  mul a b = Ok c ->
  val a * val b = 0 \/ p10 Emin <= Rabs (val a * val b) ->
  rel u_fix (val c) (val a * val b).
Proof.
  unfold mul. intros Hf Hv.
  assert (E : val (mkDecimal (xorb (dsign a) (dsign b)) (dint a * dint b) (dexp a + dexp b))
              = val a * val b).
  { unfold val. simpl. rewrite sgn_xorb, N2Z.inj_mul, mult_IZR, p10_add. ring. }
  rewrite <- E in *. apply (fix_val _ _ Hf Hv).
Qed.

(** *** Division *)

Lemma strip_zeros_value fuel coeff exp :
  (0 < coeff)%N ->
  (0 < (strip_zeros fuel coeff exp).1)%N
  /\ IZR (Z.of_N (strip_zeros fuel coeff exp).1) * p10 (strip_zeros fuel coeff exp).2
     = IZR (Z.of_N coeff) * p10 exp.
Proof.
  revert coeff exp. induction fuel as [|fuel IH]; intros coeff exp Hc; simpl.
  - split; [assumption|reflexivity].
  - destruct (N.eqb_spec (coeff mod 10) 0) as [Hm|Hm]; simpl.
    + assert (Hd : coeff = (10 * (coeff / 10))%N).
      { pose proof (N.div_mod coeff 10 ltac:(discriminate)). lia. }
      assert (Hq : (0 < coeff / 10)%N) by lia.
      destruct (IH (coeff / 10)%N (exp + 1)%Z Hq) as [H1 H2].
      split; [assumption|]. rewrite H2. rewrite Hd at 2.
      rewrite N2Z.inj_mul, mult_IZR, p10_add. change (p10 1) with (10 * 1).
      change (IZR (Z.of_N 10)) with 10. ring.
    + split; [assumption|reflexivity].
Qed.

(** The quotient coefficient before [_fix]: at least 29 digits, within one
    unit of the true quotient. *)
Lemma quotient_bounds (n d q r : N) :
  (0 < d)%N -> n = (d * q + r)%N -> (r < d)%N ->
  (10 ^ 28 * Z.of_N d <= Z.of_N n)%Z ->
  (10 ^ 28 <= Z.of_N q)%Z
  /\ IZR (Z.of_N q) <= IZR (Z.of_N n) / IZR (Z.of_N d) < IZR (Z.of_N q) + 1
  /\ (r = 0%N -> IZR (Z.of_N n) / IZR (Z.of_N d) = IZR (Z.of_N q)).
Proof.
  intros Hd Hn Hr Hbig.
  assert (HD : 0 < IZR (Z.of_N d)) by (apply IZR_lt; lia).
  assert (HN : IZR (Z.of_N n) = IZR (Z.of_N d) * IZR (Z.of_N q) + IZR (Z.of_N r)).
  { rewrite Hn, N2Z.inj_add, N2Z.inj_mul, plus_IZR, mult_IZR. reflexivity. }
  assert (HR : 0 <= IZR (Z.of_N r) < IZR (Z.of_N d)).
  { split; [apply IZR_le | apply IZR_lt]; lia. }
  split; [nia|].
  rewrite HN. split; [split|].
  - apply Rmult_le_reg_r with (IZR (Z.of_N d)); [assumption|].
    unfold Rdiv. rewrite Rmult_assoc, Rinv_l by lra. nra.
  - apply Rmult_lt_reg_r with (IZR (Z.of_N d)); [assumption|].
    unfold Rdiv. rewrite Rmult_assoc, Rinv_l by lra. nra.
  - intros ->. simpl. field. lra.
Qed.

Lemma div_tail sign (n d q r : N) exp fuel x :
  (0 < d)%N -> n = (d * q + r)%N -> (r < d)%N ->
  (10 ^ 28 * Z.of_N d <= Z.of_N n)%Z ->
  x = sgn sign * (IZR (Z.of_N n) / IZR (Z.of_N d)) * p10 exp ->
  forall coeff e',
  (if negb (r =? 0)%N
   then ((if (q mod 5 =? 0)%N then q + 1 else q)%N, exp)
   else strip_zeros fuel q exp) = (coeff, e') ->
  (0 < coeff)%N /\ rel u_quot (val (mkDecimal sign coeff e')) x.
Proof.
  intros Hd Hn Hr Hbig Hx coeff e' Hc.
  destruct (quotient_bounds n d q r Hd Hn Hr Hbig) as (Hq & [Hlo Hhi] & Hex).
  assert (Hq' : 10 ^ 28 <= IZR (Z.of_N q)).
  { apply IZR_le in Hq.
    change (10 ^ 28)%Z with 10000000000000000000000000000%Z in Hq. lra. }
  pose proof (p10_pos exp) as Hp.
  set (T := IZR (Z.of_N n) / IZR (Z.of_N d)) in *.
  assert (Hax : Rabs x = T * p10 exp).
  { rewrite Hx, !Rabs_mult, sgn_abs.
    rewrite (Rabs_pos_eq T) by lra. rewrite (Rabs_pos_eq (p10 exp)) by lra. lra. }
  destruct (N.eqb_spec r 0) as [Hr0|Hr0]; simpl in Hc.
  - (* exact quotient *)
    pose proof (strip_zeros_value fuel q exp ltac:(lia)) as [H1 H2].
    rewrite Hc in H1, H2. simpl in H1, H2. split; [assumption|].
    assert (E : val (mkDecimal sign coeff e') = x).
    { rewrite val_mk, Hx. rewrite Rmult_assoc, H2. fold T. rewrite (Hex Hr0). ring. }
    rewrite E. apply rel_zero. unfold u_quot. lra.
  - injection Hc as <- <-.
    set (c' := (if (q mod 5 =? 0)%N then q + 1 else q)%N).
    assert (Hc' : IZR (Z.of_N c') = IZR (Z.of_N q) \/ IZR (Z.of_N c') = IZR (Z.of_N q) + 1).
    { unfold c'. destruct (q mod 5 =? 0)%N; [right|left; reflexivity].
      rewrite N2Z.inj_add, plus_IZR. reflexivity. }
    split. { unfold c'. destruct (q mod 5 =? 0)%N; lia. }
    unfold rel. rewrite Hax, val_mk, Hx.
    replace (sgn sign * IZR (Z.of_N c') * p10 exp - sgn sign * T * p10 exp)
      with (sgn sign * (IZR (Z.of_N c') - T) * p10 exp) by ring.
    rewrite !Rabs_mult, sgn_abs, (Rabs_pos_eq (p10 exp)) by lra.
    assert (Hd1 : Rabs (IZR (Z.of_N c') - T) <= 1).
    { apply Rabs_le. destruct Hc' as [-> | ->]; lra. }
    unfold u_quot.
    assert (1 <= 1 / 10 ^ 28 * T) by lra.
    nra.
Qed.

Lemma div_prefix a b :
  (0 < dint a)%N -> (0 < dint b)%N ->
  exists d0, div a b = fix_ d0 /\ (0 < dint d0)%N
             /\ rel u_quot (val d0) (val a / val b).
Proof.
  intros Ha Hb. unfold div.
  destruct (N.eqb_spec (dint b) 0) as [|_]; [lia|].
  destruct (N.eqb_spec (dint a) 0) as [|_]; [lia|].
  set (shift := (ndigits (dint b) - ndigits (dint a) + prec + 1)%Z).
  set (exp := (dexp a - dexp b - shift)%Z).
  destruct (ndigits_bounds _ Ha) as (_ & Halo & Hahi).
  destruct (ndigits_bounds _ Hb) as (_ & Hblo & Hbhi).
  pose proof (ndigits_pos (dint a)) as Hla. pose proof (ndigits_pos (dint b)) as Hlb.
  assert (HA : 0 < IZR (Z.of_N (dint a))) by (apply IZR_lt; lia).
  assert (HB : 0 < IZR (Z.of_N (dint b))) by (apply IZR_lt; lia).
  assert (Hval : val a / val b
                 = sgn (xorb (dsign a) (dsign b))
                   * (IZR (Z.of_N (dint a)) / IZR (Z.of_N (dint b)))
                   * p10 (dexp a - dexp b)).
  { unfold val. rewrite sgn_xorb.
    replace (dexp a - dexp b)%Z with (dexp a + - dexp b)%Z by lia.
    rewrite p10_add, p10_neg. pose proof (p10_pos (dexp b)).
    destruct (dsign a), (dsign b); simpl; field; lra. }
  assert (Hexp : p10 (dexp a - dexp b) = p10 shift * p10 exp).
  { rewrite <- p10_add. f_equal. unfold exp. lia. }
  destruct (Z.leb_spec 0 shift) as [Hs|Hs].
  - (* dividend scaled up *)
    pose proof (N.div_eucl_spec (dint a * pow10 shift) (dint b)) as Hspec.
    pose proof (N.mod_lt (dint a * pow10 shift) (dint b) ltac:(lia)) as Hrem.
    unfold N.modulo in Hrem.
    destruct (N.div_eucl (dint a * pow10 shift) (dint b)) as [q r]. simpl in Hrem.
    set (res := if negb (r =? 0)%N then _ else _).
    destruct res as [coeff e'] eqn:Hres.
    destruct (div_tail (xorb (dsign a) (dsign b)) (dint a * pow10 shift) (dint b) q r exp
                (Z.to_nat (dexp a - dexp b - exp)) (val a / val b)
                ltac:(lia) Hspec Hrem) with (coeff := coeff) (e' := e') as [H1 H2].
    + rewrite N2Z.inj_mul, pow10_Z by lia.
      assert (10 ^ (ndigits (dint b) + 28) <= 10 ^ (ndigits (dint a) - 1) * 10 ^ shift)%Z.
      { rewrite <- Z.pow_add_r by lia. apply Z.pow_le_mono_r; [lia|].
        unfold shift, prec. lia. }
      rewrite Z.pow_add_r in H by lia.
      assert (0 < 10 ^ shift)%Z by (apply Z.pow_pos_nonneg; lia).
      nia.
    + rewrite Hval, Hexp. rewrite N2Z.inj_mul, mult_IZR, pow10_Z, p10_IZR by lia.
      field. lra.
    + exact Hres.
    + exists (mkDecimal (xorb (dsign a) (dsign b)) coeff e'). auto.
  - (* divisor scaled up *)
    pose proof (N.div_eucl_spec (dint a) (dint b * pow10 (- shift))) as Hspec.
    pose proof (pow10_pos (- shift)) as Hpp.
    pose proof (N.mod_lt (dint a) (dint b * pow10 (- shift)) ltac:(lia)) as Hrem.
    unfold N.modulo in Hrem.
    destruct (N.div_eucl (dint a) (dint b * pow10 (- shift))) as [q r]. simpl in Hrem.
    set (res := if negb (r =? 0)%N then _ else _).
    destruct res as [coeff e'] eqn:Hres.
    destruct (div_tail (xorb (dsign a) (dsign b)) (dint a) (dint b * pow10 (- shift)) q r exp
                (Z.to_nat (dexp a - dexp b - exp)) (val a / val b)
                ltac:(lia) Hspec Hrem) with (coeff := coeff) (e' := e') as [H1 H2].
    + rewrite N2Z.inj_mul, pow10_Z by lia.
      assert (10 ^ 28 * (10 ^ ndigits (dint b) * 10 ^ (- shift)) <= 10 ^ (ndigits (dint a) - 1))%Z.
      { rewrite <- !Z.pow_add_r by lia. apply Z.pow_le_mono_r; [lia|].
        unfold shift, prec. lia. }
      assert (0 < 10 ^ (- shift))%Z by (apply Z.pow_pos_nonneg; lia).
      nia.
    + rewrite Hval, Hexp. rewrite N2Z.inj_mul, mult_IZR, pow10_Z, p10_IZR by lia.
      replace shift with (- (- shift))%Z at 1 by lia. rewrite p10_neg.
      pose proof (p10_pos (- shift)). field. lra.
    + exact Hres.
    + exists (mkDecimal (xorb (dsign a) (dsign b)) coeff e'). auto.
Qed.

Lemma rel_bounds eps x y :
  rel eps x y -> (1 - eps) * Rabs y <= Rabs x <= (1 + eps) * Rabs y.
Proof.
  unfold rel. intros H.
  pose proof (Rabs_triang_inv x y). pose proof (Rabs_triang_inv y x).
  rewrite (Rabs_minus_sym y x) in *. lra.
Qed.

Lemma rel_trans e1 e2 x y z :
  0 <= e1 -> rel e1 x y -> rel e2 y z -> rel (e1 + e2 + e1 * e2) x z.
Proof.
  intros H1 Hxy Hyz. pose proof (rel_bounds _ _ _ Hyz) as [_ Hb].
  unfold rel in *.
  replace (x - z) with ((x - y) + (y - z)) by ring.
  pose proof (Rabs_triang (x - y) (y - z)).
  pose proof (Rabs_pos z). nra.
Qed.

Lemma rel_weaken e e' x y : rel e x y -> e <= e' -> rel e' x y.
Proof. unfold rel. intros H He. pose proof (Rabs_pos y). nra. Qed.

(** True division rounds a quotient of at least [10^(Emin+1)] with
    relative error [7e-28]; a zero dividend gives zero. *)
Lemma div_val a b c :
  div a b = Ok c ->
  val a = 0 \/ p10 (Emin + 1) <= Rabs (val a / val b) ->
  val b <> 0 /\ rel u_div (val c) (val a / val b).
Proof.
  intros Hd Hv.
  assert (Hb : (0 < dint b)%N).
  { unfold div in Hd. destruct (N.eqb_spec (dint b) 0); [|lia].
    destruct (dint a =? 0)%N; discriminate. }
  assert (Hvb : val b <> 0) by (rewrite val_zero_iff; lia).
  split; [assumption|].
  destruct (N.eq_dec (dint a) 0) as [Ha|Ha].
  - destruct (div_zero_l a b Ha ltac:(lia)) as (z & Hz & Hz0).
    rewrite Hz in Hd. injection Hd as <-.
    rewrite (val_zero z Hz0), (val_zero a Ha).
    unfold Rdiv. rewrite Rmult_0_l. apply rel_zero. unfold u_div. lra.
  - destruct Hv as [Hv|Hv]; [apply val_zero_iff in Hv; contradiction|].
    destruct (div_prefix a b ltac:(lia) Hb) as (d0 & E & Hd0 & Hrel).
    rewrite E in Hd.
    pose proof (rel_bounds _ _ _ Hrel) as [Hlo _].
    assert (Hmin : p10 Emin <= Rabs (val d0)).
    { replace (Emin + 1)%Z with (1 + Emin)%Z in Hv by lia. rewrite p10_add in Hv.
      change (p10 1) with (10 * 1) in Hv. pose proof (p10_pos Emin).
      unfold u_quot in Hlo. nra. }
    destruct (fix_val d0 c Hd (or_intror Hmin)) as [Hfix _].
    eapply rel_weaken.
    + apply (rel_trans u_fix u_quot _ (val d0)); [unfold u_fix; lra| |]; eassumption.
    + unfold u_fix, u_quot, u_div. lra.
Qed.

(** *** Quantize *)

Lemma rescale_val d exp :
  dexp (rescale d exp) = exp /\ dsign (rescale d exp) = dsign d
  /\ Rabs (val (rescale d exp) - val d) <= p10 exp / 2.
Proof.
  destruct d as [s c e]. unfold rescale.
  pose proof (p10_pos exp) as Hpe.
  destruct (N.eqb_spec c 0) as [->|Hc].
  - simpl. repeat split. rewrite !val_zero by reflexivity.
    rewrite Rminus_diag, Rabs_R0. lra.
  - destruct (Z.leb_spec exp e) as [Hle|Hlt].
    + simpl. repeat split. rewrite !val_mk.
      rewrite N2Z.inj_mul, mult_IZR, pow10_Z, p10_IZR by lia.
      replace (sgn s * (IZR (Z.of_N c) * p10 (e - exp)) * p10 exp)
        with (sgn s * IZR (Z.of_N c) * (p10 (e - exp) * p10 exp)) by ring.
      rewrite <- p10_add. replace (e - exp + exp)%Z with e by lia.
      rewrite Rminus_diag, Rabs_R0. lra.
    + destruct (Z.ltb_spec (ndigits c + e - exp) 0) as [Hd|Hd].
      * (* the whole coefficient lies below the kept digits *)
        replace (exp - (exp - 1))%Z with 1%Z by lia.
        change (1 / pow10 1)%N with 0%N. change (1 mod pow10 1)%N with 1%N.
        change (round_half_even 0 1 1) with false. simpl.
        repeat split. rewrite (val_zero (mkDecimal s 0 exp)) by reflexivity.
        rewrite Rminus_0_l, Rabs_Ropp.
        pose proof (val_decade (mkDecimal s c e) ltac:(simpl; lia)) as [_ Hhi].
        unfold adjusted in Hhi. simpl in Hhi.
        assert (p10 (e + ndigits c - 1 + 1) <= p10 (exp - 1)) by (apply p10_le; lia).
        assert (Hs : p10 exp = 10 * p10 (exp - 1)).
        { replace exp with (1 + (exp - 1))%Z at 1 by lia. rewrite p10_add.
          change (p10 1) with (10 * 1). ring. }
        pose proof (p10_pos (exp - 1)). lra.
      * simpl. repeat split.
        set (k := (exp - e)%Z).
        pose proof (round_half_even_error c k ltac:(unfold k; lia)) as Herr.
        cbv zeta in Herr.
        set (q' := if round_half_even (c / pow10 k) (c mod pow10 k) k
                   then (c / pow10 k + 1)%N else (c / pow10 k)%N) in *.
        rewrite !val_mk.
        replace exp with (k + e)%Z at 1 by (unfold k; lia). rewrite p10_add.
        replace (sgn s * IZR (Z.of_N q') * (p10 k * p10 e) - sgn s * IZR (Z.of_N c) * p10 e)
          with (sgn s * (IZR (Z.of_N q') * p10 k - IZR (Z.of_N c)) * p10 e) by ring.
        rewrite !Rabs_mult, sgn_abs, (Rabs_pos_eq (p10 e)) by (left; apply p10_pos).
        rewrite <- p10_IZR by (unfold k; lia).
        rewrite <- mult_IZR, <- minus_IZR, <- abs_IZR.
        apply IZR_le in Herr. rewrite mult_IZR in Herr.
        replace exp with (k + e)%Z by (unfold k; lia). rewrite p10_add.
        rewrite p10_IZR in Herr by (unfold k; lia).
        pose proof (p10_pos e). pose proof (p10_pos k).
        set (E := IZR (Z.abs (Z.of_N q' * 10 ^ k - Z.of_N c))) in *.
        assert (0 <= E) by (unfold E; apply IZR_le; lia).
        nra.
Qed.

Lemma quantize_val d q :
  quantize d (-8) = Ok q ->
  q = rescale d (-8) /\ (Z.of_N (dint q) < 10 ^ 28)%Z.
Proof.
  unfold quantize. change (negb ((Etiny <=? -8)%Z && (-8 <=? Emax)%Z)) with false.
  cbv iota.
  destruct (N.eqb_spec (dint d) 0) as [Hz|Hnz].
  - destruct d as [s c e]. simpl in Hz. subst c. simpl. intros [= <-]. simpl. split; [reflexivity|lia].
  - destruct (Z.ltb_spec Emax (adjusted d)); [discriminate|].
    destruct (Z.ltb_spec prec (adjusted d - -8 + 1)); [discriminate|].
    destruct (Z.ltb_spec Emax (adjusted (rescale d (-8)))); [discriminate|].
    destruct (Z.ltb_spec prec (ndigits (dint (rescale d (-8))))) as [|Hnd]; [discriminate|].
    destruct (rescale_val d (-8)) as (He & Hs & _).
    destruct (rescale d (-8)) as [s' c' e'] eqn:Er. simpl in He, Hnd. subst e'.
    assert (Hlt : (Z.of_N c' < 10 ^ 28)%Z).
    { destruct (N.eq_dec c' 0) as [->|Hc']; [simpl; lia|].
      destruct (ndigits_bounds c' ltac:(lia)) as (_ & _ & Hhi).
      assert (10 ^ ndigits c' <= 10 ^ 28)%Z by (apply Z.pow_le_mono_r; unfold prec in Hnd; lia).
      lia. }
    unfold fix_. destruct (N.eqb_spec c' 0) as [->|Hc'].
    + intros [= <-]. split; [reflexivity|simpl; lia].
    + destruct (Z.ltb_spec Etop (ndigits c' + -8 - prec)) as [Ht|_].
      { unfold Etop, Emax, prec in *. lia. }
      destruct (Z.ltb_spec (-8) (Z.max (ndigits c' + -8 - prec) Etiny)) as [Hm|_].
      { unfold Etiny, Emin, prec in *. lia. }
      intros [= <-]. split; [reflexivity|exact Hlt].
Qed.

(** ** Accumulated rounding: ratio bands *)

Lemma rho_gt_1 : 1 < rho.
Proof.
  unfold rho, u_div. apply Rmult_lt_reg_r with (1 - 7 / 10 ^ 28); [lra|].
  unfold Rdiv at 2. rewrite Rmult_assoc, Rinv_l by lra. lra.
Qed.

Lemma rho_pow_ge_1 k : 1 <= rho ^ k.
Proof. apply pow_R1_Rle. left. exact rho_gt_1. Qed.

Lemma rho_pow_pos k : 0 < rho ^ k.
Proof. pose proof (rho_pow_ge_1 k). lra. Qed.

Lemma rho_upper : rho <= 1 + 8 / 10 ^ 28.
Proof.
  unfold rho, u_div. apply Rmult_le_reg_r with (1 - 7 / 10 ^ 28); [lra|].
  unfold Rdiv at 1. rewrite Rmult_assoc, Rinv_l by lra. lra.
Qed.

Lemma band_refl x : band 0 x x.
Proof. exists 1. simpl. split; [ring|]. rewrite Rinv_1. lra. Qed.

Lemma band_pos k x y : band k x y -> exists t, x = y * t /\ 0 < t /\ / rho ^ k <= t <= rho ^ k.
Proof.
  intros (t & E & H). exists t. repeat split; try tauto.
  pose proof (Rinv_0_lt_compat _ (rho_pow_pos k)). lra.
Qed.

Lemma band_mul j k x X y Y : band j x X -> band k y Y -> band (j + k) (x * y) (X * Y).
Proof.
  intros (t1 & E1 & H1) (t2 & E2 & H2). exists (t1 * t2). split; [subst; ring|].
  rewrite pow_add. rewrite Rinv_mult.
  pose proof (Rinv_0_lt_compat _ (rho_pow_pos j)).
  pose proof (Rinv_0_lt_compat _ (rho_pow_pos k)).
  pose proof (rho_pow_pos j). pose proof (rho_pow_pos k).
  split; apply Rmult_le_compat; lra.
Qed.

Lemma band_inv k y Y : band k y Y -> band k (/ y) (/ Y).
Proof.
  intros H. destruct (band_pos _ _ _ H) as (t & E & Ht & H1 & H2).
  exists (/ t). split.
  - subst. rewrite Rinv_mult. reflexivity.
  - pose proof (rho_pow_pos k) as Hp. split.
    + apply Rinv_le_contravar; assumption.
    + rewrite <- (Rinv_inv (rho ^ k)). apply Rinv_le_contravar; [|assumption].
      apply Rinv_0_lt_compat. assumption.
Qed.

Lemma band_div j k x X y Y : band j x X -> band k y Y -> band (j + k) (x / y) (X / Y).
Proof. intros Hx Hy. apply band_mul; [assumption|apply band_inv; assumption]. Qed.

Lemma band_trans j k x y z : band j x y -> band k y z -> band (j + k) x z.
Proof.
  intros (t1 & E1 & H1) (t2 & E2 & H2). exists (t2 * t1). split; [subst; ring|].
  rewrite pow_add, Rinv_mult.
  pose proof (Rinv_0_lt_compat _ (rho_pow_pos j)).
  pose proof (Rinv_0_lt_compat _ (rho_pow_pos k)).
  pose proof (rho_pow_pos j). pose proof (rho_pow_pos k).
  rewrite (Rmult_comm (/ rho ^ j)), (Rmult_comm (rho ^ j)).
  split; apply Rmult_le_compat; lra.
Qed.

Lemma band_sym k x y : band k x y -> band k y x.
Proof.
  intros H. destruct (band_pos _ _ _ H) as (t & E & Ht & H1 & H2).
  exists (/ t). split.
  - subst. field. lra.
  - pose proof (rho_pow_pos k) as Hp. split.
    + apply Rinv_le_contravar; assumption.
    + rewrite <- (Rinv_inv (rho ^ k)). apply Rinv_le_contravar; [|assumption].
      apply Rinv_0_lt_compat. assumption.
Qed.

Lemma band_weaken j k x y : band j x y -> (j <= k)%nat -> band k x y.
Proof.
  intros (t & E & H1 & H2) Hjk. exists t. split; [assumption|].
  assert (Hle : rho ^ j <= rho ^ k).
  { apply Rle_pow; [left; exact rho_gt_1 | assumption]. }
  pose proof (rho_pow_pos j). split; [|lra].
  apply Rle_trans with (/ rho ^ j); [|assumption].
  apply Rinv_le_contravar; assumption.
Qed.

Lemma Rabs_le_bounds a b : Rabs a <= b -> - b <= a <= b.
Proof. unfold Rabs. destruct (Rcase_abs a); lra. Qed.

(** A relative error of at most [u_div] is one rounding. *)
Lemma rel_band eps x y : rel eps x y -> eps <= u_div -> band 1 x y.
Proof.
  intros H He. unfold rel in H.
  assert (Hr : / rho ^ 1 = 1 - u_div).
  { simpl. rewrite Rmult_1_r. unfold rho. unfold Rdiv. rewrite Rmult_1_l, Rinv_inv. reflexivity. }
  assert (Hr' : 1 + u_div <= rho ^ 1).
  { simpl. rewrite Rmult_1_r. unfold rho.
    apply Rmult_le_reg_r with (1 - u_div); [unfold u_div; lra|].
    unfold Rdiv. rewrite Rmult_assoc, Rinv_l by (unfold u_div; lra). unfold u_div. nra. }
  destruct (Req_dec y 0) as [->|Hy].
  - rewrite Rabs_R0, Rmult_0_r, Rminus_0_r in H.
    assert (x = 0).
    { destruct (Req_dec x 0) as [|Hx]; [assumption|].
      apply Rabs_pos_lt in Hx. lra. }
    subst. exists 1. split; [ring|]. pose proof (rho_pow_ge_1 1).
    rewrite Hr. unfold u_div. lra.
  - exists (x / y). split; [field; assumption|].
    assert (Hq : Rabs (x / y - 1) <= eps).
    { replace (x / y - 1) with ((x - y) * / y) by (field; assumption).
      rewrite Rabs_mult, Rabs_inv.
      assert (0 < Rabs y) by (apply Rabs_pos_lt; assumption).
      apply Rmult_le_reg_r with (Rabs y); [assumption|].
      rewrite Rmult_assoc, Rinv_l by lra. lra. }
    apply Rabs_le_bounds in Hq. rewrite Hr. lra.
Qed.

(** What a band says about the difference. *)
Lemma band_diff k x y : band k x y -> Rabs (x - y) <= (rho ^ k - 1) * Rabs y.
Proof.
  intros H. destruct (band_pos _ _ _ H) as (t & E & Ht & H1 & H2). subst.
  replace (y * t - y) with (y * (t - 1)) by ring.
  rewrite Rabs_mult, Rmult_comm. apply Rmult_le_compat_r; [apply Rabs_pos|].
  apply Rabs_le. pose proof (rho_pow_ge_1 k) as Hp. split; [|lra].
  assert (/ rho ^ k >= 2 - rho ^ k).
  { assert (Hi : rho ^ k * / rho ^ k = 1) by (apply Rinv_r; lra).
    assert (0 < / rho ^ k) by (apply Rinv_0_lt_compat; lra). nra. }
  lra.
Qed.

Lemma band_abs k x y : band k x y -> / rho ^ k * Rabs y <= Rabs x <= rho ^ k * Rabs y.
Proof.
  intros H. destruct (band_pos _ _ _ H) as (t & E & Ht & H1 & H2). subst.
  rewrite Rabs_mult, (Rabs_pos_eq t) by lra. pose proof (Rabs_pos y). split; nra.
Qed.

Lemma band_zero k x y : band k x y -> y = 0 -> x = 0.
Proof. intros (t & E & _) ->. rewrite E. ring. Qed.

(** Ten roundings stay within [1e-26]. *)
Lemma rho_pow_10 : rho ^ 10 <= 1 + 1 / 10 ^ 26.
Proof.
  apply Rle_trans with ((1 + 8 / 10 ^ 28) ^ 10).
  - apply pow_incr. pose proof rho_gt_1. pose proof rho_upper. lra.
  - lra.
Qed.

(** ** Magnitudes *)

Lemma mag_mul n m x y : mag n x -> mag m y -> mag (n + m) (x * y).
Proof.
  intros [->|[H1 H2]] Hy; [left; ring|].
  destruct Hy as [->|[H3 H4]]; [left; ring|]. right.
  rewrite Rabs_mult. replace (- (n + m))%Z with (- n + - m)%Z by lia. rewrite !p10_add.
  pose proof (p10_pos (- n)). pose proof (p10_pos (- m)).
  split; apply Rmult_le_compat; lra.
Qed.

Lemma mag_inv m y : mag m y -> mag m (/ y).
Proof.
  intros [->|[H1 H2]]; [left; apply Rinv_0|]. right.
  rewrite Rabs_inv. pose proof (p10_pos (- m)). pose proof (p10_pos m).
  rewrite p10_neg in *. split.
  - apply Rinv_le_contravar; lra.
  - rewrite <- (Rinv_inv (p10 m)). apply Rinv_le_contravar; lra.
Qed.

Lemma mag_div n m x y : mag n x -> mag m y -> mag (n + m) (x / y).
Proof. intros Hx Hy. apply mag_mul; [assumption|apply mag_inv; assumption]. Qed.

Lemma mag_weaken n m x : mag n x -> (n <= m)%Z -> mag m x.
Proof.
  intros [->|[H1 H2]] Hnm; [left; reflexivity|]. right.
  pose proof (p10_le (- m) (- n) ltac:(lia)). pose proof (p10_le n m Hnm). lra.
Qed.

Lemma mag_one : mag 0 1.
Proof. right. rewrite Rabs_R1. change (p10 (- 0)) with 1. change (p10 0) with 1. lra. Qed.

Lemma moderate_mag d : moderate d -> mag 100000 (val d).
Proof.
  intros [Hz|[Hlo Hhi]]; [left; apply val_zero; assumption|].
  destruct (N.eq_dec (dint d) 0) as [Hz|Hnz]; [left; apply val_zero; assumption|].
  right. pose proof (val_decade d ltac:(lia)) as [H1 H2].
  pose proof (p10_le (- (100000)) (adjusted d) Hlo).
  pose proof (p10_le (adjusted d + 1) 100000 ltac:(lia)). lra.
Qed.

Lemma rho_pow_small k : (k <= 10)%nat -> rho ^ k <= 2.
Proof.
  intros Hk. apply Rle_trans with (rho ^ 10).
  - apply Rle_pow; [left; exact rho_gt_1 | assumption].
  - pose proof rho_pow_10. lra.
Qed.

(** A value within ten roundings of a non-zero magnitude below [10^999990]
    is far from the subnormal range. *)
Lemma band_normal k n x X :
  band k x X -> mag n X -> (k <= 10)%nat -> (n <= 999990)%Z ->
  x = 0 \/ p10 (Emin + 1) <= Rabs x.
Proof.
  intros Hb [->|[Hlo _]] Hk Hn; [left; apply (band_zero _ _ _ Hb); reflexivity|].
  right. pose proof (band_abs _ _ _ Hb) as [H1 _].
  pose proof (rho_pow_small k Hk) as Hr. pose proof (rho_pow_ge_1 k) as Hr1.
  assert (Hi : / 2 <= / rho ^ k) by (apply Rinv_le_contravar; lra).
  pose proof (p10_le (Emin + 2) (- n) ltac:(unfold Emin; lia)) as Hp.
  replace (Emin + 2)%Z with (1 + (Emin + 1))%Z in Hp by lia. rewrite p10_add in Hp.
  change (p10 1) with (10 * 1) in Hp. pose proof (p10_pos (Emin + 1)).
  pose proof (Rabs_pos X). nra.
Qed.

Lemma mul_band a b c j k n X Y :
  mul a b = Ok c ->
  band j (val a) X -> band k (val b) Y -> mag n (X * Y) ->
  (j + k <= 10)%nat -> (n <= 999990)%Z ->
  band (S (j + k)) (val c) (X * Y).
Proof.
  intros Hm Ha Hb Hn Hjk Hle.
  pose proof (band_mul _ _ _ _ _ _ Ha Hb) as Hab.
  assert (Hv : val a * val b = 0 \/ p10 Emin <= Rabs (val a * val b)).
  { destruct (band_normal _ _ _ _ Hab Hn Hjk Hle) as [H|H]; [left; assumption|right].
    pose proof (p10_le Emin (Emin + 1) ltac:(lia)). lra. }
  pose proof (mul_val a b c Hm Hv) as Hrel.
  apply (band_trans 1 (j + k) _ (val a * val b)); [|assumption].
  apply (rel_band _ _ _ Hrel). unfold u_fix, u_div. lra.
Qed.

Lemma div_band a b c j k n X Y :
  div a b = Ok c ->
  band j (val a) X -> band k (val b) Y -> mag n (X / Y) ->
  (j + k <= 10)%nat -> (n <= 999990)%Z ->
  Y <> 0 /\ band (S (j + k)) (val c) (X / Y).
Proof.
  intros Hd Ha Hb Hn Hjk Hle.
  pose proof (band_div _ _ _ _ _ _ Ha Hb) as Hab.
  assert (Hv : val a = 0 \/ p10 (Emin + 1) <= Rabs (val a / val b)).
  { destruct (band_normal _ _ _ _ Hab Hn Hjk Hle) as [H|H]; [|right; assumption].
    left. destruct (Req_dec (val a) 0) as [|Hna]; [assumption|exfalso].
    assert (Hb0 : val b <> 0).
    { unfold div in Hd. rewrite val_zero_iff.
      destruct (N.eqb_spec (dint b) 0); [|assumption].
      destruct (dint a =? 0)%N; discriminate. }
    unfold Rdiv in H. apply Rmult_integral in H. destruct H as [H|H]; [contradiction|].
    apply (Rinv_neq_0_compat _ Hb0). assumption. }
  destruct (div_val a b c Hd Hv) as [Hb0 Hrel]. split.
  - intros HY. apply Hb0. apply (band_zero _ _ _ Hb HY).
  - apply (band_trans 1 (j + k) _ (val a / val b)); [|assumption].
    apply (rel_band _ _ _ Hrel). lra.
Qed.

Local Close Scope R_scope.

(** ** Converted amount against amount times rate *)

Local Open Scope R_scope.

Lemma truth_val o d : truth o = Some d -> o = Some d /\ val d <> 0.
Proof.
  intros H. apply truth_Some_iff in H as [-> Hd]. split; [reflexivity|].
  rewrite val_zero_iff. assumption.
Qed.

Lemma val_one : val one = 1.
Proof. unfold val, one. simpl. lra. Qed.

Section QuotedProduct.
Variables (basket prices : gmap string Decimal).
Variable pair_rate : string -> string -> option Decimal.
Variables (F T : string) (amount : Decimal).
Hypothesis Hamount : moderate amount.
Hypothesis Hbasket : moderate_map basket.
Hypothesis Hprices : moderate_map prices.
Hypothesis Hpair_rate : forall base quote y, pair_rate base quote = Some y -> moderate y.

Lemma mag_amount : mag level (val amount).
Proof. apply moderate_mag, Hamount. Qed.

Lemma mag_price k p : truth (prices !! k) = Some p -> mag level (val p) /\ val p <> 0.
Proof.
  intros H. apply truth_val in H as [H Hv]. split; [|assumption].
  apply moderate_mag. eapply Hprices; eassumption.
Qed.

Lemma mag_pair b q y : truth (pair_rate b q) = Some y -> mag level (val y) /\ val y <> 0.
Proof.
  intros H. apply truth_val in H as [H Hv]. split; [|assumption].
  apply moderate_mag. eapply Hpair_rate; eassumption.
Qed.

Lemma mag_basket k v : basket !! k = Some v -> mag level (val v).
Proof. intros H. apply moderate_mag. eapply Hbasket; eassumption. Qed.

(** The converted amount and [amount * rate] are the same real value up to
    eight roundings. *)
Lemma quoted_product via rate converted product :
  quoted basket prices pair_rate F T amount via rate converted ->
  mul amount rate = Ok product ->
  band 8 (val converted) (val product).
Proof.
  pose proof mag_amount as MA.
  pose proof (band_refl (val amount)) as BA.
  intros Hq Hm. destruct Hq.
  - (* direct *)
    rewrite H2 in Hm. injection Hm as <-. apply (band_weaken 0); [apply band_refl|lia].
  - (* USDT *)
    destruct (mag_price _ _ H2) as [Mf Nf]. destruct (mag_price _ _ H3) as [Mt Nt].
    pose proof (band_refl (val from_usd)) as Bf. pose proof (band_refl (val to_usd)) as Bt.
    pose proof (mul_band _ _ _ _ _ (level + level) _ _ H4 BA Bf ltac:(apply mag_mul; assumption)
                  ltac:(lia) ltac:(unfold level; lia)) as B1.
    destruct (div_band _ _ _ _ _ (level + level + level) _ _ H5 B1 Bt
                ltac:(apply mag_div; [apply mag_mul|]; assumption)
                ltac:(simpl; lia) ltac:(unfold level; lia)) as [_ B2].
    destruct (div_band _ _ _ _ _ (level + level) _ _ H6 Bf Bt ltac:(apply mag_div; assumption)
                ltac:(lia) ltac:(unfold level; lia)) as [_ B3].
    pose proof (mul_band _ _ _ _ _ (level + (level + level)) _ _ Hm BA B3
                  ltac:(apply mag_mul; [|apply mag_div]; assumption)
                  ltac:(simpl; lia) ltac:(unfold level; lia)) as B4.
    replace (val amount * val from_usd / val to_usd)
      with (val amount * (val from_usd / val to_usd)) in B2 by (unfold Rdiv; ring).
    apply band_sym in B4.
    eapply band_weaken; [eapply band_trans; eassumption|simpl; lia].
  - (* binance *)
    rewrite H3 in Hm. injection Hm as <-. apply (band_weaken 0); [apply band_refl|lia].
  - (* binance+yahoo *)
    destruct (mag_price _ _ H2) as [Mp Np]. destruct (mag_pair _ _ _ H3) as [My Ny].
    pose proof (band_refl (val price)) as Bp. pose proof (band_refl (val yahoo_rate)) as By.
    pose proof (mul_band _ _ _ _ _ (level + level) _ _ H4 BA Bp ltac:(apply mag_mul; assumption)
                  ltac:(lia) ltac:(unfold level; lia)) as B1.
    pose proof (mul_band _ _ _ _ _ (level + level + level) _ _ H5 B1 By
                  ltac:(apply mag_mul; [apply mag_mul|]; assumption)
                  ltac:(simpl; lia) ltac:(unfold level; lia)) as B2.
    pose proof (mul_band _ _ _ _ _ (level + level) _ _ H6 Bp By ltac:(apply mag_mul; assumption)
                  ltac:(lia) ltac:(unfold level; lia)) as B3.
    pose proof (mul_band _ _ _ _ _ (level + (level + level)) _ _ Hm BA B3
                  ltac:(apply mag_mul; [|apply mag_mul]; assumption)
                  ltac:(simpl; lia) ltac:(unfold level; lia)) as B4.
    replace (val amount * val price * val yahoo_rate)
      with (val amount * (val price * val yahoo_rate)) in B2 by ring.
    apply band_sym in B4.
    eapply band_weaken; [eapply band_trans; eassumption|simpl; lia].
  - (* binance+ecb *)
    destruct (mag_price _ _ H1) as [Mp Np].
    pose proof (mag_basket _ _ H3) as Mu. pose proof (mag_basket _ _ H4) as Mt.
    pose proof (band_refl (val price)) as Bp. pose proof (band_refl (val usd)) as Bu.
    pose proof (band_refl (val to_rate)) as Bt. pose proof (band_refl (val one)) as B1'.
    assert (M1 : mag 0 (val one)) by (rewrite val_one; apply mag_one).
    pose proof (mul_band _ _ _ _ _ (level + level) _ _ H5 BA Bp ltac:(apply mag_mul; assumption)
                  ltac:(lia) ltac:(unfold level; lia)) as Bua.
    destruct (div_band _ _ _ _ _ (0 + level) _ _ H6 B1' Bu ltac:(apply mag_div; assumption)
                ltac:(lia) ltac:(unfold level; lia)) as [_ Bue].
    pose proof (mul_band _ _ _ _ _ (level + level + (0 + level)) _ _ H7 Bua Bue
                  ltac:(apply mag_mul; [apply mag_mul|apply mag_div]; assumption)
                  ltac:(simpl; lia) ltac:(unfold level; lia)) as Bea.
    pose proof (mul_band _ _ _ _ _ (level + level + (0 + level) + level) _ _ H8 Bea Bt
                  ltac:(apply mag_mul; [apply mag_mul; [apply mag_mul|apply mag_div]|];
                        assumption)
                  ltac:(simpl; lia) ltac:(unfold level; lia)) as Bc.
    pose proof (mul_band _ _ _ _ _ (level + (0 + level)) _ _ H9 Bp Bue
                  ltac:(apply mag_mul; [|apply mag_div]; assumption)
                  ltac:(simpl; lia) ltac:(unfold level; lia)) as Br0.
    pose proof (mul_band _ _ _ _ _ (level + (0 + level) + level) _ _ H10 Br0 Bt
                  ltac:(apply mag_mul; [apply mag_mul; [|apply mag_div]|]; assumption)
                  ltac:(simpl; lia) ltac:(unfold level; lia)) as Br.
    pose proof (mul_band _ _ _ _ _ (level + (level + (0 + level) + level)) _ _ Hm BA Br
                  ltac:(apply mag_mul; [|apply mag_mul; [apply mag_mul; [|apply mag_div]|]];
                        assumption)
                  ltac:(simpl; lia) ltac:(unfold level; lia)) as Bp'.
    replace (val amount * val price * (val one / val usd) * val to_rate)
      with (val amount * (val price * (val one / val usd) * val to_rate)) in Bc by ring.
    apply band_sym in Bp'.
    eapply band_weaken; [eapply band_trans; eassumption|simpl; lia].
  - (* yahoo+binance *)
    destruct (mag_price _ _ H1) as [Mp Np]. destruct (mag_pair _ _ _ H2) as [My Ny].
    pose proof (band_refl (val price)) as Bp. pose proof (band_refl (val yahoo_rate)) as By.
    pose proof (mul_band _ _ _ _ _ (level + level) _ _ H3 BA By ltac:(apply mag_mul; assumption)
                  ltac:(lia) ltac:(unfold level; lia)) as Bu.
    destruct (div_band _ _ _ _ _ (level + level + level) _ _ H4 Bu Bp
                ltac:(apply mag_div; [apply mag_mul|]; assumption)
                ltac:(simpl; lia) ltac:(unfold level; lia)) as [_ Bc].
    pose proof (mul_band _ _ _ _ _ (level + level) _ _ H5 BA Bp ltac:(apply mag_mul; assumption)
                  ltac:(lia) ltac:(unfold level; lia)) as Bd.
    destruct (div_band _ _ _ _ _ (level + level + (level + level)) _ _ H6 Bu Bd
                ltac:(apply mag_div; apply mag_mul; assumption)
                ltac:(simpl; lia) ltac:(unfold level; lia)) as [Nd Br].
    pose proof (mul_band _ _ _ _ _ (level + (level + level + (level + level))) _ _ Hm BA Br
                  ltac:(apply mag_mul; [assumption|apply mag_div; apply mag_mul; assumption])
                  ltac:(simpl; lia) ltac:(unfold level; lia)) as Bp'.
    assert (Na : val amount <> 0) by (intros E; apply Nd; rewrite E; ring).
    replace (val amount * (val amount * val yahoo_rate / (val amount * val price)))
      with (val amount * val yahoo_rate / val price) in Bp' by (field; auto).
    apply band_sym in Bp'.
    eapply band_weaken; [eapply band_trans; eassumption|simpl; lia].
  - (* ecb+binance *)
    destruct (mag_price _ _ H1) as [Mp Np].
    pose proof (mag_basket _ _ H) as Mf. pose proof (mag_basket _ _ H3) as Mu.
    pose proof (band_refl (val price)) as Bp. pose proof (band_refl (val from_rate)) as Bf.
    pose proof (band_refl (val usd)) as Bus.
    destruct (div_band _ _ _ _ _ (level + level) _ _ H4 BA Bf ltac:(apply mag_div; assumption)
                ltac:(lia) ltac:(unfold level; lia)) as [Nf Be].
    pose proof (mul_band _ _ _ _ _ (level + level + level) _ _ H5 Be Bus
                  ltac:(apply mag_mul; [apply mag_div|]; assumption)
                  ltac:(simpl; lia) ltac:(unfold level; lia)) as Bu.
    destruct (div_band _ _ _ _ _ (level + level + level + level) _ _ H6 Bu Bp
                ltac:(apply mag_div; [apply mag_mul; [apply mag_div|]|]; assumption)
                ltac:(simpl; lia) ltac:(unfold level; lia)) as [_ Bc].
    pose proof (mul_band _ _ _ _ _ (level + level) _ _ H7 BA Bp ltac:(apply mag_mul; assumption)
                  ltac:(lia) ltac:(unfold level; lia)) as Bd.
    destruct (div_band _ _ _ _ _ (level + level + level + (level + level)) _ _ H8 Bu Bd
                ltac:(apply mag_div; [apply mag_mul; [apply mag_div|]|apply mag_mul];
                      assumption)
                ltac:(simpl; lia) ltac:(unfold level; lia)) as [Nd Br].
    pose proof (mul_band _ _ _ _ _ (level + (level + level + level + (level + level))) _ _ Hm BA Br
                  ltac:(apply mag_mul; [assumption|];
                        apply mag_div; [apply mag_mul; [apply mag_div|]|apply mag_mul];
                        assumption)
                  ltac:(simpl; lia) ltac:(unfold level; lia)) as Bp'.
    assert (Na : val amount <> 0) by (intros E; apply Nd; rewrite E; ring).
    replace (val amount * (val amount / val from_rate * val usd / (val amount * val price)))
      with (val amount / val from_rate * val usd / val price) in Bp' by (field; auto).
    apply band_sym in Bp'.
    eapply band_weaken; [eapply band_trans; eassumption|simpl; lia].
  - (* yahoo *)
    rewrite H2 in Hm. injection Hm as <-. apply (band_weaken 0); [apply band_refl|lia].
  - (* ecb *)
    pose proof (mag_basket _ _ H) as Mf. pose proof (mag_basket _ _ H0) as Mt.
    pose proof (band_refl (val from_rate)) as Bf. pose proof (band_refl (val to_rate)) as Bt.
    destruct (div_band _ _ _ _ _ (level + level) _ _ H2 BA Bf ltac:(apply mag_div; assumption)
                ltac:(lia) ltac:(unfold level; lia)) as [Nf Be].
    pose proof (mul_band _ _ _ _ _ (level + level + level) _ _ H3 Be Bt
                  ltac:(apply mag_mul; [apply mag_div|]; assumption)
                  ltac:(simpl; lia) ltac:(unfold level; lia)) as Bc.
    destruct (div_band _ _ _ _ _ (level + level) _ _ H4 Bt Bf ltac:(apply mag_div; assumption)
                ltac:(lia) ltac:(unfold level; lia)) as [_ Br].
    pose proof (mul_band _ _ _ _ _ (level + (level + level)) _ _ Hm BA Br
                  ltac:(apply mag_mul; [|apply mag_div]; assumption)
                  ltac:(simpl; lia) ltac:(unfold level; lia)) as Bp'.
    replace (val amount / val from_rate * val to_rate)
      with (val amount * (val to_rate / val from_rate)) in Bc by (unfold Rdiv; ring).
    apply band_sym in Bp'.
    eapply band_weaken; [eapply band_trans; eassumption|simpl; lia].
Qed.

End QuotedProduct.

Lemma val_units d : val d = IZR (units d) * p10 (dexp d).
Proof.
  unfold val, units. destruct (dsign d); simpl; [rewrite opp_IZR|]; ring.
Qed.

Lemma units_abs d : Z.abs (units d) = Z.of_N (dint d).
Proof. unfold units. destruct (dsign d); lia. Qed.

Lemma rho_pow_10_tight : rho ^ 10 <= 1 + 9 / 10 ^ 27.
Proof.
  apply Rle_trans with ((1 + 8 / 10 ^ 28) ^ 10).
  - apply pow_incr. pose proof rho_gt_1. pose proof rho_upper. lra.
  - lra.
Qed.

Lemma rho_pow_le_10 k : (k <= 10)%nat -> rho ^ k <= 1 + 9 / 10 ^ 27.
Proof.
  intros Hk. apply Rle_trans with (rho ^ 10); [|exact rho_pow_10_tight].
  apply Rle_pow; [left; exact rho_gt_1 | assumption].
Qed.

(** What [quantize] to 8 places does to the value. *)
Lemma quantize_value d q :
  quantize d (-8) = Ok q ->
  dexp q = (-8)%Z /\ Rabs (val q - val d) <= p10 (-8) / 2
  /\ (Z.abs (units q) < 10 ^ 28)%Z.
Proof.
  intros H. destruct (quantize_val d q H) as [-> Hlt].
  destruct (rescale_val d (-8)) as (He & _ & Herr).
  rewrite units_abs. auto.
Qed.

Lemma IZR_abs_le_1 z : Rabs (IZR z) < 2 -> (Z.abs z <= 1)%Z.
Proof.
  intros H. rewrite <- abs_IZR in H. apply lt_IZR in H. lia.
Qed.

(** Two values within ten roundings of each other, quantized to 8 places:
    the results differ by at most 100 units of the last place, and by at
    most one unit when they are below [10^17]. *)
Lemma quantized_close k c p qc qp :
  band k (val c) (val p) -> (k <= 10)%nat ->
  quantize c (-8) = Ok qc -> quantize p (-8) = Ok qp ->
  (Z.abs (units qc - units qp) <= 100)%Z
  /\ ((Z.abs (units qc) <= 10 ^ 25)%Z -> (Z.abs (units qc - units qp) <= 1)%Z).
Proof.
  intros Hb Hk Hc Hp.
  destruct (quantize_value _ _ Hc) as (Ec & Hec & Hlc).
  destruct (quantize_value _ _ Hp) as (Ep & Hep & _).
  pose proof (band_diff _ _ _ (band_sym _ _ _ Hb)) as Hd.
  pose proof (rho_pow_le_10 k Hk) as Hr. pose proof (rho_pow_ge_1 k) as Hr1.
  rewrite (val_units qc), Ec in Hec. rewrite (val_units qp), Ep in Hep.
  set (h := p10 (-8)) in *. assert (Hh : 0 < h) by apply p10_pos.
  set (Uc := IZR (units qc)) in *. set (Up := IZR (units qp)) in *.
  (* |val c| is at most (|Uc| + 1/2) h *)
  assert (Hvc : Rabs (val c) <= (Rabs Uc + 1 / 2) * h).
  { pose proof (Rabs_triang_inv (val c) (Uc * h)) as Ht.
    rewrite (Rabs_minus_sym (val c)) in Ht.
    rewrite Rabs_mult, (Rabs_pos_eq h) in Ht by lra. lra. }
  assert (Hdiff : Rabs (Uc - Up) * h <= h + 9 / 10 ^ 27 * ((Rabs Uc + 1 / 2) * h)).
  { replace (Rabs (Uc - Up) * h) with (Rabs (Uc * h - Up * h))
      by (rewrite <- Rmult_minus_distr_r, Rabs_mult, (Rabs_pos_eq h) by lra; reflexivity).
    replace (Uc * h - Up * h)
      with ((Uc * h - val c) + (val c - val p) + (val p - Up * h)) by ring.
    pose proof (Rabs_triang ((Uc * h - val c) + (val c - val p)) (val p - Up * h)).
    pose proof (Rabs_triang (Uc * h - val c) (val c - val p)).
    rewrite (Rabs_minus_sym (val p) (Up * h)) in *.
    rewrite (Rabs_minus_sym (val c) (val p)) in *.
    pose proof (Rabs_pos (val c)). nra. }
  assert (Hdiff' : Rabs (Uc - Up) <= 1 + 9 / 10 ^ 27 * (Rabs Uc + 1 / 2)).
  { apply Rmult_le_reg_r with h; [assumption|]. lra. }
  assert (HUc : Rabs Uc < 10 ^ 28).
  { unfold Uc. rewrite <- abs_IZR.
    apply IZR_lt in Hlc. change (10 ^ 28)%Z with 10000000000000000000000000000%Z in Hlc.
    lra. }
  unfold Uc, Up in Hdiff'. rewrite <- minus_IZR in Hdiff'. fold Uc in Hdiff'.
  split.
  - assert (Hlt : Rabs (IZR (units qc - units qp)) < 101) by lra.
    rewrite <- abs_IZR in Hlt. apply lt_IZR in Hlt. lia.
  - intros Hsmall. apply IZR_abs_le_1.
    assert (Rabs Uc <= 10 ^ 25).
    { unfold Uc. rewrite <- abs_IZR. apply IZR_le in Hsmall.
      change (10 ^ 25)%Z with 10000000000000000000000000%Z in Hsmall. lra. }
    lra.
Qed.

Local Close Scope R_scope.

(** ** Reading a formatted field back *)

Lemma read_digits_app acc s1 s2 :
  read_digits acc (s1 +:+ s2) = read_digits (read_digits acc s1) s2.
Proof.
  revert acc. induction s1 as [|c s1 IH]; intros acc; simpl; [reflexivity|].
  destruct (digit_of c); apply IH.
Qed.

Lemma digit_of_digit_char d : (d < 10)%N -> digit_of (digit_char d) = Some d.
Proof.
  intros Hd. unfold digit_of, digit_char.
  rewrite N_ascii_embedding by lia.
  destruct (N.leb_spec 48 (48 + d)); [|lia].
  destruct (N.leb_spec (48 + d) 57); [|lia]. simpl. f_equal. lia.
Qed.

Lemma digit_char_not_minus d : (d < 10)%N -> digit_char d <> "-"%char.
Proof.
  intros Hd E. apply (f_equal N_of_ascii) in E. unfold digit_char in E.
  rewrite N_ascii_embedding in E by lia. simpl in E. lia.
Qed.

Lemma read_digits_zeros acc n : read_digits 0 (zeros n +:+ acc) = read_digits 0 acc.
Proof. induction n as [|n IH]; simpl; [reflexivity|exact IH]. Qed.

(** [str_fuel] writes the digits of [n] in front of [acc]. *)
Lemma read_str_fuel fuel n acc a :
  Z.of_N n < 2 ^ Z.of_nat fuel ->
  exists k, read_digits a (str_fuel (S fuel) n acc) = read_digits (a * 10 ^ k + n) acc.
Proof.
  revert n acc a. induction fuel as [|fuel IH]; intros n acc a Hn.
  - simpl in Hn. assert (n = 0%N) by lia. subst. exists 1%N. simpl.
    f_equal. lia.
  - change (str_fuel (S (S fuel)) n acc)
      with (let acc' := String (digit_char (n mod 10)) acc in
            if (n <? 10)%N then acc' else str_fuel (S fuel) (n / 10) acc').
    cbv zeta.
    assert (Hm : (n mod 10 < 10)%N) by (apply N.mod_lt; discriminate).
    destruct (N.ltb_spec n 10) as [Hlt|Hge].
    + exists 1%N. simpl. rewrite digit_of_digit_char by assumption.
      rewrite N.mod_small by assumption. f_equal. lia.
    + assert (Hq : Z.of_N (n / 10) < 2 ^ Z.of_nat fuel).
      { rewrite Nat2Z.inj_succ, Z.pow_succ_r in Hn by lia.
        rewrite N2Z.inj_div. change (Z.of_N 10) with 10.
        apply Z.div_lt_upper_bound; lia. }
      destruct (IH (n / 10)%N (String (digit_char (n mod 10)) acc) a Hq) as [k Hk].
      exists (N.succ k). rewrite Hk. simpl. rewrite digit_of_digit_char by assumption.
      f_equal. rewrite N.pow_succ_r'. pose proof (N.div_mod n 10 ltac:(discriminate)). lia.
Qed.

Lemma str_fuel_head fuel n acc :
  exists d rest, str_fuel (S fuel) n acc = String (digit_char d) rest /\ (d < 10)%N.
Proof.
  revert n acc. induction fuel as [|fuel IH]; intros n acc.
  - simpl. assert (Hm : (n mod 10 < 10)%N) by (apply N.mod_lt; discriminate).
    destruct (n <? 10)%N; eauto.
  - change (str_fuel (S (S fuel)) n acc)
      with (let acc' := String (digit_char (n mod 10)) acc in
            if (n <? 10)%N then acc' else str_fuel (S fuel) (n / 10) acc').
    cbv zeta. assert (Hm : (n mod 10 < 10)%N) by (apply N.mod_lt; discriminate).
    destruct (n <? 10)%N; [eauto|apply IH].
Qed.

Lemma N_size_bound n : Z.of_N n < 2 ^ Z.of_nat (N.size_nat n).
Proof.
  destruct n as [|p]; [reflexivity|]. simpl. apply Zpower2_Psize. lia.
Qed.

Lemma read_str_N n : read_digits 0 (str_N n) = n.
Proof.
  unfold str_N. destruct (read_str_fuel (N.size_nat n) n "" 0 (N_size_bound n)) as [k Hk].
  rewrite Hk. simpl. lia.
Qed.

Lemma str_N_head n : exists d rest, str_N n = String (digit_char d) rest /\ (d < 10)%N.
Proof. apply str_fuel_head. Qed.

Lemma substring_full s : substring 0 (String.length s) s = s.
Proof. induction s as [|c s IH]; simpl; [reflexivity|]. f_equal. exact IH. Qed.

Lemma str_take_drop k s : (k <= String.length s)%nat -> str_take k s +:+ str_drop k s = s.
Proof.
  unfold str_take, str_drop. revert k. induction s as [|c s IH]; intros k Hk.
  - destruct k; [reflexivity|simpl in Hk; lia].
  - destruct k as [|k].
    + rewrite Nat.sub_0_r, substring_full. reflexivity.
    + simpl in Hk.
      change (String c (substring 0 k s +:+ substring k (String.length s - k) s) = String c s).
      f_equal. apply IH. lia.
Qed.

Lemma str_take_head k c s : (0 < k)%nat -> exists rest, str_take k (String c s) = String c rest.
Proof. unfold str_take. destruct k; [lia|]. simpl. eauto. Qed.

(** Reading back what [format] printed for a decimal with exponent -8. *)
Lemma read8_format_f q : dexp q = -8 -> read8 (format_f q) = q.
Proof.
  destruct q as [s c e]. simpl. intros ->. unfold format_f. cbv zeta.
  change (0 <? -8) with false. rewrite andb_false_r.
  cbn [dint dexp dsign].
  destruct (str_N_head c) as (d0 & rest & Hhead & Hd0).
  pose proof (read_str_N c) as Hread.
  set (digits := str_N c) in *.
  set (len := Z.of_nat (String.length digits)).
  destruct (Z.ltb_spec (-8 + len) 0) as [Hneg|Hpos].
  - (* fewer than 8 digits *)
    cbv iota beta. unfold read8. f_equal.
    + destruct s; reflexivity.
    + rewrite !read_digits_app.
      replace (read_digits 0 (if s then "-" else ""))%string with 0%N by (destruct s; reflexivity).
      change (read_digits 0 "0") with 0%N.
      destruct (String.eqb_spec (zeros (Z.to_nat (- (-8 + len))) +:+ digits) "") as [E|E].
      * rewrite <- Hread. apply (f_equal (read_digits 0)) in E.
        rewrite read_digits_zeros in E. simpl in *. congruence.
      * rewrite read_digits_app. change (read_digits 0 ".") with 0%N.
        rewrite read_digits_zeros. exact Hread.
  - destruct (Z.ltb_spec len (-8 + len)) as [|_]; [lia|].
    cbv iota beta.
    set (k := Z.to_nat (-8 + len)).
    assert (Hk : (k <= String.length digits)%nat) by (unfold k, len; lia).
    pose proof (str_take_drop k digits Hk) as Htd.
    set (i := str_take k digits) in *. set (fr := str_drop k digits) in *.
    unfold read8. f_equal.
    + destruct s; [reflexivity|]. simpl.
      destruct (String.eqb_spec i "") as [Ei|Ei]; [reflexivity|].
      destruct k as [|k'].
      * exfalso. apply Ei. unfold i, str_take. destruct digits; reflexivity.
      * unfold i. rewrite Hhead.
        destruct (str_take_head (S k') (digit_char d0) rest ltac:(lia)) as [r' ->].
        simpl. pose proof (digit_char_not_minus d0 Hd0) as Hnm.
        destruct (digit_char d0) as [[] [] [] [] [] [] [] []]; try reflexivity.
        exfalso. apply Hnm. reflexivity.
    + rewrite !read_digits_app.
      replace (read_digits 0 (if s then "-" else ""))%string with 0%N by (destruct s; reflexivity).
      assert (Hi : read_digits 0 (if String.eqb i "" then "0" else i)%string = read_digits 0 i).
      { destruct (String.eqb_spec i "") as [->|]; reflexivity. }
      rewrite Hi.
      destruct (String.eqb_spec fr "") as [Ef|Ef].
      * simpl. rewrite <- Hread, <- Htd, Ef, read_digits_app. reflexivity.
      * rewrite read_digits_app. change (read_digits (read_digits 0 i) ".")
          with (read_digits 0 i).
        rewrite <- read_digits_app, Htd. exact Hread.
Qed.

Local Open Scope R_scope.

(** ** Parsing a decimal as a float *)











(** ** There and back *)

Lemma p10_m8 : p10 (-8) = / 10 ^ 8.
Proof. unfold p10. simpl. reflexivity. Qed.


Lemma quantize_error d q :
  quantize d (-8) = Ok q -> Rabs (val q - val d) <= / 10 ^ 8 / 2.
Proof.
  intros H. destruct (quantize_value _ _ H) as (_ & He & _).
  rewrite p10_m8 in He. exact He.
Qed.


Section RoundTrip.
Variables (basket prices : gmap string Decimal).
Variables (pair1 pair2 : string -> string -> option Decimal).
Variables (X Y : string) (a a2 : Decimal).
Hypothesis Ha : moderate a.
Hypothesis Ha2 : moderate a2.
Hypothesis Hbasket : moderate_map basket.
Hypothesis Hprices : moderate_map prices.
Hypothesis Hsmall : (adjusted a < 17)%Z.


End RoundTrip.

Local Close Scope R_scope.

(** ** Converted amount and rate of a result *)

Lemma fmt_quantize d s :
  fmt d = Ok s -> exists q, quantize d (-8) = Ok q /\ s = format_f q /\ read8 s = q.
Proof.
  unfold fmt, rbind. destruct (quantize d (-8)) as [q|] eqn:E; [|discriminate].
  intros [= <-]. exists q. repeat split.
  apply read8_format_f. apply (quantize_value _ _ E).
Qed.

(** C1 (amended: equality for the single-rate strategies, a bound in units
    of the last place for the composed ones).  Every successful conversion
    answers with one of the quoted strategies; [rate] and [converted] are the
    values it formats into the result.  For via = direct, binance or yahoo,
    [converted] is [amount * rate] itself, so the two print alike.  For every
    strategy, when the amount and the provider values are moderate and
    [amount * rate] can be formatted, [converted] and [amount * rate] rounded
    to 8 places differ by at most 100 units of the last place, and by at most
    one unit when |converted| <= 10^17. *)
Theorem converted_matches_rate env f t amount w basket w1 prices w2 r w3 :
  get_ecb_rates env w = (Ok basket, w1) ->
  get_binance_prices env w1 = (Ok prices, w2) ->
  convert env f t amount w = (Ok r, w3) ->
  exists rate converted qc,
    quoted basket prices (pair_at env w2) (upper f) (upper t) amount (r_via r) rate converted
    /\ fmt rate = Ok (r_rate r)
    /\ quantize converted (-8) = Ok qc /\ r_converted r = format_f qc
    /\ (r_via r = "direct"%string \/ r_via r = "binance"%string \/ r_via r = "yahoo"%string ->
        mul amount rate = Ok converted)
    /\ (moderate amount -> moderate_map basket -> moderate_map prices ->
        (forall base quote y, pair_at env w2 base quote = Some y -> moderate y) ->
        forall product qp,
          mul amount rate = Ok product -> quantize product (-8) = Ok qp ->
          Z.abs (units qc - units qp) <= 100
          /\ (Z.abs (units qc) <= 10 ^ 25 -> Z.abs (units qc - units qp) <= 1)).
Proof.
  intros He Hb Hc. rewrite (convert_route _ _ _ _ _ _ _ _ _ He Hb) in Hc.
  destruct (route_quoted _ _ _ _ _ _ _ _ _ Hc) as (rate & converted & HQ & _ & Hr & Hcv).
  destruct (fmt_quantize _ _ Hcv) as (qc & Hqc & Hf & _).
  exists rate, converted, qc.
  split; [assumption|]. split; [assumption|]. split; [assumption|]. split; [assumption|].
  split.
  - intros Hvia. revert Hvia. generalize (r_via r) HQ. intros via HQ' Hvia.
    destruct HQ'; try assumption; destruct Hvia as [Hv|[Hv|Hv]]; discriminate Hv.
  - intros Hm Hmb Hmp Hmy product qp Hp Hqp.
    apply (quantized_close 8 converted product); try assumption; [|lia].
    exact (quoted_product basket prices (pair_at env w2) (upper f) (upper t) amount
             Hm Hmb Hmp Hmy (r_via r) rate converted product HQ Hp).
Qed.

Lemma moderateb_ok d : moderateb d = true -> moderate d.
Proof.
  unfold moderateb, moderate. intros H. apply orb_true_iff in H as [H|H].
  - left. apply N.eqb_eq. assumption.
  - right. apply andb_true_iff in H as [H1 H2]. apply Z.leb_le in H1. apply Z.ltb_lt in H2. lia.
Qed.

Lemma moderate_map_empty : moderate_map ∅.
Proof. intros k v H. rewrite lookup_empty in H. discriminate. Qed.

Lemma moderate_map_insert (m : gmap string Decimal) k v :
  moderate v -> moderate_map m -> moderate_map (<[k := v]> m).
Proof.
  intros Hv Hm k' v' H. destruct (decide (k = k')) as [->|Hne].
  - rewrite lookup_insert_eq in H. injection H as <-. assumption.
  - rewrite lookup_insert_ne in H by assumption. eapply Hm; eassumption.
Qed.

Lemma moderate_map_assign_all items (m : gmap string Decimal) :
  Forall (fun kv => moderateb kv.2 = true) items -> moderate_map m ->
  moderate_map (assign_all items m).
Proof.
  unfold assign_all. intros Hi. revert m.
  induction Hi as [|[k v] items Hv _ IH]; intros m Hm; simpl; [assumption|].
  apply IH. apply moderate_map_insert; [apply moderateb_ok|]; assumption.
Qed.

Lemma sample_basket_moderate : moderate_map Sample.basket.
Proof.
  apply moderate_map_assign_all; [repeat constructor|].
  rewrite <- insert_empty. apply moderate_map_insert; [apply moderateb_ok; reflexivity|].
  apply moderate_map_empty.
Qed.

Lemma sample_prices_moderate : moderate_map Sample.prices.
Proof. apply moderate_map_assign_all; [repeat constructor|apply moderate_map_empty]. Qed.

Lemma sample_pair_none base quote : pair_at Sample.env Sample.w2 base quote = None.
Proof.
  unfold pair_at, get_yahoo_rate, bind, get_cache, requests_get, set_yahoo, ret.
  change (pair_data (yahoo (cache Sample.w2))) with (∅ : gmap string Decimal).
  rewrite lookup_empty. destruct (fresh _ _ _); reflexivity.
Qed.

(** The request FOO -> BAR for 300: [converted] prints as 0.40000002 and
    [amount * rate] as 0.40000003, one unit of the last place apart. *)
Lemma converted_matches_rate_witness :
  exists rate converted qc,
    fmt rate = Ok "0.00133333"%string
    /\ quantize converted (-8) = Ok qc /\ format_f qc = "0.40000002"%string
    /\ forall product qp,
         mul (Sample.dec 3000 (-1)) rate = Ok product -> quantize product (-8) = Ok qp ->
         Z.abs (units qc - units qp) <= 1.
Proof.
  destruct (converted_matches_rate Sample.env "foo" "bar" (Sample.dec 3000 (-1))
              Sample.w0 Sample.basket Sample.w1 Sample.prices Sample.w2
              (mkResult "FOO" "BAR" "300.00000000" "0.00133333" "0.40000002" "USDT")
              Sample.w2
              (sample_ecb Sample.env eq_refl eq_refl)
              (sample_binance Sample.env eq_refl eq_refl) eq_refl)
    as (rate & converted & qc & _ & Hr & Hqc & Hf & _ & Hn).
  exists rate, converted, qc. simpl in Hr, Hf.
  split; [assumption|]. split; [assumption|]. split; [symmetry; assumption|].
  intros product qp Hp Hqp.
  assert (Eqc : qc = read8 "0.40000002").
  { rewrite Hf. symmetry. apply read8_format_f. apply (quantize_value _ _ Hqc). }
  destruct (Hn (moderateb_ok (Sample.dec 3000 (-1)) eq_refl) sample_basket_moderate sample_prices_moderate
              ltac:(intros b q y H; rewrite sample_pair_none in H; discriminate)
              product qp Hp Hqp) as [_ H1].
  apply H1. rewrite Eqc. vm_compute. discriminate.
Defined.

(** FOO -> BAR for 300 with FOOUSDT = 0.80000005 and BARUSDT = 600: the
    converted field is 0.40000002, the rate is 0.001333333416666666666666666667
    (printed 0.00133333), and amount * rate prints as 0.40000003 (or, with
    the printed rate, as 0.39999900).  XAA -> XBB for 9.359740012327934e19:
    the converted field and amount * rate are 5 units of the last place
    apart. *)
Lemma converted_matches_rate_counterexample :
  convert Sample.env "FOO" "BAR" (Sample.dec 3000 (-1)) Sample.w0
  = (Ok (mkResult "FOO" "BAR" "300.00000000" "0.00133333" "0.40000002" "USDT"), Sample.w2)
  /\ div (Sample.dec 80000005 (-8)) (Sample.dec 60000000000 (-8))
     = Ok (Sample.dec 1333333416666666666666666667 (-30))
  /\ rbind (mul (Sample.dec 3000 (-1)) (Sample.dec 1333333416666666666666666667 (-30))) fmt
     = Ok "0.40000003"%string
  /\ rbind (mul (Sample.dec 3000 (-1)) (read8 "0.00133333")) fmt
     = Ok "0.39999900"%string
  /\ convert Sample.env "XAA" "XBB" (Sample.dec 9359740012327934 4) Sample.w0
     = (Ok (mkResult "XAA" "XBB" "93597400123279340000.00000000" "1.03638679"
              "97003109423231069398.66877255" "USDT"), Sample.w2)
  /\ div (Sample.dec 259588208 (-8)) (Sample.dec 250474253 (-8))
     = Ok (Sample.dec 1036386793815490488756942216 (-27))
  /\ rbind (mul (Sample.dec 9359740012327934 4)
              (Sample.dec 1036386793815490488756942216 (-27))) fmt
     = Ok "97003109423231069398.66877260"%string.
Proof. repeat split; vm_compute; reflexivity. Qed.

(** ** Round trips *)

Local Open Scope R_scope.




Local Close Scope R_scope.

(** * Further properties of the endpoint and its providers *)

(** ** Exceptions of the endpoint *)

Lemma fix_raises d e : fix_ d = Raise e -> e = Overflow.
Proof.
  destruct d as [s c e0]. unfold fix_.
  repeat case_match; try discriminate; intros [= <-]; reflexivity.
Qed.

Lemma mul_raises a b e : mul a b = Raise e -> e = Overflow.
Proof. apply fix_raises. Qed.

Lemma div_raises a b e : div a b = Raise e -> arithmetic e.
Proof.
  unfold div, arithmetic.
  repeat case_match; try (intros [= <-]; auto);
    intros Hfix; apply fix_raises in Hfix; auto.
Qed.

(** A coefficient of at most 28 digits at exponent -8 is left alone. *)
Lemma fix_quantized s c :
  ndigits c <= prec -> fix_ (mkDecimal s c (-8)) = Ok (mkDecimal s c (-8)).
Proof.
  intros Hn. unfold fix_. destruct (N.eqb_spec c 0) as [->|Hc]; [reflexivity|].
  destruct (Z.ltb_spec Etop (ndigits c + -8 - prec)) as [Ht|_].
  { unfold Etop, Emax, prec in *. lia. }
  destruct (Z.ltb_spec (-8) (Z.max (ndigits c + -8 - prec) Etiny)) as [Hm|_].
  { unfold Etiny, Emin, prec in *. lia. }
  reflexivity.
Qed.

Lemma quantize_raises d e : quantize d (-8) = Raise e -> e = InvalidOperation.
Proof.
  unfold quantize. change (negb ((Etiny <=? -8)%Z && (-8 <=? Emax)%Z)) with false.
  cbv iota.
  destruct (N.eqb_spec (dint d) 0) as [Hz|Hnz].
  - simpl. discriminate.
  - destruct (Z.ltb_spec Emax (adjusted d)); [intros [= <-]; reflexivity|].
    destruct (Z.ltb_spec prec (adjusted d - -8 + 1)); [intros [= <-]; reflexivity|].
    destruct (Z.ltb_spec Emax (adjusted (rescale d (-8)))); [intros [= <-]; reflexivity|].
    destruct (Z.ltb_spec prec (ndigits (dint (rescale d (-8))))) as [|Hnd];
      [intros [= <-]; reflexivity|].
    destruct (rescale_val d (-8)) as (He & _ & _).
    destruct (rescale d (-8)) as [s' c' e']. simpl in He, Hnd. subst e'.
    rewrite fix_quantized by assumption. discriminate.
Qed.

Lemma fmt_raises d e : fmt d = Raise e -> e = InvalidOperation.
Proof.
  unfold fmt, rbind. destruct (quantize d (-8)) eqn:E; [discriminate|].
  intros [= <-]. eapply quantize_raises, E.
Qed.

Lemma getitem_raises (m : gmap string Decimal) k e :
  getitem m k = Raise e -> e = KeyError k /\ contains m k = false.
Proof.
  unfold getitem. destruct (m !! k) eqn:E; [discriminate|].
  intros [= <-]. split; [reflexivity|]. apply contains_None, E.
Qed.

Lemma response_raises F T a r c via e :
  response F T a r c via = Raise e -> e = InvalidOperation.
Proof.
  unfold response, rbind.
  destruct (fmt a) eqn:Ea; [|intros [= <-]; eapply fmt_raises, Ea].
  destruct (fmt r) eqn:Er; [|intros [= <-]; eapply fmt_raises, Er].
  destruct (fmt c) eqn:Ec; [|intros [= <-]; eapply fmt_raises, Ec].
  discriminate.
Qed.

Section Outcome.
Context {A B : Type}.
Implicit Types (Q : A -> Prop) (E : exn -> Prop).

Lemma outcome_ret (a : A) Q E : Q a -> outcome (ret a) Q E.
Proof. intros H w. exact H. Qed.

Lemma outcome_raise e Q E : E e -> outcome (@raise A e) Q E.
Proof. intros H w. exact H. Qed.

Lemma outcome_lift (r : res A) Q E :
  (forall a, r = Ok a -> Q a) -> (forall e, r = Raise e -> E e) -> outcome (lift r) Q E.
Proof. intros HQ HE w. unfold lift. simpl. destruct r; auto. Qed.

Lemma outcome_bind_lift (r : res A) (k : A -> M B) (Q : B -> Prop) E :
  (forall e, r = Raise e -> E e) ->
  (forall a, r = Ok a -> outcome (k a) Q E) ->
  outcome (bind (lift r) k) Q E.
Proof.
  intros HE Hk w. unfold bind, lift. destruct r as [a|e]; simpl.
  - apply Hk. reflexivity.
  - apply HE. reflexivity.
Qed.

Lemma outcome_bind (m : M A) (k : A -> M B) Q (R : B -> Prop) E :
  outcome m Q E -> (forall a, Q a -> outcome (k a) R E) -> outcome (bind m k) R E.
Proof.
  intros Hm Hk w. unfold bind. specialize (Hm w).
  destruct (m w) as [[a|e] w']; simpl in *; [apply Hk|]; assumption.
Qed.

Lemma outcome_weaken (m : M A) Q Q' E E' :
  outcome m Q E -> (forall a, Q a -> Q' a) -> (forall e, E e -> E' e) -> outcome m Q' E'.
Proof.
  intros Hm HQ HE w. specialize (Hm w). destruct ((m w).1); auto.
Qed.

End Outcome.

Lemma outcome_bind_yahoo {B} env base quote (k : option Decimal -> M B) (Q : B -> Prop) E :
  (forall y, outcome (k y) Q E) ->
  outcome (bind (get_yahoo_rate env base quote) k) Q E.
Proof.
  intros Hk w. unfold bind.
  destruct (get_yahoo_rate_returns env base quote w) as (y & w' & ->).
  apply Hk.
Qed.

Ltac outcome_side F T :=
  intros;
  match goal with
  | H : mul _ _ = Raise _ |- _ => apply mul_raises in H; subst
  | H : div _ _ = Raise _ |- _ => apply div_raises in H
  | H : fmt _ = Raise _ |- _ => apply fmt_raises in H; subst
  | H : response _ _ _ _ _ _ = Raise _ |- _ => apply response_raises in H; subst
  | H : getitem _ _ = Raise _ |- _ => apply getitem_raises in H; destruct H as [-> H]
  | _ => idtac
  end.

Ltac outcome_step :=
  match goal with
  | |- outcome (ret _) _ _ => apply outcome_ret
  | |- outcome (raise _) _ _ => apply outcome_raise
  | |- outcome (lift _) _ _ => apply outcome_lift; intros
  | |- outcome (bind (lift _) _) _ _ => apply outcome_bind_lift; intros
  | |- outcome (bind (get_yahoo_rate _ _ _) _) _ _ => apply outcome_bind_yahoo; intros
  | |- outcome (bind (match ?x with _ => _ end) _) _ _ => destruct x eqn:?
  | |- outcome (bind (bind _ _) _) _ _ =>
      apply outcome_bind with (Q := fun _ => True); [|intros ? _]
  | |- outcome (match ?x with _ => _ end) _ _ => destruct x eqn:?
  end.

Lemma route_raises env basket prices F T amount :
  outcome (route env basket prices F T amount) (fun _ => True) (anticipated F T).
Proof.
  unfold route.
  destruct (contains basket F) eqn:CF; destruct (contains basket T) eqn:CT; simpl;
    repeat outcome_step; trivial; outcome_side F T;
    unfold anticipated, arithmetic, Spec.unsupported_pair, Spec.unsupported_crypto,
      Spec.unsupported_target_crypto; try congruence; tauto.
Qed.

Lemma ecb_outcome env :
  outcome (get_ecb_rates env) (fun _ => True) (fun e => e = Spec.upstream_unavailable).
Proof.
  intros w. unfold get_ecb_rates, bind, get_cache, requests_get, set_ecb, ret, raise.
  destruct (if fresh _ _ _ then _ else None); [exact I|].
  destruct (ecb_reply env); [exact I|].
  destruct (truthy_data _); simpl; auto.
Qed.

Lemma binance_outcome env :
  outcome (get_binance_prices env) (fun _ => True) (fun _ => False).
Proof.
  intros w. unfold get_binance_prices, bind, get_cache, requests_get, set_binance, ret.
  destruct (if fresh _ _ _ then _ else None); [exact I|].
  destruct (binance_reply_of env) as [|code [items|]]; try exact I;
    destruct (negb (code =? 200)); exact I.
Qed.

Lemma convert_outcome env f t amount Q E :
  E Spec.upstream_unavailable ->
  (forall basket prices,
     outcome (route env basket prices (upper f) (upper t) amount) Q E) ->
  outcome (convert env f t amount) Q E.
Proof.
  intros H503 Hr. unfold convert.
  apply outcome_bind with (Q := fun _ => True).
  - intros w. pose proof (ecb_outcome env w) as H.
    destruct ((get_ecb_rates env w).1); [exact I|]. subst. exact H503.
  - intros basket _. apply outcome_bind with (Q := fun _ => True).
    + intros w. pose proof (binance_outcome env w) as H.
      destruct ((get_binance_prices env w).1); [exact I|]. destruct H.
    + intros prices _. apply Hr.
Qed.

(** X1.  The exceptions that leave [convert]: the 503 of the basket provider,
    the three 400s of the router, [KeyError 'USD'] when the basket fallback
    of a mixed quadrant finds no USD entry, and the decimal signals
    InvalidOperation, DivisionByZero and Overflow.  The four quadrant tests
    are exhaustive: the closing "Unsupported conversion" error is never
    raised. *)
Theorem convert_raises env f t amount w e w' :
  convert env f t amount w = (Raise e, w') ->
  (e = Spec.upstream_unavailable \/ e = Spec.unsupported_pair (upper f) (upper t)
   \/ e = Spec.unsupported_crypto (upper f) \/ e = Spec.unsupported_target_crypto (upper t)
   \/ e = KeyError "USD" \/ arithmetic e)
  /\ forall status_code detail,
       e <> HTTPException status_code ("Unsupported conversion: " +:+ detail).
Proof.
  intros H.
  assert (Ho : e = Spec.upstream_unavailable \/ anticipated (upper f) (upper t) e).
  { pose proof (convert_outcome env f t amount (fun _ => True)
                  (fun e => e = Spec.upstream_unavailable \/ anticipated (upper f) (upper t) e)
                  (or_introl eq_refl)) as Hc.
    specialize (Hc (fun basket prices =>
                      outcome_weaken _ _ _ _ _
                        (route_raises env basket prices (upper f) (upper t) amount)
                        (fun _ _ => I) (fun e He => or_intror He)) w).
    rewrite H in Hc. exact Hc. }
  split; [exact Ho|].
  intros code detail ->.
  unfold anticipated, arithmetic, Spec.upstream_unavailable, Spec.unsupported_pair,
    Spec.unsupported_crypto, Spec.unsupported_target_crypto in Ho.
  simpl in Ho. intuition discriminate.
Qed.

Lemma convert_raises_witness :
  Spec.unsupported_crypto "ZZZ" = Spec.upstream_unavailable
  \/ Spec.unsupported_crypto "ZZZ" = Spec.unsupported_pair "ZZZ" "USD"
  \/ Spec.unsupported_crypto "ZZZ" = Spec.unsupported_crypto "ZZZ"
  \/ Spec.unsupported_crypto "ZZZ" = Spec.unsupported_target_crypto "USD"
  \/ Spec.unsupported_crypto "ZZZ" = KeyError "USD"
  \/ arithmetic (Spec.unsupported_crypto "ZZZ").
Proof.
  apply (convert_raises Sample.env "zzz" "usd" (Sample.dec 10 (-1)) Sample.w0
           (Spec.unsupported_crypto "ZZZ") Sample.w2).
  vm_compute. reflexivity.
Defined.

(** ** The result of a request *)

(** The two code fields of a result. *)
Lemma route_echo env basket prices F T amount :
  outcome (route env basket prices F T amount)
          (fun r => r_from r = F /\ r_to r = T) (fun _ => True).
Proof.
  unfold route.
  destruct (contains basket F); destruct (contains basket T); simpl;
    repeat outcome_step; trivial;
    try match goal with
        | H : response _ _ _ _ _ _ = Ok _ |- _ =>
            apply response_fields in H; destruct H as (? & ? & _); auto
        end; simpl; auto.
Qed.

Lemma quoted_strategies basket prices pair F T amount via rate converted :
  quoted basket prices pair F T amount via rate converted -> via ∈ strategies.
Proof. intros H. destruct H; unfold strategies; set_solver. Qed.

Lemma ndigits_le n k : Z.of_N n < 10 ^ k -> 1 <= k -> ndigits n <= k.
Proof.
  intros Hn Hk. destruct (N.eq_dec n 0) as [->|Hz]; [exact Hk|].
  destruct (ndigits_bounds n ltac:(lia)) as (H1 & Hlo & _).
  assert (Hlt : 10 ^ (ndigits n - 1) < 10 ^ k) by lia.
  apply Z.pow_lt_mono_r_iff in Hlt; lia.
Qed.

(** The coefficient [quantize] produces for a value below [10^19]. *)
Lemma rescale_small d :
  (0 < dint d)%N -> adjusted d < 19 -> Z.of_N (dint (rescale d (-8))) <= 10 ^ 27.
Proof.
  intros Hc Ha.
  destruct (rescale_val d (-8)) as (He & _ & Herr).
  pose proof (val_decade d Hc) as [_ Hhi].
  assert (Hp : (p10 (adjusted d + 1) <= p10 19)%R) by (apply p10_le; lia).
  pose proof (val_abs (rescale d (-8))) as Hv. rewrite He in Hv.
  pose proof (Rabs_triang_inv (val (rescale d (-8))) (val d)) as Ht.
  assert (H19 : p10 19 = (IZR (10 ^ 27) * p10 (-8))%R).
  { rewrite p10_IZR by lia. rewrite <- p10_add. reflexivity. }
  rewrite H19 in Hp.
  pose proof (p10_pos (-8)) as HP.
  set (c := Z.of_N (dint (rescale d (-8)))) in *.
  assert (Hlt : (IZR c < IZR (10 ^ 27 + 1))%R).
  { rewrite plus_IZR. nra. }
  apply lt_IZR in Hlt. lia.
Qed.

Lemma fmt_zero d :
  dint d = 0%N -> fmt d = Ok (if dsign d then "-0.00000000" else "0.00000000")%string.
Proof.
  destruct d as [s c e]. simpl. intros ->. unfold fmt, quantize.
  change (negb ((Etiny <=? -8)%Z && (-8 <=? Emax)%Z)) with false. simpl.
  destruct s; reflexivity.
Qed.

(** X2.  The range of [fmt]: a zero prints as 0.00000000 with its sign,
    whatever its exponent; every value below 10^19 in magnitude is printed;
    every value of 10^20 or more raises InvalidOperation, because its
    quantized coefficient would need more than 28 digits. *)
Theorem fmt_range d :
  (dint d = 0%N ->
   fmt d = Ok (if dsign d then "-0.00000000" else "0.00000000")%string)
  /\ (adjusted d < 19 -> exists s, fmt d = Ok s)
  /\ ((0 < dint d)%N -> 20 <= adjusted d -> fmt d = Raise InvalidOperation).
Proof.
  split; [apply fmt_zero|]. split.
  - intros Ha. destruct (N.eq_dec (dint d) 0) as [Hz|Hnz]; [rewrite (fmt_zero d Hz); eauto|].
    assert (Hc : (0 < dint d)%N) by lia.
    pose proof (rescale_small d Hc Ha) as Hr.
    destruct (rescale_val d (-8)) as (He & _ & _).
    unfold fmt, quantize.
    change (negb ((Etiny <=? -8)%Z && (-8 <=? Emax)%Z)) with false. cbv iota.
    apply N.eqb_neq in Hnz. rewrite Hnz.
    assert (Hn : ndigits (dint (rescale d (-8))) <= 28).
    { apply ndigits_le; lia. }
    destruct (Z.ltb_spec Emax (adjusted d)); [unfold Emax in *; lia|].
    destruct (Z.ltb_spec prec (adjusted d - -8 + 1)); [unfold prec in *; lia|].
    destruct (Z.ltb_spec Emax (adjusted (rescale d (-8)))) as [Hbad|_].
    { unfold adjusted, Emax in Hbad. lia. }
    destruct (Z.ltb_spec prec (ndigits (dint (rescale d (-8))))); [unfold prec in *; lia|].
    destruct (rescale d (-8)) as [s' c' e']. simpl in He, Hn. subst e'.
    rewrite fix_quantized by (unfold prec; lia). simpl. eauto.
  - intros Hc Ha. unfold fmt, quantize.
    change (negb ((Etiny <=? -8)%Z && (-8 <=? Emax)%Z)) with false. cbv iota.
    assert (Hnz : (dint d =? 0)%N = false) by (apply N.eqb_neq; lia). rewrite Hnz.
    destruct (Z.ltb_spec Emax (adjusted d)); [reflexivity|].
    destruct (Z.ltb_spec prec (adjusted d - -8 + 1)); [reflexivity|].
    unfold prec in *. lia.
Qed.

Lemma fmt_range_witness :
  fmt (Sample.dec 0 3) = Ok "0.00000000"%string
  /\ (exists s, fmt (Sample.dec 9999999999999999999 0) = Ok s)
  /\ fmt (Sample.dec 1 20) = Raise InvalidOperation.
Proof.
  split; [|split].
  - apply (fmt_range (Sample.dec 0 3)). reflexivity.
  - apply (fmt_range (Sample.dec 9999999999999999999 0)). reflexivity.
  - apply (fmt_range (Sample.dec 1 20)); [reflexivity | vm_compute; discriminate].
Defined.

Lemma fmt_shape d s :
  fmt d = Ok s -> exists q, s = format_f q /\ dexp q = -8 /\ ndigits (dint q) <= 28.
Proof.
  intros H. destruct (fmt_quantize d s H) as (q & Hq & -> & _).
  destruct (quantize_value d q Hq) as (He & _ & Hu). rewrite units_abs in Hu.
  exists q. repeat split; [assumption|]. apply ndigits_le; lia.
Qed.

(** A successful request, as the strategy it was answered with. *)
Lemma convert_quoted env f t amount w r w' :
  convert env f t amount w = (Ok r, w') ->
  exists basket w1 prices w2 rate converted,
    get_ecb_rates env w = (Ok basket, w1)
    /\ get_binance_prices env w1 = (Ok prices, w2)
    /\ quoted basket prices (pair_at env w2) (upper f) (upper t) amount (r_via r)
              rate converted
    /\ fmt amount = Ok (r_amount r) /\ fmt rate = Ok (r_rate r)
    /\ fmt converted = Ok (r_converted r).
Proof.
  intros H. unfold convert, bind in H.
  destruct (get_ecb_rates env w) as [[basket|?] w1] eqn:E1; [|discriminate].
  destruct (get_binance_prices env w1) as [[prices|?] w2] eqn:E2; [|discriminate].
  destruct (route_quoted _ _ _ _ _ _ _ _ _ H) as (rate & converted & HQ & Ha & Hr & Hc).
  exists basket, w1, prices, w2, rate, converted. repeat split; assumption.
Qed.

(** X3.  For a finite amount and finite provider values, a result echoes
    the two codes in upper case and the amount rounded to 8 places, carries
    one of the nine strategy tags, and each of its three numeric fields is
    the fixed-point print of a decimal with exponent -8 and at most 28
    digits. *)
Theorem convert_result_shape env f t amount w r w' :
  convert env f t amount w = (Ok r, w') ->
  r_from r = upper f /\ r_to r = upper t
  /\ fmt amount = Ok (r_amount r)
  /\ r_via r ∈ strategies
  /\ (forall field, field ∈ [r_amount r; r_rate r; r_converted r] ->
      exists q, field = format_f q /\ dexp q = -8 /\ ndigits (dint q) <= 28).
Proof.
  intros H.
  pose proof (convert_outcome env f t amount
                (fun r => r_from r = upper f /\ r_to r = upper t) (fun _ => True) I
                (fun basket prices => route_echo env basket prices _ _ amount) w) as He.
  rewrite H in He. simpl in He. destruct He as [Hf Ht].
  destruct (convert_quoted _ _ _ _ _ _ _ H)
    as (basket & w1 & prices & w2 & rate & converted & _ & _ & HQ & Ha & Hr & Hc).
  repeat split; try assumption.
  - eapply quoted_strategies, HQ.
  - intros field Hin.
    apply elem_of_cons in Hin as [->|Hin]; [eapply fmt_shape, Ha|].
    apply elem_of_cons in Hin as [->|Hin]; [eapply fmt_shape, Hr|].
    apply elem_of_cons in Hin as [->|Hin]; [eapply fmt_shape, Hc|].
    inversion Hin.
Qed.

Lemma convert_result_shape_witness :
  fmt (Sample.dec 5 (-1)) = Ok "0.50000000"%string
  /\ "binance"%string ∈ strategies.
Proof.
  destruct (convert_result_shape Sample.env "btc" "usd" (Sample.dec 5 (-1)) Sample.w0
              (mkResult "BTC" "USD" "0.50000000" "60000.00000000" "30000.00000000" "binance")
              Sample.w2 eq_refl) as (_ & _ & Ha & Hv & _).
  split; [exact Ha | exact Hv].
Defined.

(** X4.  An amount of 10^20 or more is never converted: whatever the codes
    and the providers, no result is returned for it. *)
Theorem convert_amount_bound env f t amount w r w' :
  convert env f t amount w = (Ok r, w') ->
  dint amount = 0%N \/ adjusted amount <= 19.
Proof.
  intros H.
  destruct (convert_quoted _ _ _ _ _ _ _ H) as (? & ? & ? & ? & ? & ? & _ & _ & _ & Ha & _).
  destruct (N.eq_dec (dint amount) 0) as [Hz|Hnz]; [left; exact Hz|right].
  destruct (Z.le_gt_cases (adjusted amount) 19) as [Hle|Hgt]; [exact Hle|].
  unfold fmt, quantize in Ha.
  change (negb ((Etiny <=? -8)%Z && (-8 <=? Emax)%Z)) with false in Ha. cbv iota in Ha.
  apply N.eqb_neq in Hnz. rewrite Hnz in Ha.
  destruct (Z.ltb_spec Emax (adjusted amount)); [discriminate|].
  destruct (Z.ltb_spec prec (adjusted amount - -8 + 1)); [discriminate|].
  unfold prec in *. lia.
Qed.

Lemma convert_amount_bound_witness :
  dint (Sample.dec 5 (-1)) = 0%N \/ adjusted (Sample.dec 5 (-1)) <= 19.
Proof.
  apply (convert_amount_bound Sample.env "btc" "usd" (Sample.dec 5 (-1)) Sample.w0
           (mkResult "BTC" "USD" "0.50000000" "60000.00000000" "30000.00000000" "binance")
           Sample.w2).
  reflexivity.
Defined.

(** ** Formatting is canonical *)

Lemma quantize_idempotent d q : quantize d (-8) = Ok q -> quantize q (-8) = Ok q.
Proof.
  intros H. destruct (quantize_value d q H) as (He & _ & Hu). rewrite units_abs in Hu.
  destruct q as [s c e]. simpl in He, Hu. subst e.
  assert (Hn : ndigits c <= 28) by (apply ndigits_le; lia).
  assert (Hr : c <> 0%N -> rescale (mkDecimal s c (-8)) (-8) = mkDecimal s c (-8)).
  { intros Hc. unfold rescale. apply N.eqb_neq in Hc. rewrite Hc.
    change (-8 <=? -8) with true. cbv iota. change (-8 - -8) with 0.
    change (pow10 0) with 1%N. rewrite N.mul_1_r. reflexivity. }
  unfold quantize, adjusted. cbn [dint dsign dexp].
  change (negb ((Etiny <=? -8)%Z && (-8 <=? Emax)%Z)) with false. cbv iota.
  destruct (N.eqb_spec c 0) as [->|Hc]; [reflexivity|].
  rewrite (Hr Hc). cbn [dint dsign dexp].
  destruct (Z.ltb_spec Emax (-8 + ndigits c - 1)); [unfold Emax in *; lia|].
  destruct (Z.ltb_spec prec (-8 + ndigits c - 1 - -8 + 1)); [unfold prec in *; lia|].
  destruct (Z.ltb_spec prec (ndigits c)); [unfold prec in *; lia|].
  apply fix_quantized. unfold prec. lia.
Qed.

(** X5.  [fmt] is canonical: what it prints for [a] is what it prints for
    [a] rounded to 8 places, and any value that prints the same rounds to
    the same decimal, sign of zero included. *)
Theorem fmt_canonical a s :
  fmt a = Ok s ->
  exists q, quantize a (-8) = Ok q /\ fmt q = Ok s
            /\ forall b, fmt b = Ok s -> quantize b (-8) = Ok q.
Proof.
  intros H. destruct (fmt_quantize a s H) as (q & Hq & Hs & Hr).
  exists q. split; [exact Hq|]. split.
  - unfold fmt. rewrite (quantize_idempotent a q Hq). simpl. congruence.
  - intros b Hb. destruct (fmt_quantize b s Hb) as (q' & Hq' & _ & Hr'). congruence.
Qed.

Lemma fmt_canonical_witness :
  exists q, quantize (Sample.dec 1234567891 (-9)) (-8) = Ok q
            /\ fmt q = Ok "1.23456789"%string
            /\ forall b, fmt b = Ok "1.23456789"%string -> quantize b (-8) = Ok q.
Proof. apply (fmt_canonical (Sample.dec 1234567891 (-9)) "1.23456789"). reflexivity. Defined.

(** ** A currency against itself *)

Lemma div_self a : (0 < dint a)%N -> div a a = Ok one.
Proof.
  intros Ha. unfold div.
  destruct (N.eqb_spec (dint a) 0) as [|_]; [lia|].
  replace (ndigits (dint a) - ndigits (dint a) + prec + 1) with 29 by (unfold prec; lia).
  replace (dexp a - dexp a - 29) with (-29) by lia.
  change (0 <=? 29) with true. cbv iota.
  pose proof (N.div_eucl_spec (dint a * pow10 29) (dint a)) as Hspec.
  pose proof (N.mod_lt (dint a * pow10 29) (dint a) ltac:(lia)) as Hrem.
  unfold N.modulo in Hrem.
  destruct (N.div_eucl (dint a * pow10 29) (dint a)) as [q r]. simpl in Hrem.
  assert (Hq : q = pow10 29 /\ r = 0%N).
  { revert Hspec. generalize (pow10 29). intros P Hspec.
    assert (q = P) by (destruct (N.lt_trichotomy q P) as [|[|]]; [nia|assumption|nia]).
    subst q. lia. }
  destruct Hq as [-> ->]. rewrite xorb_nilpotent.
  replace (dexp a - dexp a - -29) with 29 by lia.
  vm_compute. reflexivity.
Qed.

Lemma fmt_one : fmt one = Ok "1.00000000"%string.
Proof. reflexivity. Qed.

(** X6.  A currency converted to itself over the USDT bridge or over the
    basket is quoted at exactly 1.00000000: the quotient of a non-zero
    decimal by itself is 1, with no rounding. *)
Theorem same_currency_rate env f t amount w r w' :
  convert env f t amount w = (Ok r, w') ->
  upper f = upper t ->
  r_via r = "USDT"%string \/ r_via r = "ecb"%string ->
  r_rate r = "1.00000000"%string.
Proof.
  intros H Hft Hvia.
  destruct (convert_quoted _ _ _ _ _ _ _ H)
    as (basket & w1 & prices & w2 & rate & converted & _ & _ & HQ & _ & Hr & _).
  rewrite <- Hft in HQ.
  assert (Hone : rate = one).
  { revert Hvia HQ. generalize (r_via r). intros via Hvia HQ.
    destruct HQ; try (destruct Hvia; discriminate).
    - (* USDT *)
      match goal with
      | H1 : truth (prices !! _) = Some from_usd, H2 : truth (prices !! _) = Some to_usd |- _ =>
          rewrite H1 in H2; injection H2 as <-;
          apply truth_Some_iff in H1 as [_ Hnz]
      end.
      match goal with
      | Hd : div from_usd from_usd = Ok _ |- _ =>
          rewrite div_self in Hd by lia; congruence
      end.
    - (* ecb *)
      match goal with
      | H1 : basket !! _ = Some from_rate, H2 : basket !! _ = Some to_rate |- _ =>
          rewrite H1 in H2; injection H2 as <-
      end.
      match goal with
      | Hd : div from_rate from_rate = Ok _ |- _ =>
          destruct (N.eq_dec (dint from_rate) 0) as [Hz|Hnz];
          [rewrite (div_zero_zero _ _ Hz Hz) in Hd; discriminate
          |rewrite div_self in Hd by lia; congruence]
      end. }
  subst rate. rewrite fmt_one in Hr. congruence.
Qed.

Lemma same_currency_rate_witness :
  r_rate (mkResult "BTC" "BTC" "2.00000000" "1.00000000" "2.00000000" "USDT")
  = "1.00000000"%string.
Proof.
  apply (same_currency_rate Sample.env "btc" "BTC" (Sample.dec 2 0) Sample.w0 _ Sample.w2).
  - vm_compute. reflexivity.
  - reflexivity.
  - left. reflexivity.
Defined.

(** ** A zero amount *)

Lemma mul_Ok_zero a b c :
  mul a b = Ok c -> dint a = 0%N \/ dint b = 0%N -> dint c = 0%N.
Proof.
  unfold mul. intros H Hz.
  assert (Hp : (dint a * dint b)%N = 0%N) by (destruct Hz as [-> | ->]; lia).
  rewrite Hp in H.
  destruct (fix_zero (xorb (dsign a) (dsign b)) (dexp a + dexp b)) as [e' He'].
  rewrite He' in H. injection H as <-. reflexivity.
Qed.

Lemma div_Ok_zero a b c : div a b = Ok c -> dint a = 0%N -> dint c = 0%N.
Proof.
  intros H Ha. destruct (N.eq_dec (dint b) 0) as [Hb|Hb].
  - rewrite (div_zero_zero a b Ha Hb) in H. discriminate.
  - destruct (div_zero_l a b Ha Hb) as (z & Hz & Hz0). congruence.
Qed.

Lemma div_Ok_divisor a b c : div a b = Ok c -> dint b <> 0%N.
Proof.
  unfold div. intros H Hb. rewrite Hb in H. simpl in H.
  destruct (dint a =? 0)%N; discriminate.
Qed.

(** X7.  A request for the amount zero that succeeds was not Fiat -> Crypto,
    and its converted field is a zero: 0.00000000, or -0.00000000 when the
    zero carries a minus sign. *)
Theorem zero_amount_result env f t amount w r w' :
  convert env f t amount w = (Ok r, w') ->
  dint amount = 0%N ->
  (r_converted r = "0.00000000"%string \/ r_converted r = "-0.00000000"%string)
  /\ r_via r <> "yahoo+binance"%string /\ r_via r <> "ecb+binance"%string.
Proof.
  intros H Hz.
  destruct (convert_quoted _ _ _ _ _ _ _ H)
    as (basket & w1 & prices & w2 & rate & converted & _ & _ & HQ & _ & _ & Hc).
  assert (Hzero : dint converted = 0%N
                  /\ r_via r <> "yahoo+binance"%string /\ r_via r <> "ecb+binance"%string).
  { revert HQ. generalize (r_via r). intros via HQ.
    destruct HQ;
      repeat match goal with
             | H : mul ?a _ = Ok ?c, Ha : dint ?a = 0%N |- _ =>
                 lazymatch goal with
                 | _ : dint c = 0%N |- _ => fail
                 | _ => pose proof (mul_Ok_zero _ _ _ H (or_introl Ha))
                 end
             | H : div ?a _ = Ok ?c, Ha : dint ?a = 0%N |- _ =>
                 lazymatch goal with
                 | _ : dint c = 0%N |- _ => fail
                 | _ => pose proof (div_Ok_zero _ _ _ H Ha)
                 end
             end;
      try (repeat split; [assumption | discriminate | discriminate]).
    - (* yahoo+binance: the rate is 0 / 0 *)
      exfalso.
      match goal with
      | H : div usd_amount denominator = Ok _ |- _ => apply div_Ok_divisor in H; auto
      end.
    - exfalso.
      match goal with
      | H : div usd_amount denominator = Ok _ |- _ => apply div_Ok_divisor in H; auto
      end. }
  destruct Hzero as (Hc0 & Hv1 & Hv2). repeat split; try assumption.
  rewrite (fmt_zero converted Hc0) in Hc. injection Hc as <-.
  destruct (dsign converted); auto.
Qed.

Lemma zero_amount_result_witness :
  (r_converted (mkResult "BTC" "USD" "0.00000000" "60000.00000000" "0.00000000" "binance")
     = "0.00000000"%string
   \/ r_converted (mkResult "BTC" "USD" "0.00000000" "60000.00000000" "0.00000000" "binance")
     = "-0.00000000"%string).
Proof.
  apply (zero_amount_result Sample.env "btc" "usd" (Sample.dec 0 (-1)) Sample.w0 _ Sample.w2).
  - vm_compute. reflexivity.
  - reflexivity.
Defined.

(** ** Products that need no rounding *)

Lemma ndigits_mul a b : ndigits (a * b)%N <= ndigits a + ndigits b.
Proof.
  pose proof (ndigits_pos a). pose proof (ndigits_pos b).
  destruct (N.eq_dec a 0) as [->|Ha]; [change (ndigits (0 * b)%N) with 1; lia|].
  destruct (N.eq_dec b 0) as [->|Hb]; [rewrite N.mul_0_r; change (ndigits 0%N) with 1; lia|].
  destruct (ndigits_bounds a ltac:(lia)) as (_ & _ & Hah).
  destruct (ndigits_bounds b ltac:(lia)) as (_ & _ & Hbh).
  apply ndigits_le; [|lia].
  rewrite N2Z.inj_mul, Z.pow_add_r by lia.
  apply Z.mul_lt_mono_nonneg; lia.
Qed.

Lemma fix_exact s c e :
  ndigits c <= prec -> Etiny <= e <= Etop -> fix_ (mkDecimal s c e) = Ok (mkDecimal s c e).
Proof.
  intros Hn [Hlo Hhi]. unfold fix_. destruct (N.eqb_spec c 0) as [->|Hc].
  - f_equal. f_equal. unfold Etop, Emax, prec in *. lia.
  - destruct (Z.ltb_spec Etop (ndigits c + e - prec)) as [Ht|_]; [lia|].
    destruct (Z.ltb_spec e (Z.max (ndigits c + e - prec) Etiny)) as [Hm|_]; [lia|].
    reflexivity.
Qed.

(** X8.  [amount * price] is exact when the two coefficients have at most
    28 digits together (and the exponent stays in range): the product keeps
    every digit, so the strategies that multiply once round only when the
    result is printed. *)
Theorem mul_exact a b :
  ndigits (dint a) + ndigits (dint b) <= prec ->
  Etiny <= dexp a + dexp b <= Etop ->
  mul a b = Ok (mkDecimal (xorb (dsign a) (dsign b)) (dint a * dint b) (dexp a + dexp b))
  /\ forall c, mul a b = Ok c -> val c = (val a * val b)%R.
Proof.
  intros Hn He.
  assert (Hm : mul a b
               = Ok (mkDecimal (xorb (dsign a) (dsign b)) (dint a * dint b) (dexp a + dexp b))).
  { unfold mul. apply fix_exact; [|assumption].
    pose proof (ndigits_mul (dint a) (dint b)). lia. }
  split; [exact Hm|].
  intros c Hc. rewrite Hm in Hc. injection Hc as <-.
  unfold val. cbn [dsign dint dexp].
  rewrite sgn_xorb, N2Z.inj_mul, mult_IZR, p10_add. ring.
Qed.

Lemma mul_exact_witness :
  mul (Sample.dec 5 (-1)) (Sample.dec 6000000000000 (-8))
  = Ok (Sample.dec 30000000000000 (-9)).
Proof.
  apply (mul_exact (Sample.dec 5 (-1)) (Sample.dec 6000000000000 (-8))).
  - vm_compute. discriminate.
  - vm_compute. split; discriminate.
Defined.

(** ** Upstream requests *)

Lemma silent_ret {A} (a : A) : silent (ret a).
Proof. intros w. reflexivity. Qed.

Lemma silent_raise {A} e : silent (@raise A e).
Proof. intros w. reflexivity. Qed.

Lemma silent_lift {A} (r : res A) : silent (lift r).
Proof. intros w. reflexivity. Qed.

Lemma silent_bind {A B} (m : M A) (k : A -> M B) :
  silent m -> (forall a, silent (k a)) -> silent (bind m k).
Proof.
  intros Hm Hk w. unfold bind. specialize (Hm w).
  destruct (m w) as [[a|e] w0]; simpl in *; subst; [apply Hk | reflexivity].
Qed.

Ltac silent_step :=
  first [ apply silent_ret | apply silent_raise | apply silent_lift
        | apply silent_bind; [|intro]
        | match goal with
          | |- silent (match ?x with _ => _ end) => destruct x
          end ].

Lemma asks_silent env {A} (m : M A) : silent m -> asks env m.
Proof. intros H w. left. apply H. Qed.

Lemma asks_bind_lift env {A B} (r : res A) (k : A -> M B) :
  (forall a, asks env (k a)) -> asks env (bind (lift r) k).
Proof.
  intros Hk w. unfold bind, lift. destruct r as [a|e]; [apply Hk | left; reflexivity].
Qed.

Lemma asks_bind_yahoo env {B} base quote (k : option Decimal -> M B) :
  (forall y, silent (k y)) -> asks env (bind (get_yahoo_rate env base quote) k).
Proof.
  intros Hk w. right. exists base, quote. unfold bind.
  destruct (get_yahoo_rate env base quote w) as [[y|e] w0]; simpl; [apply Hk | reflexivity].
Qed.

Ltac asks_step :=
  first [ match goal with
          | |- asks _ (match ?x with _ => _ end) => destruct x
          end
        | apply asks_bind_yahoo; intro; solve [repeat silent_step]
        | apply asks_bind_lift; intro
        | apply asks_silent; solve [repeat silent_step] ].

Lemma route_asks env basket prices F T amount :
  asks env (route env basket prices F T amount).
Proof. unfold route. repeat asks_step. Qed.

Lemma ecb_log env w :
  log (get_ecb_rates env w).2 = log w \/ log (get_ecb_rates env w).2 = GetEcb :: log w.
Proof.
  unfold get_ecb_rates, bind, get_cache, requests_get, set_ecb, ret, raise.
  destruct (if fresh _ _ _ then _ else None); [left; reflexivity|].
  destruct (ecb_reply env); [right; reflexivity|].
  destruct (truthy_data _); right; reflexivity.
Qed.

Lemma binance_log env w :
  log (get_binance_prices env w).2 = log w
  \/ log (get_binance_prices env w).2 = GetBinance :: log w.
Proof.
  unfold get_binance_prices, bind, get_cache, requests_get, set_binance, ret.
  destruct (if fresh _ _ _ then _ else None); [left; reflexivity|].
  destruct (binance_reply_of env) as [|code [items|]]; try (right; reflexivity);
    destruct (negb (code =? 200)); right; reflexivity.
Qed.

Lemma yahoo_log env base quote w :
  log (get_yahoo_rate env base quote w).2 = log w
  \/ log (get_yahoo_rate env base quote w).2 = GetYahoo (pair_key base quote) :: log w.
Proof.
  unfold get_yahoo_rate, bind, get_cache, requests_get, set_yahoo, ret.
  fold (pair_key base quote).
  destruct (if fresh _ _ _ then _ else None); [left; reflexivity|].
  destruct (yahoo_reply env _); right; reflexivity.
Qed.

(** The world a request leaves behind, provider by provider. *)
Lemma convert_world env f t amount w :
  exists w1 w2 w3,
    w1 = (get_ecb_rates env w).2
    /\ (w2 = w1 \/ w2 = (get_binance_prices env w1).2)
    /\ (w3 = w2 \/ exists base quote, w3 = (get_yahoo_rate env base quote w2).2)
    /\ (convert env f t amount w).2 = w3.
Proof.
  unfold convert, bind.
  destruct (get_ecb_rates env w) as [[basket|e] w1] eqn:E1.
  - destruct (get_binance_prices env w1) as [[prices|e] w2] eqn:E2.
    + exists w1, w2, (route env basket prices (upper f) (upper t) amount w2).2.
      repeat split.
      * right. rewrite E2. reflexivity.
      * apply route_asks.
    + exists w1, w2, w2. repeat split; [right; rewrite E2; reflexivity | left; reflexivity].
  - exists w1, w1, w1. repeat split; left; reflexivity.
Qed.

(** X10.  One conversion makes at most one request to each upstream, in the
    order ECB, Binance, Yahoo, and never drops a logged request; when the
    source code is a crypto and the target is a crypto or USD, the router
    makes no request and leaves the cache as the two bulk providers left
    it. *)
Theorem convert_requests env f t amount w :
  (exists e b y,
     log (convert env f t amount w).2 = y ++ b ++ e ++ log w
     /\ (e = [] \/ e = [GetEcb]) /\ (b = [] \/ b = [GetBinance])
     /\ (y = [] \/ exists base quote, y = [GetYahoo (pair_key base quote)]))
  /\ (forall basket w1 prices w2,
        get_ecb_rates env w = (Ok basket, w1) ->
        get_binance_prices env w1 = (Ok prices, w2) ->
        basket !! upper f = None ->
        basket !! upper t = None \/ upper t = "USD"%string ->
        (convert env f t amount w).2 = w2).
Proof.
  split.
  - destruct (convert_world env f t amount w) as (w1 & w2 & w3 & -> & H2 & H3 & ->).
    assert (He : exists e, log (get_ecb_rates env w).2 = e ++ log w
                           /\ (e = [] \/ e = [GetEcb])).
    { destruct (ecb_log env w) as [-> | ->]; [exists [] | exists [GetEcb]]; auto. }
    destruct He as (e & He & He').
    assert (Hb : exists b, log w2 = b ++ log (get_ecb_rates env w).2
                           /\ (b = [] \/ b = [GetBinance])).
    { destruct H2 as [-> | ->]; [exists []; auto|].
      destruct (binance_log env (get_ecb_rates env w).2) as [-> | ->];
        [exists [] | exists [GetBinance]]; auto. }
    destruct Hb as (b & Hb & Hb').
    assert (Hy : exists y, log w3 = y ++ log w2
                           /\ (y = [] \/ exists base quote, y = [GetYahoo (pair_key base quote)])).
    { destruct H3 as [-> | (base & quote & ->)]; [exists []; auto|].
      destruct (yahoo_log env base quote w2) as [-> | ->];
        [exists []; auto | exists [GetYahoo (pair_key base quote)]]; eauto. }
    destruct Hy as (y & Hy & Hy').
    exists e, b, y. rewrite Hy, Hb, He. auto.
  - intros basket w1 prices w2 He Hb HF HT.
    rewrite (convert_route _ _ _ _ _ _ _ _ _ He Hb).
    unfold route. rewrite (contains_None _ _ HF). simpl.
    destruct (contains basket (upper t)) eqn:CT; simpl.
    + destruct HT as [HT | HT].
      { apply contains_None in HT. congruence. }
      rewrite HT. simpl.
      destruct (truth _); [|reflexivity].
      assert (Hs : forall A (m : M A), silent m -> (m w2).2 = w2) by (intros A m Hm; apply Hm).
      apply Hs. repeat silent_step.
    + assert (Hs : forall A (m : M A), silent m -> (m w2).2 = w2) by (intros A m Hm; apply Hm).
      apply Hs. repeat silent_step.
Qed.

Lemma convert_requests_witness :
  (convert Sample.env "btc" "usd" (Sample.dec 5 (-1)) Sample.w0).2 = Sample.w2.
Proof.
  destruct (convert_requests Sample.env "btc" "usd" (Sample.dec 5 (-1)) Sample.w0) as [_ H].
  apply (H Sample.basket Sample.w1 Sample.prices).
  - apply sample_ecb; reflexivity.
  - apply sample_binance; reflexivity.
  - reflexivity.
  - right. reflexivity.
Defined.

(** ** The cache over time *)

Lemma grows_refl w : grows w w.
Proof. unfold grows. repeat split; auto. Qed.

Lemma grows_trans w1 w2 w3 : grows w1 w2 -> grows w2 w3 -> grows w1 w3.
Proof.
  intros (A1 & B1 & C1 & D1) (A2 & B2 & C2 & D2). unfold grows. repeat split; auto.
  etrans; eassumption.
Qed.

Lemma ecb_grows env w : grows w (get_ecb_rates env w).2.
Proof.
  unfold get_ecb_rates, bind, get_cache, requests_get, set_ecb, ret, raise.
  destruct (if fresh _ _ _ then _ else None); [apply grows_refl|].
  destruct (ecb_reply env); [|destruct (truthy_data _)];
    unfold grows; simpl; repeat split; eauto; apply suffix_cons_r; reflexivity.
Qed.

Lemma binance_grows env w : grows w (get_binance_prices env w).2.
Proof.
  unfold get_binance_prices, bind, get_cache, requests_get, set_binance, ret.
  destruct (if fresh _ _ _ then _ else None); [apply grows_refl|].
  destruct (binance_reply_of env) as [|code [items|]]; try destruct (negb (code =? 200));
    unfold grows; simpl; repeat split; eauto; apply suffix_cons_r; reflexivity.
Qed.

Lemma yahoo_grows env base quote w : grows w (get_yahoo_rate env base quote w).2.
Proof.
  unfold get_yahoo_rate, bind, get_cache, requests_get, set_yahoo, ret.
  destruct (if fresh _ _ _ then _ else None); [apply grows_refl|].
  destruct (yahoo_reply env _);
    unfold grows; simpl; repeat split; eauto; try (apply suffix_cons_r; reflexivity).
  intros pair Hp. destruct (decide (upper base +:+ upper quote +:+ "=X" = pair)) as [->|Hne].
  - rewrite lookup_insert_eq. eauto.
  - rewrite lookup_insert_ne by assumption. assumption.
Qed.

Lemma convert_grows env f t amount w : grows w (convert env f t amount w).2.
Proof.
  destruct (convert_world env f t amount w) as (w1 & w2 & w3 & -> & H2 & H3 & ->).
  apply grows_trans with (get_ecb_rates env w).2; [apply ecb_grows|].
  apply grows_trans with w2.
  - destruct H2 as [-> | ->]; [apply grows_refl | apply binance_grows].
  - destruct H3 as [-> | (base & quote & ->)]; [apply grows_refl | apply yahoo_grows].
Qed.

(** X11.  Nothing is ever evicted: over any sequence of requests, a pair key
    that is cached stays cached, a bulk source that has data keeps having
    data, and the log of requests only grows at its head. *)
Theorem cache_only_grows w w' : rtc served w w' -> grows w w'.
Proof.
  induction 1 as [w | w w1 w2 (env & f & t & amount & ->) _ IH].
  - apply grows_refl.
  - eapply grows_trans; [apply convert_grows | exact IH].
Qed.

Lemma cache_only_grows_witness :
  grows SamplePairs.w1 (convert Sample.env "btc" "usd" (Sample.dec 5 (-1)) SamplePairs.w1).2.
Proof.
  apply cache_only_grows. apply rtc_once.
  exists Sample.env, "btc"%string, "usd"%string, (Sample.dec 5 (-1)). reflexivity.
Defined.

(** ** What a refresh stores *)

Lemma assign_all_app l1 l2 (m : gmap string Decimal) :
  assign_all (l1 ++ l2) m = assign_all l2 (assign_all l1 m).
Proof. unfold assign_all. apply fold_left_app. Qed.

Lemma assign_all_notin items (m : gmap string Decimal) k :
  k ∉ items.*1 -> assign_all items m !! k = m !! k.
Proof.
  unfold assign_all. revert m. induction items as [|[k' v] items IH]; intros m Hk; simpl.
  - reflexivity.
  - simpl in Hk. apply not_elem_of_cons in Hk as [Hne Hk].
    rewrite IH by assumption. apply lookup_insert_ne. congruence.
Qed.

Lemma assign_all_last l1 l2 (m : gmap string Decimal) k v :
  k ∉ l2.*1 -> assign_all (l1 ++ (k, v) :: l2) m !! k = Some v.
Proof.
  intros Hk. rewrite assign_all_app.
  change (assign_all ((k, v) :: l2) (assign_all l1 m))
    with (assign_all l2 (<[k := v]> (assign_all l1 m))).
  rewrite assign_all_notin by assumption. apply lookup_insert_eq.
Qed.

Lemma assign_all_in items (m : gmap string Decimal) k :
  k ∈ items.*1 -> is_Some (assign_all items m !! k).
Proof.
  intros Hk. apply list_elem_of_fmap in Hk as ([k' v] & -> & Hin).
  apply list_elem_of_split in Hin as (l1 & l2 & ->).
  rewrite assign_all_app.
  change (assign_all ((k', v) :: l2) (assign_all l1 m))
    with (assign_all l2 (<[k' := v]> (assign_all l1 m))).
  apply assign_all_keeps_key. rewrite lookup_insert_eq. eauto.
Qed.

(** X12.  A refresh of a bulk source replaces the mapping: the basket stored
    and returned has exactly the currencies of the document plus EUR (at 1.0
    unless the document lists EUR), the price mapping exactly the symbols of
    the ticker list, and when a key occurs several times its last value
    wins.  Nothing of the previous mapping survives. *)
Theorem refresh_replaces :
  (forall env w rates w1 cubes,
     get_ecb_rates env w = (Ok rates, w1) ->
     log w1 = GetEcb :: log w ->
     ecb_reply env = Some cubes ->
     data (ecb (cache w1)) = Some rates
     /\ (forall currency, is_Some (rates !! currency) <->
                          currency = "EUR"%string \/ currency ∈ cubes.*1)
     /\ ("EUR"%string ∉ cubes.*1 -> rates !! "EUR"%string = Some (mkDecimal false 10 (-1)))
     /\ (forall l1 currency rate l2,
           cubes = l1 ++ (currency, rate) :: l2 -> currency ∉ l2.*1 ->
           rates !! currency = Some rate))
  /\ (forall env w prices w1 items,
        get_binance_prices env w = (Ok prices, w1) ->
        log w1 = GetBinance :: log w ->
        binance_reply_of env = BinanceResponse 200 (Some items) ->
        data (binance (cache w1)) = Some prices
        /\ (forall symbol, is_Some (prices !! symbol) <-> symbol ∈ items.*1)
        /\ (forall l1 symbol price l2,
              items = l1 ++ (symbol, price) :: l2 -> symbol ∉ l2.*1 ->
              prices !! symbol = Some price)).
Proof.
  split.
  - intros env w rates w1 cubes Hc Hl Hr.
    assert (Hrates : rates = assign_all cubes {[ "EUR"%string := mkDecimal false 10 (-1) ]}
                     /\ data (ecb (cache w1)) = Some rates).
    { revert Hc Hl. unfold get_ecb_rates, bind, get_cache, requests_get, set_ecb, ret, raise.
      rewrite Hr. destruct (if fresh _ _ _ then _ else None).
      - intros [= _ <-] Hl. exfalso. exact (cons_neq _ _ Hl).
      - intros [= <- <-] _. split; reflexivity. }
    destruct Hrates as [-> Hd]. split; [exact Hd|]. split; [|split].
    + intros currency. split.
      * intros Hs. destruct (decide (currency ∈ cubes.*1)) as [Hin|Hin]; [right; exact Hin|].
        left. rewrite assign_all_notin in Hs by assumption.
        destruct (decide (currency = "EUR"%string)) as [->|Hne]; [reflexivity|].
        rewrite lookup_singleton_ne in Hs by congruence. destruct Hs; discriminate.
      * intros [-> | Hin].
        -- apply assign_all_keeps_key. rewrite lookup_singleton_eq. eauto.
        -- apply assign_all_in, Hin.
    + intros Hn. rewrite assign_all_notin by assumption. apply lookup_singleton_eq.
    + intros l1 currency rate l2 -> Hn. apply assign_all_last, Hn.
  - intros env w prices w1 items Hc Hl Hr.
    destruct (binance_fetched _ _ _ _ _ Hc Hl Hr) as [Hcache ->].
    split; [rewrite Hcache; reflexivity|]. split.
    + intros symbol. split.
      * intros Hs. destruct (decide (symbol ∈ items.*1)) as [Hin|Hin]; [exact Hin|].
        rewrite assign_all_notin in Hs by assumption.
        rewrite lookup_empty in Hs. destruct Hs; discriminate.
      * apply assign_all_in.
    + intros l1 symbol price l2 -> Hn. apply assign_all_last, Hn.
Qed.

Lemma refresh_replaces_witness :
  Sample.basket !! "EUR"%string = Some (mkDecimal false 10 (-1))
  /\ Sample.prices !! "ETHUSDT"%string = Some (Sample.dec 300000000000 (-8)).
Proof.
  destruct refresh_replaces as [He Hb]. split.
  - destruct (He Sample.env Sample.w0 Sample.basket Sample.w1 Sample.cubes
                (sample_ecb Sample.env eq_refl eq_refl) eq_refl eq_refl) as (_ & _ & H & _).
    apply H. refine (bool_decide_unpack _ _). vm_compute. exact I.
  - destruct (Hb Sample.env Sample.w1 Sample.prices Sample.w2 Sample.ticker
                (sample_binance Sample.env eq_refl eq_refl) eq_refl eq_refl) as (_ & _ & H).
    apply (H [("BTCUSDT"%string, Sample.dec 6000000000000 (-8))] "ETHUSDT"%string _
             (tl (tl Sample.ticker))); [reflexivity|].
    refine (bool_decide_unpack _ _). vm_compute. exact I.
Defined.

(** ** Binance outage *)

Lemma binance_down_returns env w :
  binance_down env ->
  ~ (time_binance env - timestamp (binance (cache w)) < BINANCE_TTL)%Q ->
  get_binance_prices env w = (Ok ∅, mkWorld (cache w) (GetBinance :: log w)).
Proof.
  intros Hd Hf. apply fresh_false_iff in Hf.
  unfold get_binance_prices, bind, get_cache, requests_get, set_binance, ret.
  rewrite Hf. unfold binance_down in Hd.
  destruct (binance_reply_of env) as [|code json]; [reflexivity|].
  destruct (Z.eqb_spec code 200) as [->|Hne]; simpl; [|reflexivity].
  destruct Hd as [Hd | ->]; [contradiction | reflexivity].
Qed.

(** X13.  While Binance is down and its cache entry has expired, the
    provider returns an empty mapping and leaves the cache alone: the prices
    cached before are neither used nor dropped.  Every request with a crypto
    code then fails with the 400 error of its quadrant, and a request
    between two fiat codes is answered as with any price mapping. *)
Theorem binance_outage env f t amount w basket w1 :
  binance_down env ->
  get_ecb_rates env w = (Ok basket, w1) ->
  ~ (time_binance env - timestamp (binance (cache w1)) < BINANCE_TTL)%Q ->
  get_binance_prices env w1 = (Ok ∅, mkWorld (cache w1) (GetBinance :: log w1))
  /\ (basket !! upper f = None \/ basket !! upper t = None ->
      convert env f t amount w
      = (Raise (match basket !! upper f, basket !! upper t with
                | None, None => Spec.unsupported_pair (upper f) (upper t)
                | None, Some _ => Spec.unsupported_crypto (upper f)
                | _, _ => Spec.unsupported_target_crypto (upper t)
                end),
         mkWorld (cache w1) (GetBinance :: log w1)))
  /\ (is_Some (basket !! upper f) -> is_Some (basket !! upper t) ->
      forall prices,
        convert env f t amount w
        = route env basket prices (upper f) (upper t) amount
                (mkWorld (cache w1) (GetBinance :: log w1))).
Proof.
  intros Hd He Hf. pose proof (binance_down_returns env w1 Hd Hf) as Hb.
  split; [exact Hb|]. split; cycle 1.
  { intros [bf HF] [bt HT] prices.
    rewrite (convert_route _ _ _ _ _ _ _ _ _ He Hb). unfold route.
    rewrite (contains_Some _ _ _ HF), (contains_Some _ _ _ HT). reflexivity. }
  intros Hc.
  rewrite (convert_route _ _ _ _ _ _ _ _ _ He Hb).
  assert (Hn : forall k, truth ((∅ : gmap string Decimal) !! k) = None).
  { intros k. rewrite lookup_empty. reflexivity. }
  destruct (basket !! upper f) as [bf|] eqn:HF; destruct (basket !! upper t) as [bt|] eqn:HT.
  - destruct Hc; discriminate.
  - eapply fiat_crypto_unsupported; eauto.
  - eapply crypto_fiat_unsupported; eauto.
  - apply crypto_crypto_unsupported; auto.
Qed.

(** Prices cached at time 1000, Binance answering 502 at time 1015: the
    cached BTCUSDT price is not used. *)
Lemma binance_outage_witness :
  match data (binance (cache SampleOutage.w)) with
  | Some prices => prices !! "BTCUSDT"%string
  | None => None
  end = Some (Sample.dec 6000000000000 (-8))
  /\ (convert SampleOutage.env "btc" "usd" (Sample.dec 10 (-1)) SampleOutage.w).1
     = Raise (HTTPException 400 "Unsupported crypto: BTC").
Proof.
  split. vm_compute; reflexivity.
  destruct (binance_outage SampleOutage.env "btc" "usd" (Sample.dec 10 (-1)) SampleOutage.w
              Sample.basket (get_ecb_rates SampleOutage.env SampleOutage.w).2) as (_ & H & _).
  - left; discriminate.
  - vm_compute; reflexivity.
  - vm_compute; intros [=].
  - rewrite H by (left; reflexivity). reflexivity.
Defined.

(** ** Basket entries the fallback cannot use *)

(** X14.  With a basket that does not list USD, the basket fallback of the
    two mixed quadrants raises [KeyError 'USD']: in Crypto -> Fiat once the
    amount has been multiplied by the price, in Fiat -> Crypto once the
    amount has been divided by the source's rate. *)
Theorem basket_without_usd env f t amount w basket w1 prices w2 p y w3 :
  get_ecb_rates env w = (Ok basket, w1) ->
  get_binance_prices env w1 = (Ok prices, w2) ->
  basket !! "USD"%string = None ->
  truth y = None ->
  (forall usd_amount,
     basket !! upper f = None -> is_Some (basket !! upper t) ->
     truth (prices !! (upper f +:+ "USDT")) = Some p ->
     mul amount p = Ok usd_amount ->
     get_yahoo_rate env "USD" (upper t) w2 = (Ok y, w3) ->
     convert env f t amount w = (Raise (KeyError "USD"), w3))
  /\ (forall bf eur,
        basket !! upper f = Some bf -> basket !! upper t = None ->
        truth (prices !! (upper t +:+ "USDT")) = Some p ->
        get_yahoo_rate env (upper f) "USD" w2 = (Ok y, w3) ->
        div amount bf = Ok eur ->
        convert env f t amount w = (Raise (KeyError "USD"), w3)).
Proof.
  intros He Hb Husd Hy. split.
  - intros usd_amount HF [bt HT] Hp Hm Hyr.
    rewrite (convert_route _ _ _ _ _ _ _ _ _ He Hb). unfold route.
    rewrite (contains_None _ _ HF), (contains_Some _ _ _ HT). simpl. rewrite Hp.
    unfold bind at 1. unfold lift at 1. rewrite Hm.
    assert (Hne : String.eqb (upper t) "USD" = false).
    { apply String.eqb_neq. intros E. rewrite E in HT. congruence. }
    rewrite Hne. unfold bind at 1. rewrite Hyr, Hy.
    unfold bind at 1. unfold lift at 1. unfold getitem at 1. rewrite Husd. reflexivity.
  - intros bf eur HF HT Hp Hyr Hd.
    rewrite (convert_route _ _ _ _ _ _ _ _ _ He Hb). unfold route.
    rewrite (contains_Some _ _ _ HF), (contains_None _ _ HT). simpl. rewrite Hp.
    unfold bind at 1. rewrite Hyr, Hy.
    unfold bind at 1. unfold bind at 1. unfold lift at 1. unfold getitem at 1. rewrite HF.
    unfold bind at 1. unfold lift at 1. rewrite Hd.
    unfold bind at 1. unfold lift at 1. unfold getitem at 1. rewrite Husd. reflexivity.
Qed.

Lemma basket_without_usd_witness :
  (convert SampleNoUsd.env "btc" "jpy" (Sample.dec 10 (-1)) Sample.w0).1
    = Raise (KeyError "USD")
  /\ (convert SampleNoUsd.env "jpy" "btc" (Sample.dec 10 (-1)) Sample.w0).1
    = Raise (KeyError "USD").
Proof.
  pose (basket := assign_all [("JPY"%string, Sample.dec 16300 (-2))]
                    ({[ "EUR"%string := mkDecimal false 10 (-1) ]} : gmap string Decimal)).
  pose (w1 := (get_ecb_rates SampleNoUsd.env Sample.w0).2).
  pose (w2 := (get_binance_prices SampleNoUsd.env w1).2).
  split.
  - destruct (basket_without_usd SampleNoUsd.env "btc" "jpy" (Sample.dec 10 (-1)) Sample.w0
                basket w1 Sample.prices w2 (Sample.dec 6000000000000 (-8)) None
                (get_yahoo_rate SampleNoUsd.env "USD" "JPY" w2).2
                eq_refl eq_refl eq_refl eq_refl) as [H _].
    rewrite (H (Sample.dec 60000000000000 (-9))); try reflexivity.
    eexists; reflexivity.
  - destruct (basket_without_usd SampleNoUsd.env "jpy" "btc" (Sample.dec 10 (-1)) Sample.w0
                basket w1 Sample.prices w2 (Sample.dec 6000000000000 (-8)) None
                (get_yahoo_rate SampleNoUsd.env "JPY" "USD" w2).2
                eq_refl eq_refl eq_refl eq_refl) as [_ H].
    rewrite (H (Sample.dec 16300 (-2)) (Sample.dec 6134969325153374233128834356 (-30)));
      reflexivity.
Defined.

(** X15.  Basket membership is tested by key, not by value: in Fiat -> Fiat
    without a usable pair rate, a source currency listed at rate zero is
    divided by, which raises DivisionByZero, or InvalidOperation when the
    amount is zero too. *)
Theorem basket_zero_rate env f t amount w basket w1 prices w2 bf bt y w3 :
  get_ecb_rates env w = (Ok basket, w1) ->
  get_binance_prices env w1 = (Ok prices, w2) ->
  basket !! upper f = Some bf -> basket !! upper t = Some bt ->
  get_yahoo_rate env (upper f) (upper t) w2 = (Ok y, w3) ->
  truth y = None ->
  dint bf = 0%N ->
  convert env f t amount w
  = (Raise (if (dint amount =? 0)%N then InvalidOperation else DivisionByZero), w3).
Proof.
  intros He Hb HF HT Hyr Hy Hz.
  rewrite (convert_route _ _ _ _ _ _ _ _ _ He Hb).
  rewrite (fiat_fiat_pair env basket prices _ _ amount w2 bf bt y w3 HF HT Hyr), Hy.
  unfold Spec.basket_cross, div. rewrite Hz.
  change (0 =? 0)%N with true. cbv iota.
  destruct (dint amount =? 0)%N; reflexivity.
Qed.

(** JPY -> EUR for 1 divides by the rate 0 of JPY. *)
Lemma basket_zero_rate_witness :
  (convert SampleZeroRate.env "jpy" "eur" (Sample.dec 10 (-1)) Sample.w0).1
  = Raise DivisionByZero.
Proof.
  pose (w1 := (get_ecb_rates SampleZeroRate.env Sample.w0).2).
  pose (w2 := (get_binance_prices SampleZeroRate.env w1).2).
  rewrite (basket_zero_rate SampleZeroRate.env "jpy" "eur" (Sample.dec 10 (-1)) Sample.w0
             (assign_all [("JPY"%string, Sample.dec 0 0)]
                ({[ "EUR"%string := mkDecimal false 10 (-1) ]} : gmap string Decimal))
             w1 Sample.prices w2 (Sample.dec 0 0) (mkDecimal false 10 (-1)) None
             (get_yahoo_rate SampleZeroRate.env "JPY" "EUR" w2).2
             eq_refl eq_refl eq_refl eq_refl eq_refl eq_refl eq_refl).
  reflexivity.
Defined.

(** ** The rate and the amount *)

Lemma quoted_via_rate basket prices pair F T a a' via via' rate rate' c c' :
  quoted basket prices pair F T a via rate c ->
  quoted basket prices pair F T a' via' rate' c' ->
  via = via'
  /\ (via <> "yahoo+binance"%string -> via <> "ecb+binance"%string -> rate = rate').
Proof.
  intros H1 H2. destruct H1; destruct H2;
    repeat match goal with
           | H : is_Some _ |- _ => destruct H
           end;
    try congruence;
    (split; [reflexivity | intros; congruence]).
Qed.

(** X16.  Two requests that differ only in the amount, served from the same
    state, are answered with the same strategy; and, outside Fiat -> Crypto,
    with the same rate field. *)
Theorem rate_independent_of_amount env f t amount amount' w r r' w3 w3' :
  convert env f t amount w = (Ok r, w3) ->
  convert env f t amount' w = (Ok r', w3') ->
  r_via r = r_via r'
  /\ (r_via r <> "yahoo+binance"%string -> r_via r <> "ecb+binance"%string ->
      r_rate r = r_rate r').
Proof.
  intros H1 H2.
  destruct (convert_quoted _ _ _ _ _ _ _ H1)
    as (basket & w1 & prices & w2 & rate & c & He & Hb & HQ & _ & Hr & _).
  destruct (convert_quoted _ _ _ _ _ _ _ H2)
    as (basket' & w1' & prices' & w2' & rate' & c' & He' & Hb' & HQ' & _ & Hr' & _).
  rewrite He in He'. injection He' as <- <-.
  rewrite Hb in Hb'. injection Hb' as <- <-.
  destruct (quoted_via_rate _ _ _ _ _ _ _ _ _ _ _ _ _ HQ HQ') as [Hv Hrate].
  split; [exact Hv|]. intros N1 N2. specialize (Hrate N1 N2). congruence.
Qed.

Lemma rate_independent_of_amount_witness :
  r_rate (mkResult "BTC" "ETH" "1.00000000" "20.00000000" "20.00000000" "USDT")
  = r_rate (mkResult "BTC" "ETH" "300.00000000" "20.00000000" "6000.00000000" "USDT").
Proof.
  apply (rate_independent_of_amount Sample.env "btc" "eth" (Sample.dec 10 (-1))
           (Sample.dec 3000 (-1)) Sample.w0 _ _ Sample.w2 Sample.w2).
  - vm_compute. reflexivity.
  - vm_compute. reflexivity.
  - discriminate.
  - discriminate.
Defined.

(** ** Negative amounts *)

Lemma fix_opp d : fix_ (opp d) = rmap opp (fix_ d).
Proof.
  destruct d as [s c e]. unfold fix_, opp. cbn [dsign dint dexp].
  repeat (case_match; try reflexivity).
Qed.

Lemma mul_opp_l a b : mul (opp a) b = rmap opp (mul a b).
Proof.
  unfold mul. rewrite <- fix_opp. unfold opp. cbn [dsign dint dexp].
  rewrite negb_xorb_l. reflexivity.
Qed.

Lemma div_opp_l a b : div (opp a) b = rmap opp (div a b).
Proof.
  unfold div, opp. cbn [dsign dint dexp]. rewrite <- negb_xorb_l.
  repeat (case_match; try reflexivity);
    match goal with
    | |- fix_ (mkDecimal (negb ?s) ?c ?e) = _ => apply (fix_opp (mkDecimal s c e))
    end.
Qed.

Lemma div_opp_r a b : div a (opp b) = rmap opp (div a b).
Proof.
  unfold div, opp. cbn [dsign dint dexp]. rewrite <- negb_xorb_r.
  repeat (case_match; try reflexivity);
    match goal with
    | |- fix_ (mkDecimal (negb ?s) ?c ?e) = _ => apply (fix_opp (mkDecimal s c e))
    end.
Qed.

Lemma opp_involutive d : opp (opp d) = d.
Proof. destruct d as [s c e]. unfold opp. simpl. rewrite negb_involutive. reflexivity. Qed.

Lemma div_opp_opp a b : div (opp a) (opp b) = rmap (fun d => d) (div a b).
Proof.
  rewrite div_opp_l, div_opp_r. destruct (div a b); simpl; [|reflexivity].
  rewrite opp_involutive. reflexivity.
Qed.

Lemma rescale_opp d exp : rescale (opp d) exp = opp (rescale d exp).
Proof.
  destruct d as [s c e]. unfold rescale, opp. cbn [dsign dint dexp].
  repeat (case_match; try reflexivity).
Qed.

Lemma quantize_opp d : quantize (opp d) (-8) = rmap opp (quantize d (-8)).
Proof.
  unfold quantize. rewrite rescale_opp.
  change (adjusted (opp d)) with (adjusted d).
  change (dint (opp d)) with (dint d).
  change (adjusted (opp (rescale d (-8)))) with (adjusted (rescale d (-8))).
  change (dint (opp (rescale d (-8)))) with (dint (rescale d (-8))).
  repeat (case_match; try reflexivity); apply fix_opp.
Qed.

Lemma fmt_opp d s :
  fmt d = Ok s ->
  exists s', fmt (opp d) = Ok s' /\ read8 s' = opp (read8 s).
Proof.
  intros H. destruct (fmt_quantize d s H) as (q & Hq & -> & Hr).
  destruct (quantize_value d q Hq) as (He & _).
  exists (format_f (opp q)). split.
  - unfold fmt. rewrite quantize_opp, Hq. reflexivity.
  - rewrite Hr. apply read8_format_f. exact He.
Qed.

Lemma fmt_opp_raises d e : fmt d = Raise e -> fmt (opp d) = Raise e.
Proof.
  unfold fmt. rewrite quantize_opp. destruct (quantize d (-8)); simpl; [discriminate|auto].
Qed.

Section Related.
Context {A B : Type}.

Lemma related_ret (R : A -> A -> Prop) a a' : R a a' -> related R (ret a) (ret a').
Proof. intros H w. split; [reflexivity | exact H]. Qed.

Lemma related_raise (R : A -> A -> Prop) e : related R (raise e) (raise e).
Proof. intros w. split; reflexivity. Qed.

Lemma related_lift (R : A -> A -> Prop) (g : A -> A) (r r' : res A) :
  r' = rmap g r -> (forall a, r = Ok a -> R a (g a)) -> related R (lift r) (lift r').
Proof.
  intros -> H w. split; [reflexivity|]. unfold lift. simpl.
  destruct r; simpl; auto.
Qed.

Lemma related_bind (R1 : A -> A -> Prop) (R : B -> B -> Prop) (m m' : M A) (k k' : A -> M B) :
  related R1 m m' -> (forall a a', R1 a a' -> related R (k a) (k' a')) ->
  related R (bind m k) (bind m' k').
Proof.
  intros Hm Hk w. unfold bind. destruct (Hm w) as [Hw Hr].
  destruct (m w) as [[a|e] w1]; destruct (m' w) as [[a'|e'] w1']; simpl in *;
    try contradiction; subst.
  - apply Hk, Hr.
  - split; reflexivity.
Qed.

Lemma related_bind_same (R : B -> B -> Prop) (m : M A) (k k' : A -> M B) :
  (forall a, related R (k a) (k' a)) -> related R (bind m k) (bind m k').
Proof.
  intros Hk w. unfold bind. destruct (m w) as [[a|e] w1]; [apply Hk|].
  split; reflexivity.
Qed.

Lemma related_bind_lift (R : B -> B -> Prop) (g : A -> A) (r r' : res A) (k k' : A -> M B) :
  r' = rmap g r -> (forall a, r = Ok a -> related R (k a) (k' (g a))) ->
  related R (bind (lift r) k) (bind (lift r') k').
Proof.
  intros -> Hk w. unfold bind, lift. destruct r as [a|e]; simpl.
  - apply Hk. reflexivity.
  - split; reflexivity.
Qed.

End Related.

Lemma related_bind_fmt {B} (R : B -> B -> Prop) d (k k' : string -> M B) :
  (forall s s', fmt d = Ok s -> read8 s' = opp (read8 s) -> related R (k s) (k' s')) ->
  related R (bind (lift (fmt d)) k) (bind (lift (fmt (opp d))) k').
Proof.
  intros Hk w. unfold bind, lift. destruct (fmt d) as [s|e] eqn:E.
  - destruct (fmt_opp d s E) as (s' & -> & Hs). apply Hk; auto.
  - rewrite (fmt_opp_raises d e E). split; reflexivity.
Qed.

Lemma related_response F T a r c via :
  related mirrored (lift (response F T a r c via))
                   (lift (response F T (opp a) r (opp c) via)).
Proof.
  intros w. split; [reflexivity|]. unfold lift, response. simpl.
  destruct (fmt a) as [sa|e] eqn:Ea.
  - destruct (fmt_opp a sa Ea) as (sa' & -> & Hsa). simpl.
    destruct (fmt r) as [sr|e]; simpl; [|reflexivity].
    destruct (fmt c) as [sc|e] eqn:Ec.
    + destruct (fmt_opp c sc Ec) as (sc' & -> & Hsc). simpl.
      unfold mirrored. simpl. auto 10.
    + rewrite (fmt_opp_raises c e Ec). reflexivity.
  - rewrite (fmt_opp_raises a e Ea). reflexivity.
Qed.

Ltac related_step :=
  match goal with
  | |- related _ (lift (response _ _ _ _ _ _)) _ => apply related_response
  | |- related _ (raise _) (raise _) => apply related_raise
  | |- related _ (ret _) (ret _) => apply related_ret; unfold mirrored; simpl; auto 10
  | |- related _ (lift _) (lift _) =>
      eapply related_lift; [apply mul_opp_l | intros; reflexivity]
  | |- related _ (bind (lift (fmt ?d)) _) (bind (lift (fmt (opp ?d))) _) =>
      apply related_bind_fmt; intros
  | |- related _ (bind ?m _) (bind ?m _) => apply related_bind_same; intro
  | |- related _ (bind (lift _) _) (bind (lift _) _) =>
      eapply related_bind_lift;
        [ first [apply mul_opp_l | apply div_opp_opp | apply div_opp_l | apply div_opp_r]
        | intros ]
  | |- related _ (bind (match _ with _ => _ end) _) _ =>
      apply related_bind with (R1 := fun a a' => a' = opp a); [|intros ? ? ->]
  | |- related _ (match ?x with _ => _ end) _ => destruct x eqn:?
  end.

Lemma route_mirrored env basket prices F T amount :
  related mirrored (route env basket prices F T amount)
                   (route env basket prices F T (opp amount)).
Proof.
  unfold route.
  destruct (contains basket F); destruct (contains basket T); simpl;
    repeat related_step.
Qed.

Lemma convert_mirrored env f t amount :
  related mirrored (convert env f t amount) (convert env f t (opp amount)).
Proof.
  unfold convert. apply related_bind_same. intros basket.
  apply related_bind_same. intros prices. apply route_mirrored.
Qed.

(** X17.  Amounts are not checked for sign.  The request for [-amount] does
    to the cache what the request for [amount] does, raises the same
    exception or returns the same codes, rate and strategy, and its amount
    and converted fields read as the opposite decimals. *)
Theorem negative_amount_mirrors env f t amount w w' :
  (forall r, convert env f t amount w = (Ok r, w') ->
             exists r', convert env f t (opp amount) w = (Ok r', w') /\ mirrored r r')
  /\ (forall e, convert env f t amount w = (Raise e, w') ->
                convert env f t (opp amount) w = (Raise e, w')).
Proof.
  destruct (convert_mirrored env f t amount w) as [Hw Hr].
  destruct (convert env f t amount w) as [[r|e] w1];
    destruct (convert env f t (opp amount) w) as [[r'|e'] w1']; simpl in *;
    try contradiction; subst; split; try discriminate.
  - intros r0 [= <- <-]. eauto.
  - intros e0 [= <- <-]. reflexivity.
Qed.

Lemma negative_amount_mirrors_witness :
  exists r', convert Sample.env "btc" "usd" (opp (Sample.dec 5 (-1))) Sample.w0
             = (Ok r', Sample.w2)
             /\ mirrored (mkResult "BTC" "USD" "0.50000000" "60000.00000000"
                            "30000.00000000" "binance") r'.
Proof.
  destruct (negative_amount_mirrors Sample.env "btc" "usd" (Sample.dec 5 (-1))
              Sample.w0 Sample.w2) as [H _].
  apply H. vm_compute. reflexivity.
Defined.

(** BTC -> USD for -0.5. *)
Lemma negative_amount_sample :
  (convert Sample.env "btc" "usd" (opp (Sample.dec 5 (-1))) Sample.w0).1
  = Ok (mkResult "BTC" "USD" "-0.50000000" "60000.00000000" "-30000.00000000" "binance").
Proof. vm_compute. reflexivity. Qed.

Local Open Scope R_scope.

(** ** Accuracy of a result *)

Lemma mul_band_mag a b c j k nx ny X Y :
  mul a b = Ok c ->
  band j (val a) X -> mag nx X -> band k (val b) Y -> mag ny Y ->
  (j + k <= 10)%nat -> (nx + ny <= 999990)%Z ->
  band (S (j + k)) (val c) (X * Y) /\ mag (nx + ny) (X * Y).
Proof.
  intros H Ba Ma Bb Mb Hjk Hn.
  assert (M : mag (nx + ny) (X * Y)) by (apply mag_mul; assumption).
  split; [|exact M]. eapply mul_band; eassumption.
Qed.

Lemma div_band_mag a b c j k nx ny X Y :
  div a b = Ok c ->
  band j (val a) X -> mag nx X -> band k (val b) Y -> mag ny Y ->
  (j + k <= 10)%nat -> (nx + ny <= 999990)%Z ->
  band (S (j + k)) (val c) (X / Y) /\ mag (nx + ny) (X / Y).
Proof.
  intros H Ba Ma Bb Mb Hjk Hn.
  assert (M : mag (nx + ny) (X / Y)) by (apply mag_div; assumption).
  split; [|exact M]. eapply div_band; eassumption.
Qed.

(** Follow the operations of a strategy, each value with the real number it
    approximates and the magnitude of that number. *)
Ltac band_chain :=
  repeat match goal with
         | H : mul ?a ?b = Ok ?c,
           Ba : band ?j (val ?a) ?X, Ma : mag ?nx ?X,
           Bb : band ?k (val ?b) ?Y, Mb : mag ?ny ?Y |- _ =>
             lazymatch goal with
             | _ : band _ (val c) _ |- _ => fail
             | _ =>
                 destruct (mul_band_mag a b c j k nx ny X Y H Ba Ma Bb Mb
                             ltac:(simpl; lia) ltac:(unfold level; lia))
             end
         | H : div ?a ?b = Ok ?c,
           Ba : band ?j (val ?a) ?X, Ma : mag ?nx ?X,
           Bb : band ?k (val ?b) ?Y, Mb : mag ?ny ?Y |- _ =>
             lazymatch goal with
             | _ : band _ (val c) _ |- _ => fail
             | _ =>
                 destruct (div_band_mag a b c j k nx ny X Y H Ba Ma Bb Mb
                             ltac:(simpl; lia) ltac:(unfold level; lia))
             end
         end.

Section QuotedIdeal.
Variables (basket prices : gmap string Decimal).
Variable pair_rate : string -> string -> option Decimal.
Variables (F T : string) (amount : Decimal).
Hypothesis Hamount : moderate amount.
Hypothesis Hbasket : moderate_map basket.
Hypothesis Hprices : moderate_map prices.
Hypothesis Hpair_rate : forall base quote y, pair_rate base quote = Some y -> moderate y.

(** What a strategy computes is what it would compute in exact arithmetic,
    up to four roundings. *)
Lemma quoted_ideal via rate converted :
  quoted basket prices pair_rate F T amount via rate converted ->
  exists R C,
    ideal basket prices pair_rate F T (val amount) via R C
    /\ band 4 (val rate) R /\ band 4 (val converted) C.
Proof.
  pose proof (moderate_mag _ Hamount) as MA.
  pose proof (band_refl (val amount)) as BA.
  assert (B1 : band 0 (val one) 1) by (rewrite val_one; apply band_refl).
  pose proof mag_one as M1.
  intros Hq. destruct Hq;
    repeat match goal with
           | H : truth (prices !! ?k) = Some ?p |- _ =>
               lazymatch goal with
               | _ : band 0 (val p) (val p) |- _ => fail
               | _ =>
                   pose proof (band_refl (val p));
                   pose proof (moderate_mag p (Hprices k p (proj1 (truth_val _ _ H))))
               end
           | H : truth (pair_rate ?b ?q) = Some ?p |- _ =>
               lazymatch goal with
               | _ : band 0 (val p) (val p) |- _ => fail
               | _ =>
                   pose proof (band_refl (val p));
                   pose proof (moderate_mag p (Hpair_rate b q p (proj1 (truth_val _ _ H))))
               end
           | H : basket !! ?k = Some ?p |- _ =>
               lazymatch goal with
               | _ : band 0 (val p) (val p) |- _ => fail
               | _ =>
                   pose proof (band_refl (val p));
                   pose proof (moderate_mag p (Hbasket k p H))
               end
           end;
    band_chain;
    eexists; eexists; (split; [|split]); cycle 1;
    try (eapply band_weaken; [eassumption | lia]);
    econstructor; eassumption.
Qed.

End QuotedIdeal.

(** A printed field against the real number its value approximates. *)
Lemma printed_accuracy d s X :
  fmt d = Ok s -> band 4 (val d) X ->
  Rabs (val (read8 s) - X) <= / 10 ^ 8 / 2 + 9 / 10 ^ 27 * Rabs X.
Proof.
  intros Hf Hb. destruct (fmt_quantize d s Hf) as (q & Hq & _ & ->).
  pose proof (quantize_error d q Hq) as He.
  pose proof (band_diff 4 _ _ Hb) as Hd.
  pose proof (rho_pow_le_10 4 ltac:(lia)) as Hr.
  pose proof (Rabs_pos X) as HX.
  replace (val q - X) with ((val q - val d) + (val d - X)) by ring.
  eapply Rle_trans; [apply Rabs_triang|].
  assert ((rho ^ 4 - 1) * Rabs X <= 9 / 10 ^ 27 * Rabs X) by (apply Rmult_le_compat_r; lra).
  lra.
Qed.

(** X18.  Accuracy of a result.  When the amount and the provider values are
    of moderate magnitude, the rate and the converted fields of a result are
    the values of the strategy's formulas in exact arithmetic, up to half a
    unit of the 8th decimal place plus a relative error of 9e-27. *)
Theorem result_accuracy env f t amount w basket w1 prices w2 r w3 :
  get_ecb_rates env w = (Ok basket, w1) ->
  get_binance_prices env w1 = (Ok prices, w2) ->
  convert env f t amount w = (Ok r, w3) ->
  moderate amount -> moderate_map basket -> moderate_map prices ->
  (forall base quote y, pair_at env w2 base quote = Some y -> moderate y) ->
  exists rate converted,
    ideal basket prices (pair_at env w2) (upper f) (upper t) (val amount) (r_via r)
          rate converted
    /\ Rabs (val (read8 (r_rate r)) - rate) <= / 10 ^ 8 / 2 + 9 / 10 ^ 27 * Rabs rate
    /\ Rabs (val (read8 (r_converted r)) - converted)
       <= / 10 ^ 8 / 2 + 9 / 10 ^ 27 * Rabs converted.
Proof.
  intros He Hb Hc Ha Hbasket Hprices Hpair.
  rewrite (convert_route _ _ _ _ _ _ _ _ _ He Hb) in Hc.
  destruct (route_quoted _ _ _ _ _ _ _ _ _ Hc) as (rate & converted & HQ & _ & Hr & Hcv).
  destruct (quoted_ideal basket prices _ _ _ amount Ha Hbasket Hprices Hpair _ _ _ HQ)
    as (R & C & HI & BR & BC).
  exists R, C. split; [exact HI|]. split; eapply printed_accuracy; eassumption.
Qed.

(** ETH -> BTC for 3 over the USDT bridge: 3 * 3000 / 60000 = 0.15 and
    3000 / 60000 = 0.05. *)
Lemma result_accuracy_witness :
  exists rate converted,
    ideal Sample.basket Sample.prices (pair_at Sample.env Sample.w2) "ETH" "BTC"
          (val (Sample.dec 3 0)) "USDT" rate converted
    /\ Rabs (val (read8 "0.05000000") - rate) <= / 10 ^ 8 / 2 + 9 / 10 ^ 27 * Rabs rate
    /\ Rabs (val (read8 "0.15000000") - converted)
       <= / 10 ^ 8 / 2 + 9 / 10 ^ 27 * Rabs converted.
Proof.
  apply (result_accuracy Sample.env "eth" "btc" (Sample.dec 3 0) Sample.w0
           Sample.basket Sample.w1 Sample.prices Sample.w2
           (mkResult "ETH" "BTC" "3.00000000" "0.05000000" "0.15000000" "USDT") Sample.w2
           (sample_ecb Sample.env eq_refl eq_refl)
           (sample_binance Sample.env eq_refl eq_refl)).
  - vm_compute. reflexivity.
  - apply moderateb_ok. reflexivity.
  - exact sample_basket_moderate.
  - exact sample_prices_moderate.
  - intros base quote y Hy. rewrite sample_pair_none in Hy. discriminate.
Defined.

(** X19.  [fmt] rounds to the nearest multiple of 1e-8 and keeps the sign:
    the printed value is within half a unit of the 8th decimal place of the
    value printed, and a negative value that rounds to zero still prints its
    minus sign. *)
Theorem fmt_rounds_to_nearest d s :
  fmt d = Ok s ->
  Rabs (val (read8 s) - val d) <= / 10 ^ 8 / 2
  /\ dsign (read8 s) = dsign d /\ dexp (read8 s) = (-8)%Z.
Proof.
  intros H. destruct (fmt_quantize d s H) as (q & Hq & _ & ->).
  split; [exact (quantize_error d q Hq)|].
  destruct (quantize_val d q Hq) as [-> _].
  destruct (rescale_val d (-8)) as (He & Hs & _). auto.
Qed.

Lemma fmt_rounds_to_nearest_witness :
  Rabs (val (read8 "-0.00000000") - val (mkDecimal true 4 (-9))) <= / 10 ^ 8 / 2
  /\ dsign (read8 "-0.00000000") = true /\ dexp (read8 "-0.00000000") = (-8)%Z.
Proof. apply (fmt_rounds_to_nearest (mkDecimal true 4 (-9)) "-0.00000000"). reflexivity. Defined.

Local Close Scope R_scope.
